(** * Forex scanner: a shallow embedding of [forex_scanner.py]

    The development follows the Python module top to bottom:

    - [PyStr], [PyFloat], [Dict], [Json]: the Python values the scanner
      handles (text, binary64 numbers, insertion-ordered dictionaries,
      decoded JSON);
    - [Exec]: a state-and-exception monad in which [print], [time.sleep],
      [datetime.now] and [requests.get] leave events in a trace;
    - the class [ForexScanner] with its four methods, over an environment
      [env] that answers the requests and tells the time;
    - [Sample]: a concrete environment to run the methods in;
    - the vocabulary of the properties, then the properties, method by
      method.

    Python's [float] is IEEE binary64, which is what Rocq's primitive [float]
    is, so products, differences and comparisons are the code's own.  An
    exception the code does not catch is an outcome of its own ([Raise]),
    next to the value returned. *)

From Stdlib Require Import List String Ascii Bool Arith ZArith Lia.
From Stdlib Require Import DecimalString.
From Corelib Require Import PrimFloat SpecFloat FloatOps FloatAxioms.
Import ListNotations.
Open Scope string_scope.
Set Warnings "-inexact-float,-register-all".

(* ================================================================== *)
(** ** Text *)

Module PyStr.

(** A Python [str] is kept as its UTF-8 bytes. *)

Definition nl : string := String (ascii_of_nat 10) EmptyString.

(** [s * n] for a string [s]. *)
Fixpoint rep (s : string) (n : nat) : string :=
  match n with
  | O => ""
  | S n' => s ++ rep s n'
  end.

(** [len(s)]: code points, that is, bytes that are not UTF-8 continuation
    bytes (10xxxxxx). *)
Definition is_continuation (c : ascii) : bool :=
  let n := nat_of_ascii c in (Nat.leb 128 n && Nat.ltb n 192)%bool.

Fixpoint len (s : string) : nat :=
  match s with
  | EmptyString => 0
  | String c s' => (if is_continuation c then 0 else 1) + len s'
  end.

(** The format spec [:<w] on a string: pad on the right with spaces up to
    [w] characters, never truncate. *)
Definition ljust (s : string) (w : nat) : string :=
  s ++ rep " " (w - len s).

(** [sub in s] for two strings. *)
Fixpoint contains (sub s : string) : bool :=
  if prefix sub s then true
  else match s with
       | EmptyString => false
       | String _ s' => contains sub s'
       end.

(** [str(n)] for a non-negative and for any integer. *)
Definition of_nat (n : nat) : string :=
  NilZero.string_of_uint (Nat.to_uint n).

Definition of_Z (z : Z) : string :=
  NilZero.string_of_int (Z.to_int z).

(** Whether a character occurs in a string. *)
Fixpoint has_char (c : ascii) (s : string) : bool :=
  match s with
  | EmptyString => false
  | String d s' => (Ascii.eqb c d || has_char c s')%bool
  end.

End PyStr.

(* ================================================================== *)
(** ** Numbers *)

Module PyFloat.

(** [float(n)] for an integer: round to nearest even; [None] stands for
    the [OverflowError] of integers beyond the binary64 range. *)
Definition of_Z (z : Z) : option float :=
  match binary_normalize prec emax z 0 false with
  | S754_infinity _ => None
  | sf => Some (SF2Prim sf)
  end.

(** [10 ** n]. *)
Definition pow10 (n : nat) : Z := Z.pow 10 (Z.of_nat n).

(** The digits of [|x| * 10^d] rounded half-even to an integer, for a
    finite [x = +-m * 2^e]. *)
Definition scaled_round (d : nat) (m : positive) (e : Z) : Z :=
  let num := (Zpos m * pow10 d)%Z in
  if (0 <=? e)%Z then (num * Z.pow 2 e)%Z
  else
    let den := Z.pow 2 (- e) in
    let q := (num / den)%Z in
    let r := (num mod den)%Z in
    if (den <? 2 * r)%Z then (q + 1)%Z
    else if (den =? 2 * r)%Z then (if Z.even q then q else q + 1)%Z
    else q.

(** The decimal digits of [n] on at least [w] columns, zero-padded on
    the left. *)
Definition zero_pad (w : nat) (n : Z) : string :=
  let s := PyStr.of_Z n in
  PyStr.rep "0" (w - String.length s) ++ s.

Definition fixed_digits (d : nat) (n : Z) : string :=
  let ip := (n / pow10 d)%Z in
  let fp := (n mod pow10 d)%Z in
  match d with
  | O => PyStr.of_Z ip
  | _ => PyStr.of_Z ip ++ "." ++ zero_pad d fp
  end.

(** The format spec [:.df] on a float ([f"{x:.5f}"]): [d] decimals of the
    exact value, rounded half-even; the sign is kept on values that round
    to zero. *)
Definition format_f (d : nat) (x : float) : string :=
  match Prim2SF x with
  | S754_nan => "nan"
  | S754_infinity s => if s then "-inf" else "inf"
  | S754_zero s => (if s then "-" else "") ++ fixed_digits d 0
  | S754_finite s m e =>
      (if s then "-" else "") ++ fixed_digits d (scaled_round d m e)
  end.

End PyFloat.


(* ================================================================== *)
(** ** Dictionaries *)

Module Dict.

(** A Python [dict] with [str] keys: the entries in insertion order, one
    per key ([wf] below); a lookup reads the first entry of a key. *)
Definition t (V : Type) : Type := list (string * V).

Definition empty {V : Type} : t V := [].

Definition items {V : Type} (d : t V) : list (string * V) := d.

Definition keys {V : Type} (d : t V) : list string := map fst d.

(** [d.get(k)], [None] for a missing key. *)
Fixpoint get {V : Type} (d : t V) (k : string) : option V :=
  match d with
  | [] => None
  | (k', v) :: d' => if String.eqb k' k then Some v else get d' k
  end.

(** [k in d]. *)
Definition mem {V : Type} (d : t V) (k : string) : bool :=
  match get d k with Some _ => true | None => false end.

(** [d[k] = v]: a present key keeps its place and takes the new value, a
    new key goes to the end. *)
Fixpoint set {V : Type} (d : t V) (k : string) (v : V) : t V :=
  match d with
  | [] => [(k, v)]
  | (k', v') :: d' =>
      if String.eqb k' k then (k', v) :: d' else (k', v') :: set d' k v
  end.

(** [not d]. *)
Definition is_empty {V : Type} (d : t V) : bool :=
  match d with [] => true | _ :: _ => false end.

(** What makes a list of entries a dictionary. *)
Definition wf {V : Type} (d : t V) : Prop := NoDup (keys d).

End Dict.

(* ================================================================== *)
(** ** Exceptions and decoded JSON *)

(** An exception, by the classes the handlers of the module tell apart:

    - [RequestException]: an instance of
      [requests.exceptions.RequestException], whatever else it is;
    - [RequestsJSONDecodeError]: [requests.exceptions.JSONDecodeError], which
      [response.json()] raises on a body that is not JSON; it is a
      [RequestException] and a [ValueError] at once, and is kept apart as
      the case both [except] clauses of [get_exchange_rate] name;
    - [KeyError], with the missing key;
    - [ValueError]: an instance of [ValueError] outside [requests], among
      them [json.JSONDecodeError];
    - [TypeError], [OverflowError], [KeyboardInterrupt];
    - [OtherException]: any other subclass of [Exception] ([RecursionError],
      [OSError], ...), with the name of its class;
    - [OtherBaseException]: any other class outside [Exception]
      ([SystemExit], ...). *)
Inductive exn : Type :=
| RequestException (msg : string)
| RequestsJSONDecodeError (msg : string)
| KeyError (key : string)
| ValueError (msg : string)
| TypeError
| OverflowError
| KeyboardInterrupt
| OtherException (class_name msg : string)
| OtherBaseException (class_name msg : string).

(** [isinstance(e, requests.exceptions.RequestException)]. *)
Definition is_request_exception (e : exn) : bool :=
  match e with
  | RequestException _ | RequestsJSONDecodeError _ => true
  | _ => false
  end.

(** [isinstance(e, (KeyError, ValueError, json.JSONDecodeError))], asked
    of an exception the clause for [RequestException] has not taken. *)
Definition is_key_or_value_error (e : exn) : bool :=
  match e with
  | KeyError _ | ValueError _ | RequestsJSONDecodeError _ => true
  | _ => false
  end.

(** [isinstance(e, Exception)]. *)
Definition is_exception (e : exn) : bool :=
  match e with
  | KeyboardInterrupt | OtherBaseException _ _ => false
  | _ => true
  end.

(** [str(e)], for the exceptions that carry their text; a [TypeError] and
    an [OverflowError] carry none here (no [except] clause of
    [get_exchange_rate] prints one), and the name of the class stands for
    it. *)
Definition exn_str (e : exn) : string :=
  match e with
  | RequestException msg => msg
  | RequestsJSONDecodeError msg => msg
  | KeyError key => "'" ++ key ++ "'"
  | ValueError msg => msg
  | TypeError => "TypeError"
  | OverflowError => "OverflowError"
  | KeyboardInterrupt => ""
  | OtherException _ msg => msg
  | OtherBaseException _ msg => msg
  end.

(** A computation either returns or raises. *)
Inductive outcome (A : Type) : Type :=
| Return (a : A)
| Raise (e : exn).
Arguments Return {A} a.
Arguments Raise {A} e.

Definition returns {A : Type} (o : outcome A) : bool :=
  match o with Return _ => true | Raise _ => false end.

Module Json.

(** What [response.json()] can give: [None], [bool], [int], [float],
    [str], [list], [dict]. *)
Inductive t : Type :=
| JNull
| JBool (b : bool)
| JInt (z : Z)
| JFloat (f : float)
| JStr (s : string)
| JArr (l : list t)
| JObj (d : list (string * t)).

(** [key in data] for a [str] key: key lookup in a dict, element equality
    in a list, substring test in a string, [TypeError] on anything else. *)
Definition contains (key : string) (data : t) : outcome bool :=
  match data with
  | JObj d => Return (Dict.mem d key)
  | JArr l =>
      Return (existsb (fun x => match x with
                                | JStr s => String.eqb s key
                                | _ => false
                                end) l)
  | JStr s => Return (PyStr.contains key s)
  | JNull | JBool _ | JInt _ | JFloat _ => Raise TypeError
  end.

(** [data[key]] for a [str] key: [KeyError] on a dict without the key,
    [TypeError] on anything that is not a dict. *)
Definition getitem (data : t) (key : string) : outcome t :=
  match data with
  | JObj d =>
      match Dict.get d key with
      | Some v => Return v
      | None => Raise (KeyError key)
      end
  | _ => Raise TypeError
  end.

End Json.
Import Json.

(* ================================================================== *)
(** ** The scanner's state and what surrounds it *)

(** The dictionary [get_exchange_rate] returns.  The text fields hold
    whatever JSON value the response carries under their key. *)
Record RateRecord : Type := {
  from : Json.t;
  from_name : Json.t;
  to : Json.t;
  to_name : Json.t;
  rate : float;
  last_refreshed : Json.t;
  timezone : Json.t;
  bid : float;
  ask : float
}.

(** An instance of the class: the two attributes [__init__] sets. *)
Record ForexScanner : Type := {
  api_key : string;
  cache : Dict.t Json.t
}.

Record request : Type := {
  url : string;
  params : list (string * string);
  timeout : Z
}.

(** What [requests.get], [raise_for_status] and [response.json] end in:
    an exception or the decoded body. *)
Inductive http_result : Type :=
| HttpRaise (e : exn)
| HttpJson (data : Json.t).

Record datetime : Type := {
  year : nat; month : nat; day : nat;
  hour : nat; minute : nat; second : nat
}.

(** What the program does to the outside, in order. *)
Inductive event : Type :=
| Get (r : request)
| Sleep (seconds : float)
| Print (text : string)
| Now.

(** The outside world and the built-ins taken as given: the answer to
    the n-th request, the n-th reading of the clock, [str] on a decoded
    JSON value, [float] on a [str] (the number, or the message of the
    [ValueError]), the methods [upper], [lower] and [strip] of [str], which
    follow the Unicode tables, and what [time.sleep] raises on a length, if
    anything ([ValueError] on a negative length and on NaN, [OverflowError]
    or [OSError] on a length beyond the clock of the platform).  The program
    is deterministic, so whatever a server answers to the requests it makes
    is one such sequence of answers. *)
Record env : Type := {
  http : nat -> http_result;
  clock : nat -> datetime;
  py_str : Json.t -> string;
  float_of_str : string -> string + float;
  str_upper : string -> string;
  str_lower : string -> string;
  str_strip : string -> string;
  sleep_error : float -> option exn
}.

Record state : Type := {
  self : ForexScanner;
  requests_made : nat;
  clock_reads : nat;
  trace : list event
}.

(* ================================================================== *)
(** ** Running Python statements *)

Module Exec.

(** A statement runs from a state to an outcome and a state. *)
Definition M (A : Type) : Type := state -> outcome A * state.

Definition ret {A : Type} (a : A) : M A := fun st => (Return a, st).

Definition raise {A : Type} (e : exn) : M A := fun st => (Raise e, st).

Definition bind {A B : Type} (c : M A) (k : A -> M B) : M B :=
  fun st =>
    match c st with
    | (Return a, st') => k a st'
    | (Raise e, st') => (Raise e, st')
    end.

(** An expression that may raise, evaluated in a statement. *)
Definition lift {A : Type} (o : outcome A) : M A := fun st => (o, st).

(** [try: body except ...: handler]; the handler re-raises what it does
    not catch. *)
Definition try_except {A : Type} (body : M A) (handler : exn -> M A) : M A :=
  fun st =>
    match body st with
    | (Return a, st') => (Return a, st')
    | (Raise e, st') => handler e st'
    end.

Definition emit (ev : event) : M unit :=
  fun st =>
    (Return tt,
     {| self := self st;
        requests_made := requests_made st;
        clock_reads := clock_reads st;
        trace := (trace st ++ [ev])%list |}).

(** [print(text)] and [print(text, end=' ')]; the standard output takes
    every text. *)
Definition print (text : string) : M unit := emit (Print (text ++ PyStr.nl)).

Definition print_end (text last : string) : M unit :=
  emit (Print (text ++ last)).

Definition get_self : M ForexScanner := fun st => (Return (self st), st).

(** [for x in l: acc = body(x, acc)]. *)
Fixpoint for_loop {A S : Type} (l : list A) (body : A -> S -> M S) (acc : S)
  : M S :=
  match l with
  | [] => ret acc
  | x :: l' => bind (body x acc) (for_loop l' body)
  end.

(** [enumerate(l, start)]. *)
Definition enumerate {A : Type} (l : list A) (start : nat) : list (nat * A) :=
  combine (seq start (List.length l)) l.

(** Everything printed, in order. *)
Fixpoint stdout (tr : list event) : string :=
  match tr with
  | [] => ""
  | Print text :: tr' => text ++ stdout tr'
  | _ :: tr' => stdout tr'
  end.

Definition is_get (ev : event) : bool :=
  match ev with Get _ => true | _ => false end.

Definition is_sleep (ev : event) : bool :=
  match ev with Sleep _ => true | _ => false end.

(** The requests sent and the pauses taken, in order. *)
Definition gets (tr : list event) : list event := filter is_get tr.
Definition sleeps (tr : list event) : list event := filter is_sleep tr.

End Exec.
Import Exec.

Declare Scope py_scope.
Delimit Scope py_scope with py.
Notation "x <- c ;; k" := (bind c (fun x => k))
  (at level 100, c at next level, right associativity) : py_scope.
Notation "c ;; k" := (bind c (fun _ => k))
  (at level 100, right associativity) : py_scope.
Open Scope py_scope.

(* ================================================================== *)
(** ** class ForexScanner *)

Definition BASE_URL : string := "https://www.alphavantage.co/query".

(** [ForexScanner(api_key)]. *)
Definition init (key : string) : ForexScanner :=
  {| api_key := key; cache := Dict.empty |}.

Definition initial_state (key : string) : state :=
  {| self := init key; requests_made := 0; clock_reads := 0; trace := [] |}.

(** [f"{from_curr}/{to_curr}"]. *)
Definition pair_name (from_curr to_curr : string) : string :=
  from_curr ++ "/" ++ to_curr.

(** [strftime('%Y-%m-%d %H:%M:%S')], for the four-digit years a clock
    gives. *)
Definition strftime (t : datetime) : string :=
  PyFloat.zero_pad 4 (Z.of_nat (year t)) ++ "-" ++
  PyFloat.zero_pad 2 (Z.of_nat (month t)) ++ "-" ++
  PyFloat.zero_pad 2 (Z.of_nat (day t)) ++ " " ++
  PyFloat.zero_pad 2 (Z.of_nat (hour t)) ++ ":" ++
  PyFloat.zero_pad 2 (Z.of_nat (minute t)) ++ ":" ++
  PyFloat.zero_pad 2 (Z.of_nat (second t)).

Section Scanner.

Variable E : env.

(** [requests.get(url, params=params, timeout=timeout)], then
    [raise_for_status()] and [json()]: one request leaves, and its answer
    is the next one the world has. *)
Definition requests_get_json (u : string) (ps : list (string * string))
           (tmo : Z) : M Json.t :=
  fun st =>
    (match http E (requests_made st) with
     | HttpRaise e => Raise e
     | HttpJson data => Return data
     end,
     {| self := self st;
        requests_made := S (requests_made st);
        clock_reads := clock_reads st;
        trace :=
          (trace st ++ [Get {| url := u; params := ps; timeout := tmo |}])%list |}).

(** [time.sleep(seconds)]: the pause is taken, unless the length is one
    [time.sleep] refuses; then its exception is raised and no time passes. *)
Definition time_sleep (seconds : float) : M unit :=
  match sleep_error E seconds with
  | Some e => raise e
  | None => emit (Sleep seconds)
  end.

(** [datetime.now()]. *)
Definition datetime_now : M datetime :=
  fun st =>
    (Return (clock E (clock_reads st)),
     {| self := self st;
        requests_made := requests_made st;
        clock_reads := S (clock_reads st);
        trace := (trace st ++ [Now])%list |}).

(** [float(v)] on a decoded JSON value. *)
Definition py_float (v : Json.t) : outcome float :=
  match v with
  | JStr s =>
      match float_of_str E s with
      | inl msg => Raise (ValueError msg)
      | inr f => Return f
      end
  | JFloat f => Return f
  | JInt z =>
      match PyFloat.of_Z z with
      | Some f => Return f
      | None => Raise OverflowError
      end
  | JBool b => Return (if b then 1%float else 0%float)
  | JNull | JArr _ | JObj _ => Raise TypeError
  end.

(** The format spec [:<w] on a decoded JSON value: defined on strings
    and numbers, [TypeError] on [None], lists and dicts. *)
Definition format_ljust (v : Json.t) (w : nat) : outcome string :=
  match v with
  | JStr s => Return (PyStr.ljust s w)
  | JInt z => Return (PyStr.ljust (PyStr.of_Z z) w)
  | JBool b => Return (PyStr.ljust (if b then "1" else "0") w)
  | JFloat f => Return (PyStr.ljust (py_str E (JFloat f)) w)
  | JNull | JArr _ | JObj _ => Raise TypeError
  end.

(** [except RequestException] and [except (KeyError, ValueError,
    json.JSONDecodeError)], tried in this order: an exception that is an
    instance of both goes to the first clause; every other exception leaves
    the method. *)
Definition get_exchange_rate_except (e : exn) : M (option RateRecord) :=
  if is_request_exception e then
    (print ("❌ Network error: " ++ exn_str e) ;;
     ret None)
  else if is_key_or_value_error e then
    (print ("❌ Data parsing error: " ++ exn_str e) ;;
     ret None)
  else raise e.

(** The [try] block once [data = response.json()] is there: the three
    checks of the envelope, then the nine fields in the order the
    dictionary display evaluates them. *)
Definition get_exchange_rate_try (from_currency to_currency : string)
           (data : Json.t) : M (option RateRecord) :=
  has_error <- lift (Json.contains "Error Message" data) ;;
  if has_error then
    (message <- lift (Json.getitem data "Error Message") ;;
     print ("❌ Error: " ++ py_str E message) ;;
     ret None)
  else
    (has_note <- lift (Json.contains "Note" data) ;;
     if has_note then
       (note <- lift (Json.getitem data "Note") ;;
        print ("⚠️  API Limit: " ++ py_str E note) ;;
        ret None)
     else
       (has_quote <-
          lift (Json.contains "Realtime Currency Exchange Rate" data) ;;
        if negb has_quote then
          (print ("❌ Invalid response for " ++ from_currency ++ "/"
                    ++ to_currency) ;;
           ret None)
        else
          (rate_data <-
             lift (Json.getitem data "Realtime Currency Exchange Rate") ;;
           v_from <- lift (Json.getitem rate_data "1. From_Currency Code") ;;
           v_from_name <-
             lift (Json.getitem rate_data "2. From_Currency Name") ;;
           v_to <- lift (Json.getitem rate_data "3. To_Currency Code") ;;
           v_to_name <- lift (Json.getitem rate_data "4. To_Currency Name") ;;
           v_rate_raw <- lift (Json.getitem rate_data "5. Exchange Rate") ;;
           v_rate <- lift (py_float v_rate_raw) ;;
           v_refreshed <- lift (Json.getitem rate_data "6. Last Refreshed") ;;
           v_timezone <- lift (Json.getitem rate_data "7. Time Zone") ;;
           v_bid_raw <- lift (Json.getitem rate_data "8. Bid Price") ;;
           v_bid <- lift (py_float v_bid_raw) ;;
           v_ask_raw <- lift (Json.getitem rate_data "9. Ask Price") ;;
           v_ask <- lift (py_float v_ask_raw) ;;
           ret (Some {| from := v_from;
                        from_name := v_from_name;
                        to := v_to;
                        to_name := v_to_name;
                        rate := v_rate;
                        last_refreshed := v_refreshed;
                        timezone := v_timezone;
                        bid := v_bid;
                        ask := v_ask |})))).

Definition get_exchange_rate (from_currency to_currency : string)
  : M (option RateRecord) :=
  scanner <- get_self ;;
  let params :=
    [ ("function", "CURRENCY_EXCHANGE_RATE");
      ("from_currency", str_upper E from_currency);
      ("to_currency", str_upper E to_currency);
      ("apikey", api_key scanner) ] in
  try_except
    (data <- requests_get_json BASE_URL params 10 ;;
     get_exchange_rate_try from_currency to_currency data)
    get_exchange_rate_except.

(** The body of the [for] loop of [scan_pairs]; [results] is the
    dictionary being filled. *)
Definition scan_step (total_pairs : nat) (delay : float)
           (item : nat * (string * string)) (results : Dict.t RateRecord)
  : M (Dict.t RateRecord) :=
  let '(idx, (from_curr, to_curr)) := item in
  let pair_name := pair_name from_curr to_curr in
  print_end ("[" ++ PyStr.of_nat idx ++ "/" ++ PyStr.of_nat total_pairs
               ++ "] Fetching " ++ pair_name ++ "...") " " ;;
  rate_data <- get_exchange_rate from_curr to_curr ;;
  results' <-
    (* [if rate_data:] a record has nine keys and is true, [None] is false *)
    match rate_data with
    | Some data =>
        print ("✓ " ++ PyFloat.format_f 4 (rate data)) ;;
        ret (Dict.set results pair_name data)
    | None =>
        print "✗ Failed" ;;
        ret results
    end ;;
  (if Nat.ltb idx total_pairs then time_sleep delay else ret tt) ;;
  ret results'.

Definition scan_pairs (currency_pairs : list (string * string))
           (delay : float) : M (Dict.t RateRecord) :=
  let total_pairs := List.length currency_pairs in
  print (PyStr.nl ++ PyStr.rep "=" 70) ;;
  print ("🔍 FOREX SCANNER - Starting scan of " ++ PyStr.of_nat total_pairs
           ++ " currency pairs") ;;
  print (PyStr.rep "=" 70 ++ PyStr.nl) ;;
  for_loop (enumerate currency_pairs 1) (scan_step total_pairs delay)
           Dict.empty.

(** One data row of the table. *)
Definition display_row (item : string * RateRecord) (_ : unit) : M unit :=
  let '(pair_name, data) := item in
  let rate := PyFloat.format_f 5 (rate data) in
  let bid := PyFloat.format_f 5 (bid data) in
  let ask := PyFloat.format_f 5 (ask data) in
  updated <- lift (format_ljust (last_refreshed data) 20) ;;
  print (PyStr.ljust pair_name 15 ++ " " ++ PyStr.ljust rate 12 ++ " "
           ++ PyStr.ljust bid 12 ++ " " ++ PyStr.ljust ask 12 ++ " "
           ++ updated).

Definition display_results (results : Dict.t RateRecord) : M unit :=
  if Dict.is_empty results then
    print (PyStr.nl ++ "❌ No results to display")
  else
    (print (PyStr.nl ++ PyStr.rep "=" 70) ;;
     now <- datetime_now ;;
     print ("📊 FOREX SCANNER RESULTS - " ++ strftime now) ;;
     print (PyStr.rep "=" 70 ++ PyStr.nl) ;;
     print (PyStr.ljust "PAIR" 15 ++ " " ++ PyStr.ljust "RATE" 12 ++ " "
              ++ PyStr.ljust "BID" 12 ++ " " ++ PyStr.ljust "ASK" 12 ++ " "
              ++ PyStr.ljust "UPDATED" 20) ;;
     print (PyStr.rep "-" 70) ;;
     for_loop (Dict.items results) display_row tt ;;
     print (PyStr.rep "=" 70 ++ PyStr.nl)).

End Scanner.

(** *** calculate_arbitrage *)

Definition finding : Type := (string * string * float)%type.

(** [{pair: data['rate'] for pair, data in results.items()}]. *)
Definition pairs_dict (results : Dict.t RateRecord) : Dict.t float :=
  fold_left (fun d (item : string * RateRecord) =>
               Dict.set d (fst item) (rate (snd item)))
            (Dict.items results) Dict.empty.

(** [abs((rate1 * rate2) - 1.0)]. *)
Definition spread_of (rate1 rate2 : float) : float :=
  PrimFloat.abs (rate1 * rate2 - 1)%float.

(** [spread > 0.01]. *)
Definition exceeds_threshold (spread : float) : bool :=
  (0.01 <? spread)%float.

(** The inner [for]: one [pair1] against every [pair2]. *)
Definition arbitrage_inner (pair1 : string) (rate1 : float)
           (pairs : Dict.t float) (opportunities : list finding)
  : list finding :=
  fold_left (fun (opps : list finding) (item2 : string * float) =>
               let '(pair2, rate2) := item2 in
               if negb (String.eqb pair1 pair2) then
                 let spread := spread_of rate1 rate2 in
                 if exceeds_threshold spread
                 then (opps ++ [(pair1, pair2, spread)])%list
                 else opps
               else opps)
            (Dict.items pairs) opportunities.

(** The two nested loops: the list [opportunities] once they are over. *)
Definition find_opportunities (results : Dict.t RateRecord) : list finding :=
  let pairs := pairs_dict results in
  fold_left (fun (opps : list finding) (item1 : string * float) =>
               arbitrage_inner (fst item1) (snd item1) pairs opps)
            (Dict.items pairs) [].

(** [opportunities[:5]], the findings shown. *)
Definition shown_opportunities (results : Dict.t RateRecord) : list finding :=
  firstn 5 (find_opportunities results).

Definition show_opportunity (f : finding) (_ : unit) : M unit :=
  let '(p1, p2, spread) := f in
  print ("  • " ++ p1 ++ " × " ++ p2 ++ " - Spread: "
           ++ PyFloat.format_f 4 spread).

Definition calculate_arbitrage (results : Dict.t RateRecord) : M unit :=
  print "💡 Arbitrage Analysis:" ;;
  print (PyStr.rep "-" 70) ;;
  let opportunities := find_opportunities results in
  (match opportunities with
   | _ :: _ =>
       print "⚠️  Potential opportunities detected (further analysis required):" ;;
       for_loop (firstn 5 opportunities) show_opportunity tt
   | [] =>
       print "✓ No significant arbitrage opportunities detected"
   end) ;;
  print "".

(* ================================================================== *)
(** ** main *)

(** [input(prompt)]: the prompt goes to the standard output as it is, and
    the line the user types comes back. *)
Definition input (prompt line : string) : M string :=
  emit (Print prompt) ;; ret line.

(** [scanner = ForexScanner(api_key)]: the object the methods are called
    on from here on. *)
Definition new_scanner (key : string) : M unit :=
  fun st =>
    (Return tt,
     {| self := init key;
        requests_made := requests_made st;
        clock_reads := clock_reads st;
        trace := trace st |}).

(** The text between the triple quotes of the first [print] of [main]. *)
Definition banner : string := "
    ╔══════════════════════════════════════════════════════════════╗
    ║                     FOREX SCANNER v1.0                       ║
    ║              Live Currency Exchange Rate Monitor             ║
    ╚══════════════════════════════════════════════════════════════╝
    ".

(** The list [currency_pairs] of [main]. *)
Definition currency_pairs : list (string * string) :=
  [ ("USD", "EUR");
    ("USD", "GBP");
    ("USD", "JPY");
    ("EUR", "GBP");
    ("GBP", "JPY") ].

(** [main()], with the two lines the user types at the two prompts; the
    second one is read only when the first is not blank. *)
Definition main (E : env) (key_line answer_line : string) : M unit :=
  print banner ;;
  typed <- input "Enter your Alpha Vantage API key: " key_line ;;
  let api_key := str_strip E typed in
  if String.eqb api_key "" then
    (print "❌ Error: API key is required!" ;;
     print "   Get your free API key at: https://www.alphavantage.co/support/#api-key")
  else
    (new_scanner api_key ;;
     print (PyStr.nl ++ "📋 Currency pairs to scan:") ;;
     for_loop currency_pairs
              (fun (p : string * string) (_ : unit) =>
                 print ("   • " ++ fst p ++ "/" ++ snd p)) tt ;;
     print (PyStr.nl ++ "⏳ Note: Free API tier allows 5 calls/minute (12 sec delay between calls)") ;;
     answer <- input (PyStr.nl ++ "Proceed with scan? (y/n): ") answer_line ;;
     let proceed := str_lower E (str_strip E answer) in
     if negb (String.eqb proceed "y") then
       print "❌ Scan cancelled"
     else
       (results <- scan_pairs E currency_pairs 12 ;;
        display_results E results ;;
        (if Nat.leb 2 (List.length results)
         then calculate_arbitrage results
         else ret tt) ;;
        print ("✅ Scan complete!" ++ PyStr.nl))).

(** The two clauses of the guard at the end of the module, with
    [describe] for [str(e)]: [except KeyboardInterrupt], then
    [except Exception as e]; what is neither leaves the module. *)
Definition script_except (describe : exn -> string) (e : exn) : M unit :=
  match e with
  | KeyboardInterrupt =>
      print (PyStr.nl ++ PyStr.nl ++ "⚠️  Scan interrupted by user")
  | _ =>
      if is_exception e then
        print (PyStr.nl ++ "❌ Unexpected error: " ++ describe e)
      else raise e
  end.

(** The guarded call: [try: main() except ...]. *)
Definition script (E : env) (describe : exn -> string)
           (key_line answer_line : string) : M unit :=
  try_except (main E key_line answer_line) (script_except describe).

(* ================================================================== *)
(** ** A concrete world to run the scanner in *)

Module Sample.

Definition digit_value (c : ascii) : option Z :=
  let n := nat_of_ascii c in
  if (Nat.leb 48 n && Nat.leb n 57)%bool then Some (Z.of_nat (n - 48)) else None.

(** The value of a run of decimal digits, with their number. *)
Fixpoint digits (s : string) (acc : Z) (count : nat) : option (Z * nat) :=
  match s with
  | EmptyString => Some (acc, count)
  | String c s' =>
      match digit_value c with
      | Some v => digits s' (10 * acc + v)%Z (S count)
      | None => None
      end
  end.

(** The text before and after the first dot. *)
Fixpoint split_dot (s : string) : string * option string :=
  match s with
  | EmptyString => (EmptyString, None)
  | String c s' =>
      if Ascii.eqb c "."%char then (EmptyString, Some s')
      else let '(a, b) := split_dot s' in (String c a, b)
  end.

(** The binary64 number nearest to [+- n / 10^d], ties to even: the
    quotient is taken with 65 bits or more and a sticky last bit. *)
Definition nearest (negative : bool) (n : Z) (d : nat) : float :=
  if (n =? 0)%Z then (if negative then (-0)%float else 0%float)
  else
    let den := PyFloat.pow10 d in
    let k := (Z.log2 den + 66)%Z in
    let num := (n * Z.pow 2 k)%Z in
    let m := (2 * (num / den) + (if (num mod den =? 0)%Z then 0 else 1))%Z in
    SF2Prim (binary_normalize prec emax (if negative then (- m)%Z else m)
                              (- (k + 1))%Z false).

Definition unsigned_literal (negative : bool) (s : string) : option float :=
  let '(ip, fp) := split_dot s in
  let fp := match fp with Some f => f | None => EmptyString end in
  match digits ip 0 0, digits fp 0 0 with
  | Some (_, ni), Some (_, nf) =>
      if (Nat.eqb (ni + nf) 0) then None
      else
        match digits (ip ++ fp) 0 0 with
        | Some (n, _) => Some (nearest negative n nf)
        | None => None
        end
  | _, _ => None
  end.

(** [float(s)] on plain decimal literals: an optional sign, digits, an
    optional dot and digits.  Everything else is refused here. *)
Definition parse_float (s : string) : string + float :=
  let r :=
    match s with
    | String "-"%char s' => unsigned_literal true s'
    | String "+"%char s' => unsigned_literal false s'
    | _ => unsigned_literal false s
    end in
  match r with
  | Some f => inr f
  | None => inl ("could not convert string to float: '" ++ s ++ "'")
  end.

(** [str(v)] on strings, integers, booleans and [None]; the other values
    are abbreviated. *)
Definition str_of (v : Json.t) : string :=
  match v with
  | JStr s => s
  | JInt z => PyStr.of_Z z
  | JBool b => if b then "True" else "False"
  | JNull => "None"
  | JFloat f => PyFloat.format_f 6 f
  | JArr _ => "[...]"
  | JObj _ => "{...}"
  end.

(** [upper], [lower] and [strip] on ASCII text, which is all the examples
    hold: white space is the characters 9 to 13 and 28 to 32. *)
Definition is_space (c : ascii) : bool :=
  let n := nat_of_ascii c in
  (Nat.leb 9 n && Nat.leb n 13)%bool || (Nat.leb 28 n && Nat.leb n 32)%bool.

Fixpoint lstrip (s : string) : string :=
  match s with
  | EmptyString => EmptyString
  | String c s' => if is_space c then lstrip s' else s
  end.

(** Right to left: a character goes when it is white space and all that
    follows it has gone. *)
Fixpoint rstrip (s : string) : string :=
  match s with
  | EmptyString => EmptyString
  | String c s' =>
      match rstrip s' with
      | EmptyString => if is_space c then EmptyString else String c EmptyString
      | rest => String c rest
      end
  end.

Definition strip (s : string) : string := rstrip (lstrip s).

Definition lower_ascii (c : ascii) : ascii :=
  let n := nat_of_ascii c in
  if (Nat.leb 65 n && Nat.leb n 90)%bool then ascii_of_nat (n + 32) else c.

Fixpoint lower (s : string) : string :=
  match s with
  | EmptyString => EmptyString
  | String c s' => String (lower_ascii c) (lower s')
  end.

Definition upper_ascii (c : ascii) : ascii :=
  let n := nat_of_ascii c in
  if (Nat.leb 97 n && Nat.leb n 122)%bool then ascii_of_nat (n - 32) else c.

Fixpoint upper (s : string) : string :=
  match s with
  | EmptyString => EmptyString
  | String c s' => String (upper_ascii c) (upper s')
  end.

(** [time.sleep] as CPython checks its argument: NaN is refused, then a
    length whose nanoseconds go beyond 64 bits, then a negative length.
    (Close to the 64-bit bound a platform may refuse a length of its own
    accord; the examples stay far from it.) *)
Definition sleep_check (seconds : float) : option exn :=
  if PrimFloat.is_nan seconds then
    Some (ValueError "Invalid value NaN (not a number)")
  else if (9223372036854775808 <? PrimFloat.abs (seconds * 1000000000))%float then
    Some OverflowError
  else if (seconds <? 0)%float then
    Some (ValueError "sleep length must be non-negative")
  else None.

(** A quote as the API sends it. *)
Definition quote (from_code to_code rate_s bid_s ask_s : string) : Json.t :=
  JObj [ ("Realtime Currency Exchange Rate",
          JObj [ ("1. From_Currency Code", JStr from_code);
                 ("2. From_Currency Name", JStr "United States Dollar");
                 ("3. To_Currency Code", JStr to_code);
                 ("4. To_Currency Name", JStr "Euro");
                 ("5. Exchange Rate", JStr rate_s);
                 ("6. Last Refreshed", JStr "2024-01-02 03:04:05");
                 ("7. Time Zone", JStr "UTC");
                 ("8. Bid Price", JStr bid_s);
                 ("9. Ask Price", JStr ask_s) ]) ].

Definition noon (s : nat) : datetime :=
  {| year := 2024; month := 1; day := 2; hour := 12; minute := 0; second := s |}.

(** A world that answers the requests with [answers], then with network
    errors, and whose clock advances one second per reading. *)
Definition world (answers : list http_result) : env :=
  {| http := fun n => nth n answers (HttpRaise (RequestException "timed out"));
     clock := noon;
     py_str := str_of;
     float_of_str := parse_float;
     str_upper := upper;
     str_lower := lower;
     str_strip := strip;
     sleep_error := sleep_check |}.

(** The record made from [quote]. *)
Definition record (from_code to_code : string) (r b a : float) : RateRecord :=
  {| from := JStr from_code;
     from_name := JStr "United States Dollar";
     to := JStr to_code;
     to_name := JStr "Euro";
     rate := r;
     last_refreshed := JStr "2024-01-02 03:04:05";
     timezone := JStr "UTC";
     bid := b;
     ask := a |}.

End Sample.

(* ================================================================== *)
(** ** The vocabulary of the properties *)

(** The state after some more events. *)
Definition log (st : state) (evs : list event) : state :=
  {| self := self st;
     requests_made := requests_made st;
     clock_reads := clock_reads st;
     trace := (trace st ++ evs)%list |}.

(** [c] prints some lines and gives an outcome, the same from every
    state. *)
Definition prints_only {A : Type} (c : M A) : Prop :=
  exists (o : outcome A) (out : list string),
    forall st, c st = (o, log st (map Print out)).

(** The request [get_exchange_rate] sends: the two codes as [upper]
    gives them. *)
Definition request_for (E : env) (scanner : ForexScanner)
           (from_currency to_currency : string) : request :=
  {| url := BASE_URL;
     params := [ ("function", "CURRENCY_EXCHANGE_RATE");
                 ("from_currency", str_upper E from_currency);
                 ("to_currency", str_upper E to_currency);
                 ("apikey", api_key scanner) ];
     timeout := 10 |}.

(** A state in which [n] requests have been made. *)
Definition at_request (n : nat) : state :=
  {| self := init ""; requests_made := n; clock_reads := 0; trace := [] |}.

(** What [get_exchange_rate] gives when its request is the n-th one. *)
Definition fetched (E : env) (n : nat) (from_currency to_currency : string)
  : outcome (option RateRecord) :=
  fst (get_exchange_rate E from_currency to_currency (at_request n)).

(** The text a statement prints when run from [st]. *)
Definition run_output {A : Type} (c : M A) (st : state) : string :=
  stdout (skipn (List.length (trace st)) (trace (snd (c st)))).

(** The pairs of a scan with what their fetches returned, and the
    dictionary they leave: a success is stored under its pair's name. *)
Definition fetch_log : Type := list ((string * string) * option RateRecord).

Definition key_of (p : string * string) : string := pair_name (fst p) (snd p).

Definition collect (acc : Dict.t RateRecord) (l : fetch_log)
  : Dict.t RateRecord :=
  fold_left (fun d (x : (string * string) * option RateRecord) =>
               match snd x with
               | Some data => Dict.set d (key_of (fst x)) data
               | None => d
               end) l acc.

(** The record of the last success stored under [k]. *)
Fixpoint last_success (k : string) (l : fetch_log) : option RateRecord :=
  match l with
  | [] => None
  | (p, o) :: l' =>
      match last_success k l' with
      | Some data => Some data
      | None => if String.eqb (key_of p) k then o else None
      end
  end.

Definition successes (l : fetch_log) : nat :=
  List.length (filter (fun x : (string * string) * option RateRecord =>
                         match snd x with Some _ => true | None => false end) l).

(** The fetches of a scan that starts when [n] requests have been made:
    every one returns, and [outs] is what they return. *)
Inductive fetches (E : env) : nat -> list (string * string) ->
                              list (option RateRecord) -> Prop :=
| fetches_nil n : fetches E n [] []
| fetches_cons n from_curr to_curr pairs o outs :
    fetched E n from_curr to_curr = Return o ->
    fetches E (S n) pairs outs ->
    fetches E n ((from_curr, to_curr) :: pairs) (o :: outs).

(** Requests with a pause between consecutive ones. *)
Fixpoint schedule (delay : float) (reqs : list request) : list event :=
  match reqs with
  | [] => []
  | r :: rest =>
      match rest with
      | [] => [Get r]
      | _ :: _ => Get r :: Sleep delay :: schedule delay rest
      end
  end.

Definition is_io (ev : event) : bool := is_get ev || is_sleep ev.

(** A code without a slash, as currency codes are. *)
Definition slash_free (code : string) : Prop :=
  PyStr.has_char "/"%char code = false.

(** The findings in discovery order, said directly: the ordered pairs of
    entries with different keys, outer entry first, whose spread exceeds
    the threshold. *)
Definition flagged (x : (string * float) * (string * float)) : bool :=
  negb (String.eqb (fst (fst x)) (fst (snd x)))
  && exceeds_threshold (spread_of (snd (fst x)) (snd (snd x))).

Definition discovery_order (pairs : Dict.t float) : list finding :=
  map (fun x : (string * float) * (string * float) =>
         (fst (fst x), fst (snd x), spread_of (snd (fst x)) (snd (snd x))))
      (filter flagged (list_prod pairs pairs)).

(** The calls a client can make on a scanner, and a run of them one after
    the other, an exception ending the call it occurs in. *)
Inductive call : Type :=
| CallFetch (from_currency to_currency : string)
| CallScan (currency_pairs : list (string * string)) (delay : float)
| CallDisplay (results : Dict.t RateRecord)
| CallArbitrage (results : Dict.t RateRecord).

Definition run_call (E : env) (c : call) : M unit :=
  match c with
  | CallFetch f t => _ <- get_exchange_rate E f t ;; ret tt
  | CallScan pairs delay => _ <- scan_pairs E pairs delay ;; ret tt
  | CallDisplay results => display_results E results
  | CallArbitrage results => calculate_arbitrage results
  end.

Definition run_calls (E : env) (cs : list call) (st : state) : state :=
  fold_left (fun st c => snd (run_call E c st)) cs st.

(** The state with another cache. *)
Definition with_cache (st : state) (c : Dict.t Json.t) : state :=
  {| self := {| api_key := api_key (self st); cache := c |};
     requests_made := requests_made st;
     clock_reads := clock_reads st;
     trace := trace st |}.

(** A record whose two codes are upper-case text: [upper] leaves them as
    they are. *)
Definition codes_uppercased (E : env) (r : RateRecord) : Prop :=
  exists a b, from r = JStr a /\ to r = JStr b /\
              str_upper E a = a /\ str_upper E b = b.

(** *** Worlds for the examples *)

(** The API answers with the codes in lower case. *)
Definition lowercase_world : env :=
  Sample.world [HttpJson (Sample.quote "usd" "eur" "0.92" "0.91" "0.93")].

(** The API answers with an error message next to a note and a quote. *)
Definition error_body : list (string * Json.t) :=
  [ ("Note", JStr "Thank you for using Alpha Vantage!");
    ("Realtime Currency Exchange Rate", JObj []);
    ("Error Message", JStr "Invalid API call.") ].

Definition error_world : env := Sample.world [HttpJson (JObj error_body)].

(** The requests and pauses of the loop of [scan_pairs] over [items]. *)
Definition pause_after (total : nat) (delay : float) (idx : nat) : list event :=
  if Nat.ltb idx total then [Sleep delay] else [].

(** What [time.sleep] raises at the end of the turn of index [idx], if the
    turn has a pause and the length is refused. *)
Definition pause_error (E : env) (total : nat) (delay : float) (idx : nat)
  : option exn :=
  if Nat.ltb idx total then sleep_error E delay else None.

Definition scan_events (E : env) (scanner : ForexScanner) (total : nat)
           (delay : float) (items : list (nat * (string * string)))
  : list event :=
  flat_map (fun x : nat * (string * string) =>
              Get (request_for E scanner (fst (snd x)) (snd (snd x)))
                :: pause_after total delay (fst x)) items.

(** Whether the fetch of the i-th pair of a scan gave a record, and how
    many fetches of the scan did. *)
Definition succeeded (E : env) (n i : nat) (p : string * string) : bool :=
  match fetched E (n + i) (fst p) (snd p) with
  | Return (Some _) => true
  | _ => false
  end.

Definition successful_fetches (E : env) (n : nat)
           (pairs : list (string * string)) : nat :=
  List.length (filter (fun x : nat * (string * string) =>
                         succeeded E n (fst x) (snd x))
                      (combine (seq 0 (List.length pairs)) pairs)).

(** What ends the turn of the pair [p], the [i]-th of a loop whose
    indices start at [start] and whose first request is the [n]-th: the
    exception of its fetch, or the one of the pause after it. *)
Definition turn_error (E : env) (n total : nat) (delay : float)
           (start i : nat) (p : string * string) : option exn :=
  match fetched E (n + i) (fst p) (snd p) with
  | Raise e => Some e
  | Return _ => pause_error E total delay (start + i)
  end.

(** A note instead of a quote: the fetch fails. *)
Definition note_body : Json.t := JObj [("Note", JStr "5 calls per minute")].

(** The first fetch fails, the second one gives a record. *)
Definition second_only_world : env :=
  Sample.world [ HttpJson note_body;
                 HttpJson (Sample.quote "A/B" "C" "1.5" "1.4" "1.6") ].

(** Two pairs whose codes differ and whose names are the same. *)
Definition colliding_pairs : list (string * string) :=
  [ ("A", "B/C"); ("A/B", "C") ].

(** A pair fetched twice, then a pair of the same name. *)
Definition repeated_then_colliding : list (string * string) :=
  [ ("A", "B/C"); ("A", "B/C"); ("A/B", "C") ].

Definition three_quotes_world : env :=
  Sample.world [ HttpJson (Sample.quote "A" "B/C" "1.0" "1.0" "1.0");
                 HttpJson (Sample.quote "A" "B/C" "2.0" "2.0" "2.0");
                 HttpJson (Sample.quote "A/B" "C" "3.0" "3.0" "3.0") ].

(** A scan of two major pairs: a record, then a note. *)
Definition record_then_note_world : env :=
  Sample.world [ HttpJson (Sample.quote "USD" "EUR" "0.92" "0.91" "0.93");
                 HttpJson note_body ].

(** The same pair twice, both fetches giving a record. *)
Definition two_quotes_world : env :=
  Sample.world [ HttpJson (Sample.quote "USD" "EUR" "0.92" "0.91" "0.93");
                 HttpJson (Sample.quote "USD" "EUR" "0.95" "0.94" "0.96") ].

(** A quote whose exchange rate is [null]. *)
Definition null_rate_body : Json.t :=
  JObj [ ("Realtime Currency Exchange Rate",
          JObj [ ("1. From_Currency Code", JStr "USD");
                 ("2. From_Currency Name", JStr "United States Dollar");
                 ("3. To_Currency Code", JStr "EUR");
                 ("4. To_Currency Name", JStr "Euro");
                 ("5. Exchange Rate", JNull);
                 ("6. Last Refreshed", JStr "2024-01-02 03:04:05");
                 ("7. Time Zone", JStr "UTC");
                 ("8. Bid Price", JStr "0.91");
                 ("9. Ask Price", JStr "0.93") ]) ].

Definition null_rate_world : env :=
  Sample.world [ HttpJson null_rate_body;
                 HttpJson (Sample.quote "USD" "GBP" "0.79" "0.78" "0.80") ].

(** A statement that leaves the scanner object as it found it. *)
Definition keeps_self {A : Type} (c : M A) : Prop :=
  forall st, self (snd (c st)) = self st.

(** What [calculate_arbitrage] prints for a finding, and all it prints. *)
Definition opportunity_line (f : finding) : string :=
  (("  • " ++ fst (fst f) ++ " × " ++ snd (fst f) ++ " - Spread: "
      ++ PyFloat.format_f 4 (snd f)) ++ PyStr.nl)%string.

Definition arbitrage_lines (results : Dict.t RateRecord) : list string :=
  ([ ("💡 Arbitrage Analysis:" ++ PyStr.nl)%string;
     (PyStr.rep "-" 70 ++ PyStr.nl)%string ]
   ++ match find_opportunities results with
      | [] => [ ("✓ No significant arbitrage opportunities detected"
                   ++ PyStr.nl)%string ]
      | _ :: _ =>
          ("⚠️  Potential opportunities detected (further analysis required):"
             ++ PyStr.nl)%string
            :: map opportunity_line (shown_opportunities results)
      end
   ++ [ ("" ++ PyStr.nl)%string ])%list.

(** The entries of a dictionary with their rates. *)
Definition rates (results : Dict.t RateRecord) : Dict.t float :=
  map (fun item : string * RateRecord => (fst item, rate (snd item))) results.

(** One scanned pair. *)
Definition one_result : Dict.t RateRecord :=
  [ ("USD/EUR", Sample.record "USD" "EUR" 0.92 0.91 0.93) ].

(** The two entries of the example of the heuristic. *)
Definition halves : Dict.t RateRecord :=
  [ ("USD/EUR", Sample.record "USD" "EUR" 0.5 0.5 0.5);
    ("EUR/USD", Sample.record "EUR" "USD" 0.5 0.5 0.5) ].

(** A product a tenth below 1, and a product 0.005 above 1. *)
Definition below_parity : Dict.t RateRecord :=
  [ ("USD/EUR", Sample.record "USD" "EUR" 0.9 0.9 0.9);
    ("EUR/USD", Sample.record "EUR" "USD" 1 1 1) ].

Definition above_parity : Dict.t RateRecord :=
  [ ("USD/EUR", Sample.record "USD" "EUR" 1.005 1.005 1.005);
    ("EUR/USD", Sample.record "EUR" "USD" 1 1 1) ].

(** Three entries at one half. *)
Definition three_halves : Dict.t RateRecord :=
  [ ("USD/EUR", Sample.record "USD" "EUR" 0.5 0.5 0.5);
    ("EUR/USD", Sample.record "EUR" "USD" 0.5 0.5 0.5);
    ("USD/GBP", Sample.record "USD" "GBP" 0.5 0.5 0.5) ].

(** A world whose clock stands still. *)
Definition frozen_world : env :=
  {| http := fun _ => HttpRaise (RequestException "timed out");
     clock := fun _ => Sample.noon 0;
     py_str := Sample.str_of;
     float_of_str := Sample.parse_float;
     str_upper := Sample.upper;
     str_lower := Sample.lower;
     str_strip := Sample.strip;
     sleep_error := Sample.sleep_check |}.

(** *** Further vocabulary *)

(** The nine keys of the quote object, in the order [get_exchange_rate]
    reads them. *)
Definition quote_keys : list string :=
  [ "1. From_Currency Code"; "2. From_Currency Name";
    "3. To_Currency Code"; "4. To_Currency Name";
    "5. Exchange Rate"; "6. Last Refreshed"; "7. Time Zone";
    "8. Bid Price"; "9. Ask Price" ].

(** A value [float] turns into a number or refuses with a [ValueError]:
    a string, a float, a boolean, an integer within range. *)
Definition number_like (E : env) (v : Json.t) : Prop :=
  match py_float E v with
  | Return _ | Raise (ValueError _) => True
  | Raise _ => False
  end.

(** The field [k] of [q], if it is there, is [number_like]. *)
Definition field_number_like (E : env) (q : list (string * Json.t))
           (k : string) : Prop :=
  forall v, Dict.get q k = Some v -> number_like E v.

(** The successes of a scan as entries, in the order of the pairs. *)
Definition scan_successes (E : env) (n : nat)
           (pairs : list (string * string)) : Dict.t RateRecord :=
  flat_map (fun x : nat * (string * string) =>
              match fetched E (n + fst x) (fst (snd x)) (snd (snd x)) with
              | Return (Some data) => [(key_of (snd x), data)]
              | _ => []
              end)
           (combine (seq 0 (List.length pairs)) pairs).

(** The successes of a log as entries. *)
Definition stored (l : fetch_log) : Dict.t RateRecord :=
  flat_map (fun x : (string * string) * option RateRecord =>
              match snd x with
              | Some data => [(key_of (fst x), data)]
              | None => []
              end) l.

(** The exceptions the two [except] clauses of [get_exchange_rate] name:
    [RequestException] in the first, [KeyError] and [ValueError] in the
    second, and the decoding error of [requests], which is of both. *)
Definition caught_class (e : exn) : Prop :=
  exists s, e = RequestException s \/ e = RequestsJSONDecodeError s \/
            e = KeyError s \/ e = ValueError s.


(** Decoding the answer runs out of stack. *)
Definition deep_body_world : env :=
  Sample.world
    [HttpRaise (OtherException "RecursionError"
                  "maximum recursion depth exceeded while decoding a JSON array from a unicode string")].

(** A quote without its bid price, a quote whose rate is no number, and the
    worlds that answer with them. *)
Definition no_bid_body : Json.t :=
  JObj [ ("Realtime Currency Exchange Rate",
          JObj [ ("1. From_Currency Code", JStr "USD");
                 ("2. From_Currency Name", JStr "United States Dollar");
                 ("3. To_Currency Code", JStr "EUR");
                 ("4. To_Currency Name", JStr "Euro");
                 ("5. Exchange Rate", JStr "0.92");
                 ("6. Last Refreshed", JStr "2024-01-02 03:04:05");
                 ("7. Time Zone", JStr "UTC");
                 ("9. Ask Price", JStr "0.93") ]) ].

Definition no_bid_world : env := Sample.world [HttpJson no_bid_body].

Definition bad_rate_world : env :=
  Sample.world [HttpJson (Sample.quote "USD" "EUR" "n/a" "0.91" "0.93")].


Definition empty_object_world : env := Sample.world [HttpJson (JObj [])].

Definition null_body_world : env := Sample.world [HttpJson JNull].

(** The second of three fetches raises. *)
Definition second_raises_world : env :=
  Sample.world [ HttpJson (Sample.quote "USD" "EUR" "0.92" "0.91" "0.93");
                 HttpJson null_rate_body;
                 HttpJson (Sample.quote "USD" "JPY" "149.5" "149.4" "149.6") ].

(** A record, a note, a record. *)
Definition mixed_world : env :=
  Sample.world [ HttpJson (Sample.quote "USD" "EUR" "0.92" "0.91" "0.93");
                 HttpJson note_body;
                 HttpJson (Sample.quote "USD" "JPY" "149.5" "149.4" "149.6") ].

Definition three_pairs : list (string * string) :=
  [ ("USD", "EUR"); ("USD", "GBP"); ("USD", "JPY") ].





(** A rate that is not a number, next to one that is. *)
Definition with_nan : Dict.t RateRecord :=
  [ ("USD/EUR", Sample.record "USD" "EUR" nan nan nan);
    ("EUR/USD", Sample.record "EUR" "USD" 0.5 0.5 0.5) ].

(** A statement that sends no request and takes no pause. *)
Definition quiet {A : Type} (c : M A) : Prop :=
  forall st, filter is_io (trace (snd (c st))) = filter is_io (trace st).

(** What [main] prints before it asks for the key, and between the key and
    the scan. *)
Definition greeting : list event :=
  [ Print (banner ++ PyStr.nl);
    Print "Enter your Alpha Vantage API key: " ].

Definition briefing : list event :=
  [ Print ((PyStr.nl ++ "📋 Currency pairs to scan:") ++ PyStr.nl);
    Print ("   • USD/EUR" ++ PyStr.nl);
    Print ("   • USD/GBP" ++ PyStr.nl);
    Print ("   • USD/JPY" ++ PyStr.nl);
    Print ("   • EUR/GBP" ++ PyStr.nl);
    Print ("   • GBP/JPY" ++ PyStr.nl);
    Print ((PyStr.nl ++ "⏳ Note: Free API tier allows 5 calls/minute (12 sec delay between calls)") ++ PyStr.nl);
    Print (PyStr.nl ++ "Proceed with scan? (y/n): ") ].

(** The state in which the scan of [main] starts. *)
Definition ready (st : state) (key : string) : state :=
  {| self := init key;
     requests_made := requests_made st;
     clock_reads := clock_reads st;
     trace := (trace st ++ greeting ++ briefing)%list |}.

(** The statements of [main] after the scan. *)
Definition report (E : env) (results : Dict.t RateRecord) : M unit :=
  display_results E results ;;
  (if Nat.leb 2 (List.length results)
   then calculate_arbitrage results
   else ret tt) ;;
  print ("✅ Scan complete!" ++ PyStr.nl).

(** Five quotes, and five answers of which the second is a quote with a
    null rate. *)
Definition five_quotes_world : env :=
  Sample.world [ HttpJson (Sample.quote "USD" "EUR" "0.92" "0.91" "0.93");
                 HttpJson (Sample.quote "USD" "GBP" "0.79" "0.78" "0.80");
                 HttpJson (Sample.quote "USD" "JPY" "149.5" "149.4" "149.6");
                 HttpJson (Sample.quote "EUR" "GBP" "0.86" "0.85" "0.87");
                 HttpJson (Sample.quote "GBP" "JPY" "189.1" "189.0" "189.2") ].


(** A quote, then a request interrupted from the keyboard. *)
Definition interrupted_world : env :=
  Sample.world [ HttpJson (Sample.quote "USD" "EUR" "0.92" "0.91" "0.93");
                 HttpRaise KeyboardInterrupt ].


(* ================================================================== *)
(** * Properties *)

(** ** Dictionaries *)

Section DictFacts.

Context {V : Type}.
Implicit Types (d : Dict.t V) (k : string) (v : V).

Lemma dict_get_set d k v k' :
  Dict.get (Dict.set d k v) k' =
  if String.eqb k k' then Some v else Dict.get d k'.
Proof.
  induction d as [|[k0 v0] d IH]; simpl.
  - reflexivity.
  - destruct (String.eqb k0 k) eqn:E0; simpl.
    + apply String.eqb_eq in E0; subst k0.
      destruct (String.eqb k k'); reflexivity.
    + destruct (String.eqb k0 k') eqn:E1.
      * apply String.eqb_eq in E1; subst k0.
        rewrite String.eqb_sym, E0. reflexivity.
      * exact IH.
Qed.

Lemma dict_keys_set d k v k' :
  In k' (Dict.keys (Dict.set d k v)) <-> k' = k \/ In k' (Dict.keys d).
Proof.
  induction d as [|[k0 v0] d IH]; simpl.
  - intuition congruence.
  - destruct (String.eqb k0 k) eqn:E0; simpl.
    + apply String.eqb_eq in E0; subst k0. intuition congruence.
    + rewrite IH. intuition congruence.
Qed.

Lemma dict_wf_set d k v : Dict.wf d -> Dict.wf (Dict.set d k v).
Proof.
  unfold Dict.wf.
  induction d as [|[k0 v0] d IH]; simpl; intros Hwf.
  - constructor; [intros [] | constructor].
  - inversion Hwf as [|? ? Hnotin Hrest]; subst.
    destruct (String.eqb k0 k) eqn:E0; simpl.
    + constructor; assumption.
    + constructor; [|auto].
      intros Hin. apply dict_keys_set in Hin as [->|Hin]; [|contradiction].
      rewrite String.eqb_refl in E0. discriminate.
Qed.

Lemma dict_get_in_keys d k :
  In k (Dict.keys d) <-> exists v, Dict.get d k = Some v.
Proof.
  induction d as [|[k0 v0] d IH]; simpl.
  - split; [intros [] | intros [v Hv]; discriminate].
  - destruct (String.eqb k0 k) eqn:E0.
    + apply String.eqb_eq in E0. split; eauto.
    + apply String.eqb_neq in E0. rewrite <- IH. intuition.
Qed.

Lemma dict_get_in d k v : Dict.get d k = Some v -> In (k, v) d.
Proof.
  induction d as [|[k0 v0] d IH]; simpl; [discriminate|].
  destruct (String.eqb k0 k) eqn:E0.
  - apply String.eqb_eq in E0. intros [= ->]. subst. now left.
  - auto.
Qed.

Lemma dict_in_get d k v : Dict.wf d -> In (k, v) d -> Dict.get d k = Some v.
Proof.
  unfold Dict.wf.
  induction d as [|[k0 v0] d IH]; simpl; intros Hwf Hin; [contradiction|].
  inversion Hwf as [|? ? Hnotin Hrest]; subst.
  destruct Hin as [[= -> ->]|Hin].
  - now rewrite String.eqb_refl.
  - destruct (String.eqb k0 k) eqn:E0; [|auto].
    apply String.eqb_eq in E0; subst k0.
    exfalso. apply Hnotin. apply (in_map fst) in Hin. exact Hin.
Qed.

Lemma dict_length_set d k v :
  List.length (Dict.set d k v) =
  if Dict.mem d k then List.length d else S (List.length d).
Proof.
  unfold Dict.mem.
  induction d as [|[k0 v0] d IH]; simpl; [reflexivity|].
  destruct (String.eqb k0 k); simpl; [reflexivity|].
  rewrite IH. destruct (Dict.get d k); reflexivity.
Qed.

(** A well-formed dictionary has one entry per key. *)
Lemma dict_wf_one_entry d k v :
  Dict.wf d -> Dict.get d k = Some v ->
  count_occ string_dec (Dict.keys d) k = 1.
Proof.
  intros Hwf Hget.
  assert (Hin : In k (Dict.keys d)) by (apply dict_get_in_keys; eauto).
  pose proof (proj1 (NoDup_count_occ string_dec (Dict.keys d)) Hwf k) as Hle.
  apply (count_occ_In string_dec) in Hin. lia.
Qed.

End DictFacts.

(** ** Statements that only print *)

Lemma log_log st a b : log (log st a) b = log st (a ++ b)%list.
Proof. unfold log; simpl. now rewrite app_assoc. Qed.

Lemma log_nil st : log st [] = st.
Proof. destruct st; unfold log; simpl. now rewrite app_nil_r. Qed.

Lemma prints_only_ret {A : Type} (a : A) : prints_only (ret a).
Proof. exists (Return a), []. intros st. unfold ret. now rewrite log_nil. Qed.

Lemma prints_only_raise {A : Type} (e : exn) : prints_only (@raise A e).
Proof. exists (Raise e), []. intros st. unfold raise. now rewrite log_nil. Qed.

Lemma prints_only_lift {A : Type} (o : outcome A) : prints_only (lift o).
Proof. exists o, []. intros st. unfold lift. now rewrite log_nil. Qed.

Lemma prints_only_print text : prints_only (print text).
Proof. exists (Return tt), [(text ++ PyStr.nl)%string]. reflexivity. Qed.

Lemma prints_only_print_end text last : prints_only (print_end text last).
Proof. exists (Return tt), [(text ++ last)%string]. reflexivity. Qed.

Lemma prints_only_bind {A B : Type} (c : M A) (k : A -> M B) :
  prints_only c -> (forall a, prints_only (k a)) -> prints_only (bind c k).
Proof.
  intros [o [out Hc]] Hk. destruct o as [a|e].
  - destruct (Hk a) as [o' [out' Hka]].
    exists o', (out ++ out')%list. intros st.
    unfold bind. rewrite Hc, Hka, log_log, map_app. reflexivity.
  - exists (Raise e), out. intros st. unfold bind. now rewrite Hc.
Qed.

Lemma prints_only_try {A : Type} (body : M A) (handler : exn -> M A) :
  prints_only body -> (forall e, prints_only (handler e)) ->
  prints_only (try_except body handler).
Proof.
  intros [o [out Hc]] Hh. destruct o as [a|e].
  - exists (Return a), out. intros st. unfold try_except. now rewrite Hc.
  - destruct (Hh e) as [o' [out' He]].
    exists o', (out ++ out')%list. intros st.
    unfold try_except. rewrite Hc, He, log_log, map_app. reflexivity.
Qed.

Lemma prints_only_for {A S : Type} (l : list A) (body : A -> S -> M S) :
  (forall x acc, prints_only (body x acc)) ->
  forall acc, prints_only (for_loop l body acc).
Proof.
  intros Hbody. induction l as [|x l IH]; intros acc; simpl.
  - apply prints_only_ret.
  - apply prints_only_bind; auto.
Qed.

Create HintDb printing.
#[export] Hint Resolve prints_only_ret prints_only_raise prints_only_lift
  prints_only_print prints_only_print_end : printing.

(** Goes through a statement made of binds, branches and prints. *)
Ltac prints_only_tac :=
  repeat first
    [ apply prints_only_ret | apply prints_only_raise | apply prints_only_lift
    | apply prints_only_print | apply prints_only_print_end
    | apply prints_only_bind; [|intros ?]
    | apply prints_only_for; intros ? ?
    | match goal with
      | |- prints_only (if ?b then _ else _) => destruct b
      | |- prints_only (match ?x with _ => _ end) => destruct x
      end ].

(** ** get_exchange_rate *)

Section FetchFacts.

Variable E : env.

Lemma get_exchange_rate_try_prints f t data :
  prints_only (get_exchange_rate_try E f t data).
Proof. unfold get_exchange_rate_try. prints_only_tac. Qed.

Lemma get_exchange_rate_except_prints e :
  prints_only (get_exchange_rate_except e).
Proof. destruct e; simpl; prints_only_tac. Qed.

(** One request, then statements that only print. *)
Lemma request_then_run {A : Type} (K : Json.t -> M A) (h : exn -> M A) :
  (forall d, prints_only (K d)) -> (forall e, prints_only (h e)) ->
  forall n, exists o out, forall u ps tmo st,
    requests_made st = n ->
    try_except (bind (requests_get_json E u ps tmo) K) h st =
    (o, {| self := self st;
           requests_made := S n;
           clock_reads := clock_reads st;
           trace := (trace st ++ Get {| url := u; params := ps; timeout := tmo |}
                       :: map Print out)%list |}).
Proof.
  intros HK Hh n.
  assert (Hshape : forall st r l, 
             log {| self := self st; requests_made := S (requests_made st);
                    clock_reads := clock_reads st;
                    trace := (trace st ++ [Get r])%list |} l =
             {| self := self st; requests_made := S (requests_made st);
                clock_reads := clock_reads st;
                trace := (trace st ++ Get r :: l)%list |}).
  { intros st r l. unfold log; simpl. now rewrite <- app_assoc. }
  destruct (http E n) as [e|data] eqn:Hresp.
  - destruct (Hh e) as [o [out He]]. exists o, out.
    intros u ps tmo st <-.
    unfold try_except, bind, requests_get_json. rewrite Hresp, He.
    now rewrite Hshape.
  - destruct (HK data) as [[a|e] [out Hd]].
    + exists (Return a), out. intros u ps tmo st <-.
      unfold try_except, bind, requests_get_json. rewrite Hresp, Hd.
      now rewrite Hshape.
    + destruct (Hh e) as [o [out' He]]. exists o, (out ++ out')%list.
      intros u ps tmo st <-.
      unfold try_except, bind, requests_get_json. rewrite Hresp, Hd, He.
      now rewrite log_log, Hshape, map_app.
Qed.

(** A fetch sends one request and prints; what it gives depends on the
    state through the number of requests made only. *)
Lemma get_exchange_rate_run f t n :
  exists out, forall st,
    requests_made st = n ->
    get_exchange_rate E f t st =
    (fetched E n f t,
     {| self := self st;
        requests_made := S n;
        clock_reads := clock_reads st;
        trace := (trace st ++ Get (request_for E (self st) f t)
                    :: map Print out)%list |}).
Proof.
  destruct (request_then_run (get_exchange_rate_try E f t)
              get_exchange_rate_except
              (get_exchange_rate_try_prints f t)
              get_exchange_rate_except_prints n) as [o [out Hrun]].
  exists out. intros st Hn.
  assert (Hunfold : forall st', get_exchange_rate E f t st' =
            try_except
              (bind (requests_get_json E BASE_URL
                       (params (request_for E (self st') f t)) 10)
                    (get_exchange_rate_try E f t))
              get_exchange_rate_except st') by reflexivity.
  unfold fetched. rewrite !Hunfold.
  rewrite (Hrun _ _ _ (at_request n) eq_refl), (Hrun _ _ _ st Hn).
  reflexivity.
Qed.

Lemma get_exchange_rate_unfold f t st :
  get_exchange_rate E f t st =
  try_except
    (bind (requests_get_json E BASE_URL (params (request_for E (self st) f t)) 10)
          (get_exchange_rate_try E f t))
    get_exchange_rate_except st.
Proof. reflexivity. Qed.

(** The handlers never give a record. *)
Lemma get_exchange_rate_except_no_record e st r st' :
  get_exchange_rate_except e st <> (Return (Some r), st').
Proof.
  unfold get_exchange_rate_except.
  destruct e; cbn; unfold bind, print, emit, ret, raise; congruence.
Qed.

(** What a response that gives a record looks like. *)
Lemma get_exchange_rate_try_record f t data st r st' :
  get_exchange_rate_try E f t data st = (Return (Some r), st') ->
  exists d q v_rate v_bid v_ask,
    data = JObj d /\
    Dict.get d "Error Message" = None /\
    Dict.get d "Note" = None /\
    Dict.get d "Realtime Currency Exchange Rate" = Some (JObj q) /\
    Dict.get q "1. From_Currency Code" = Some (from r) /\
    Dict.get q "2. From_Currency Name" = Some (from_name r) /\
    Dict.get q "3. To_Currency Code" = Some (to r) /\
    Dict.get q "4. To_Currency Name" = Some (to_name r) /\
    Dict.get q "5. Exchange Rate" = Some v_rate /\
    py_float E v_rate = Return (rate r) /\
    Dict.get q "6. Last Refreshed" = Some (last_refreshed r) /\
    Dict.get q "7. Time Zone" = Some (timezone r) /\
    Dict.get q "8. Bid Price" = Some v_bid /\
    py_float E v_bid = Return (bid r) /\
    Dict.get q "9. Ask Price" = Some v_ask /\
    py_float E v_ask = Return (ask r).
Proof.
  unfold get_exchange_rate_try, bind, lift, print, emit, ret.
  destruct data as [| | | | s | l | d]; simpl; try discriminate.
  - (* a string *)
    destruct (PyStr.contains "Error Message" s); [discriminate|].
    destruct (PyStr.contains "Note" s); [discriminate|].
    destruct (PyStr.contains "Realtime Currency Exchange Rate" s);
      simpl; discriminate.
  - (* a list *)
    destruct (existsb _ l); [discriminate|].
    destruct (existsb _ l); [discriminate|].
    destruct (existsb _ l); simpl; discriminate.
  - (* a dictionary *)
    unfold Dict.mem.
    destruct (Dict.get d "Error Message") eqn:Herr; [discriminate|].
    destruct (Dict.get d "Note") eqn:Hnote; [discriminate|].
    destruct (Dict.get d "Realtime Currency Exchange Rate") as [rate_data|]
      eqn:Hquote; simpl; [|discriminate].
    destruct rate_data as [| | | | | |q]; simpl; try discriminate.
    destruct (Dict.get q "1. From_Currency Code") eqn:H1; [|discriminate].
    destruct (Dict.get q "2. From_Currency Name") eqn:H2; [|discriminate].
    destruct (Dict.get q "3. To_Currency Code") eqn:H3; [|discriminate].
    destruct (Dict.get q "4. To_Currency Name") eqn:H4; [|discriminate].
    destruct (Dict.get q "5. Exchange Rate") as [v_rate|] eqn:H5; [|discriminate].
    destruct (py_float E v_rate) eqn:F5; [|discriminate].
    destruct (Dict.get q "6. Last Refreshed") eqn:H6; [|discriminate].
    destruct (Dict.get q "7. Time Zone") eqn:H7; [|discriminate].
    destruct (Dict.get q "8. Bid Price") as [v_bid|] eqn:H8; [|discriminate].
    destruct (py_float E v_bid) eqn:F8; [|discriminate].
    destruct (Dict.get q "9. Ask Price") as [v_ask|] eqn:H9; [|discriminate].
    destruct (py_float E v_ask) eqn:F9; [|discriminate].
    intros [= <- _]. simpl.
    exists d, q, v_rate, v_bid, v_ask. repeat split; assumption.
Qed.

End FetchFacts.

(** ** The record of a successful fetch *)

(** C1, as the code has it.  When [get_exchange_rate] returns a record, the
    response is a JSON object without error message and note whose quote
    object has the nine fields; the record's [rate], [bid] and [ask] are
    [float] of the fields "5. Exchange Rate", "8. Bid Price" and
    "9. Ask Price"; its [from] and [to] are the fields
    "1. From_Currency Code" and "3. To_Currency Code" as the response has
    them.  The codes that are put in upper case are those of the request:
    it carries what [upper] gives for the two codes of the call. *)
Theorem successful_fetch_record (E : env) (st : state) (f t : string)
        (r : RateRecord) :
  fst (get_exchange_rate E f t st) = Return (Some r) ->
  exists d q v_rate v_bid v_ask,
    http E (requests_made st) = HttpJson (JObj d) /\
    Dict.get d "Realtime Currency Exchange Rate" = Some (JObj q) /\
    Dict.get q "5. Exchange Rate" = Some v_rate /\
    py_float E v_rate = Return (rate r) /\
    Dict.get q "8. Bid Price" = Some v_bid /\
    py_float E v_bid = Return (bid r) /\
    Dict.get q "9. Ask Price" = Some v_ask /\
    py_float E v_ask = Return (ask r) /\
    Dict.get q "1. From_Currency Code" = Some (from r) /\
    Dict.get q "3. To_Currency Code" = Some (to r) /\
    exists out,
      trace (snd (get_exchange_rate E f t st)) =
      (trace st ++
       Get {| url := BASE_URL;
              params := [ ("function", "CURRENCY_EXCHANGE_RATE");
                          ("from_currency", str_upper E f);
                          ("to_currency", str_upper E t);
                          ("apikey", api_key (self st)) ];
              timeout := 10 |} :: map Print out)%list.
Proof.
  intros Hfetch.
  destruct (get_exchange_rate_run E f t (requests_made st)) as [out Hrun].
  specialize (Hrun st eq_refl).
  assert (Htrace : trace (snd (get_exchange_rate E f t st)) =
                   (trace st ++ Get (request_for E (self st) f t)
                      :: map Print out)%list) by now rewrite Hrun.
  clear Hrun. revert Hfetch.
  rewrite get_exchange_rate_unfold.
  unfold try_except, bind at 1, requests_get_json.
  destruct (http E (requests_made st)) as [e|data] eqn:Hresp.
  - intros Hfetch. exfalso.
    match type of Hfetch with
    | fst (get_exchange_rate_except ?e ?s) = _ =>
        destruct (get_exchange_rate_except e s) as [o s'] eqn:Hh
    end.
    simpl in Hfetch; subst o.
    exact (get_exchange_rate_except_no_record _ _ _ _ Hh).
  - match goal with
    | |- context [get_exchange_rate_try E f t data ?s] =>
        destruct (get_exchange_rate_try E f t data s) as [[o|e] s'] eqn:Htry
    end.
    + simpl. intros [= ->].
      destruct (get_exchange_rate_try_record E _ _ _ _ _ _ Htry)
        as (d & q & v_rate & v_bid & v_ask & -> & _ & _ & Hq & H1 & _ & H3
            & _ & H5 & F5 & _ & _ & H8 & F8 & H9 & F9).
      exists d, q, v_rate, v_bid, v_ask.
      repeat (split; [first [reflexivity | assumption]|]).
      exists out. exact Htrace.
    + intros Hfetch. exfalso.
      destruct (get_exchange_rate_except e s') as [o s''] eqn:Hh.
      simpl in Hfetch; subst o.
      exact (get_exchange_rate_except_no_record _ _ _ _ Hh).
Qed.

(** The record of a run in which the API answers in lower case. *)
Lemma successful_fetch_record_witness :
  fst (get_exchange_rate lowercase_world "usd" "eur" (initial_state "demo"))
  = Return (Some (Sample.record "usd" "eur" 0.92 0.91 0.93)) /\
  exists d q v_rate v_bid v_ask,
    http lowercase_world 0 = HttpJson (JObj d) /\
    Dict.get d "Realtime Currency Exchange Rate" = Some (JObj q) /\
    Dict.get q "5. Exchange Rate" = Some v_rate /\
    py_float lowercase_world v_rate = Return 0.92%float /\
    Dict.get q "8. Bid Price" = Some v_bid /\
    py_float lowercase_world v_bid = Return 0.91%float /\
    Dict.get q "9. Ask Price" = Some v_ask /\
    py_float lowercase_world v_ask = Return 0.93%float /\
    Dict.get q "1. From_Currency Code" = Some (JStr "usd") /\
    Dict.get q "3. To_Currency Code" = Some (JStr "eur") /\
    exists out,
      trace (snd (get_exchange_rate lowercase_world "usd" "eur"
                    (initial_state "demo"))) =
      (Get {| url := BASE_URL;
              params := [ ("function", "CURRENCY_EXCHANGE_RATE");
                          ("from_currency", "USD");
                          ("to_currency", "EUR");
                          ("apikey", "demo") ];
              timeout := 10 |} :: map Print out)%list.
Proof.
  assert (Hrun : fst (get_exchange_rate lowercase_world "usd" "eur"
                        (initial_state "demo"))
                 = Return (Some (Sample.record "usd" "eur" 0.92 0.91 0.93)))
    by (vm_compute; reflexivity).
  split; [exact Hrun|].
  exact (successful_fetch_record lowercase_world (initial_state "demo")
           "usd" "eur" _ Hrun).
Defined.

(** C1 as stated fails: the fetch below succeeds and its record carries the
    codes "usd" and "eur" of the response, which are not upper case. *)
Lemma fetch_echoes_lowercase_codes :
  fst (get_exchange_rate lowercase_world "usd" "eur" (initial_state "demo"))
  = Return (Some (Sample.record "usd" "eur" 0.92 0.91 0.93)) /\
  ~ codes_uppercased lowercase_world
      (Sample.record "usd" "eur" 0.92 0.91 0.93).
Proof.
  split; [vm_compute; reflexivity|].
  intros (a & b & Ha & _ & Hup & _).
  simpl in Ha. injection Ha as <-.
  vm_compute in Hup. discriminate.
Qed.

(** ** A response with an error message *)

(** C5.  When the response is a JSON object with the key "Error Message",
    [get_exchange_rate] returns [None] after sending its request and
    printing the message, whatever else the object holds. *)
Theorem error_message_means_failure (E : env) (st : state) (f t : string)
        (d : list (string * Json.t)) (message : Json.t) :
  http E (requests_made st) = HttpJson (JObj d) ->
  Dict.get d "Error Message" = Some message ->
  get_exchange_rate E f t st =
  (Return None,
   {| self := self st;
      requests_made := S (requests_made st);
      clock_reads := clock_reads st;
      trace := (trace st ++
                [ Get (request_for E (self st) f t);
                  Print (("❌ Error: " ++ py_str E message) ++ PyStr.nl) ])%list |}).
Proof.
  intros Hresp Hkey.
  rewrite get_exchange_rate_unfold.
  unfold try_except, bind at 1, requests_get_json. rewrite Hresp.
  unfold get_exchange_rate_try, bind, lift, print, emit, ret; simpl.
  unfold Dict.mem. rewrite Hkey. simpl.
  simpl. now rewrite <- app_assoc.
Qed.

Lemma error_message_means_failure_witness :
  Dict.get error_body "Note" <> None /\
  Dict.get error_body "Realtime Currency Exchange Rate" <> None /\
  get_exchange_rate error_world "USD" "EUR" (initial_state "demo") =
  (Return None,
   {| self := init "demo";
      requests_made := 1;
      clock_reads := 0;
      trace := [ Get (request_for error_world (init "demo") "USD" "EUR");
                 Print (("❌ Error: " ++ "Invalid API call.") ++ PyStr.nl) ] |}).
Proof.
  split; [discriminate|]. split; [discriminate|].
  apply (error_message_means_failure error_world (initial_state "demo")
           "USD" "EUR" error_body (JStr "Invalid API call.")).
  - reflexivity.
  - reflexivity.
Defined.

(** ** What a scan collects *)

Section CollectFacts.

Implicit Types (acc : Dict.t RateRecord) (l : fetch_log) (k : string).

Lemma collect_cons acc p o l :
  collect acc ((p, o) :: l) =
  collect (match o with
           | Some data => Dict.set acc (key_of p) data
           | None => acc
           end) l.
Proof. reflexivity. Qed.

(** The entry under a key is the last success stored under it. *)
Lemma collect_get l : forall acc k,
  Dict.get (collect acc l) k =
  match last_success k l with
  | Some data => Some data
  | None => Dict.get acc k
  end.
Proof.
  induction l as [|[p o] l IH]; intros acc k; [reflexivity|].
  rewrite collect_cons, IH. simpl.
  destruct (last_success k l); [reflexivity|].
  destruct o as [data|].
  - rewrite dict_get_set. destruct (String.eqb (key_of p) k); reflexivity.
  - destruct (String.eqb (key_of p) k); reflexivity.
Qed.

Lemma collect_wf l : forall acc, Dict.wf acc -> Dict.wf (collect acc l).
Proof.
  induction l as [|[p o] l IH]; intros acc Hwf; [exact Hwf|].
  rewrite collect_cons. apply IH. destruct o; [apply dict_wf_set|]; exact Hwf.
Qed.

(** A success under a key leaves a last success under it. *)
Lemma last_success_exists k l i p data :
  nth_error l i = Some (p, Some data) -> key_of p = k ->
  exists data', last_success k l = Some data'.
Proof.
  revert i. induction l as [|[q o] l IH]; intros i Hi Hk;
    [destruct i; discriminate|].
  simpl. destruct (last_success k l) as [d|] eqn:Hl; [eauto|].
  destruct i as [|i]; simpl in Hi.
  - injection Hi as -> ->. rewrite (proj2 (String.eqb_eq _ _) Hk). eauto.
  - destruct (IH i Hi Hk) as [d Hd]. discriminate.
Qed.

(** [last_success] by positions: it is a success under the key, and no
    success under the key comes after it. *)
Lemma last_success_position k l : forall data,
  last_success k l = Some data ->
  exists i p,
    nth_error l i = Some (p, Some data) /\ key_of p = k /\
    forall j p' data', i < j -> nth_error l j = Some (p', Some data') ->
                       key_of p' <> k.
Proof.
  induction l as [|[p o] l IH]; simpl; intros data Hlast; [discriminate|].
  destruct (last_success k l) as [d|] eqn:Hl.
  - injection Hlast as ->.
    destruct (IH data eq_refl) as (i & q & Hi & Hk & Hafter).
    exists (S i), q. repeat split; auto.
    intros [|j] p' d' Hlt Hj; [lia|]. simpl in Hj.
    apply (Hafter j p' d'); [lia|exact Hj].
  - destruct (String.eqb (key_of p) k) eqn:Hk; [|discriminate].
    subst o. apply String.eqb_eq in Hk.
    exists 0, p. repeat split; auto.
    intros [|j] p' d' Hlt Hj Hk'; [lia|]. simpl in Hj.
    destruct (last_success_exists k l j p' d' Hj Hk') as [d Hd]. congruence.
Qed.

Lemma last_success_of_position k l : forall i p data,
  nth_error l i = Some (p, Some data) -> key_of p = k ->
  (forall j p' data', i < j -> nth_error l j = Some (p', Some data') ->
                      key_of p' <> k) ->
  last_success k l = Some data.
Proof.
  induction l as [|[q o] l IH]; intros i p data Hi Hk Hafter;
    [destruct i; discriminate|].
  simpl. destruct i as [|i]; simpl in Hi.
  - injection Hi as -> ->.
    destruct (last_success k l) as [d|] eqn:Hl.
    + exfalso. apply last_success_position in Hl as (j & p' & Hj & Hk' & _).
      apply (Hafter (S j) p' d); [lia|exact Hj|exact Hk'].
    + now rewrite (proj2 (String.eqb_eq _ _) Hk).
  - rewrite (IH i p data Hi Hk); [reflexivity|].
    intros j p' d' Hlt Hj. apply (Hafter (S j) p' d'); [lia|exact Hj].
Qed.

(** The keys of the dictionary are the keys of the successes. *)
Lemma collect_keys l k :
  In k (Dict.keys (collect Dict.empty l)) <->
  exists i p data, nth_error l i = Some (p, Some data) /\ key_of p = k.
Proof.
  rewrite dict_get_in_keys. split.
  - intros [v Hv]. rewrite collect_get in Hv.
    destruct (last_success k l) as [data|] eqn:Hl; [|discriminate].
    apply last_success_position in Hl as (i & p & Hi & Hk & _). eauto.
  - intros (i & p & data & Hi & Hk).
    destruct (last_success_exists k l i p data Hi Hk) as [d Hd].
    exists d. now rewrite collect_get, Hd.
Qed.

Lemma successes_cons p o l :
  successes ((p, o) :: l) =
  (match o with Some _ => 1 | None => 0 end) + successes l.
Proof. unfold successes. simpl. destruct o; reflexivity. Qed.

Lemma collect_mem l : forall acc k,
  Dict.mem acc k = true -> Dict.mem (collect acc l) k = true.
Proof.
  intros acc k. unfold Dict.mem. rewrite collect_get.
  destruct (last_success k l); [reflexivity|auto].
Qed.

(** One entry at most per success. *)
Lemma collect_length l : forall acc,
  List.length (collect acc l) <= List.length acc + successes l.
Proof.
  induction l as [|[p o] l IH]; intros acc.
  - simpl. unfold successes. simpl. lia.
  - rewrite collect_cons, successes_cons.
    destruct o as [data|].
    + specialize (IH (Dict.set acc (key_of p) data)).
      rewrite dict_length_set in IH.
      destruct (Dict.mem acc (key_of p)); lia.
    + specialize (IH acc). lia.
Qed.

(** A success under a key that is already there adds no entry. *)
Lemma collect_length_present l : forall acc k i p data,
  Dict.mem acc k = true ->
  nth_error l i = Some (p, Some data) -> key_of p = k ->
  List.length (collect acc l) < List.length acc + successes l.
Proof.
  induction l as [|[q o] l IH]; intros acc k i p data Hmem Hi Hk;
    [destruct i; discriminate|].
  rewrite collect_cons, successes_cons.
  destruct i as [|i]; simpl in Hi.
  - injection Hi as -> ->.
    pose proof (collect_length l (Dict.set acc (key_of p) data)) as Hlen.
    rewrite dict_length_set in Hlen. subst k. rewrite Hmem in Hlen. lia.
  - destruct o as [d|].
    + assert (Hmem' : Dict.mem (Dict.set acc (key_of q) d) k = true).
      { unfold Dict.mem in *. rewrite dict_get_set.
        destruct (String.eqb (key_of q) k); [reflexivity|exact Hmem]. }
      pose proof (IH _ k i p data Hmem' Hi Hk) as Hlt.
      rewrite dict_length_set in Hlt.
      destruct (Dict.mem acc (key_of q)); lia.
    + pose proof (IH _ k i p data Hmem Hi Hk). lia.
Qed.

(** Two successes under one key: fewer entries than successes. *)
Lemma collect_length_repeated l : forall acc k i j p q di dj,
  i < j ->
  nth_error l i = Some (p, Some di) -> key_of p = k ->
  nth_error l j = Some (q, Some dj) -> key_of q = k ->
  List.length (collect acc l) < List.length acc + successes l.
Proof.
  induction l as [|[p0 o] l IH]; intros acc k i j p q di dj Hlt Hi Hp Hj Hq;
    [destruct i; discriminate|].
  rewrite collect_cons, successes_cons.
  destruct j as [|j]; [lia|]. simpl in Hj.
  destruct i as [|i]; simpl in Hi.
  - injection Hi as -> ->.
    assert (Hmem : Dict.mem (Dict.set acc (key_of p) di) k = true).
    { unfold Dict.mem. rewrite dict_get_set.
      now rewrite (proj2 (String.eqb_eq _ _) Hp). }
    pose proof (collect_length_present l _ k j q dj Hmem Hj Hq) as H.
    rewrite dict_length_set in H. destruct (Dict.mem acc (key_of p)); lia.
  - assert (Hij : i < j) by lia.
    destruct o as [d|].
    + pose proof (IH (Dict.set acc (key_of p0) d) k i j p q di dj Hij Hi Hp Hj Hq) as H.
      rewrite dict_length_set in H. destruct (Dict.mem acc (key_of p0)); lia.
    + pose proof (IH acc k i j p q di dj Hij Hi Hp Hj Hq). lia.
Qed.

End CollectFacts.

(** ** scan_pairs *)

Section ScanFacts.

Variable E : env.

Lemma filter_io_prints out : filter is_io (map Print out) = [].
Proof. induction out; simpl; auto. Qed.

(** One turn of the loop: a request, the record stored if there is one,
    a pause if the pair is not the last; an exception of the fetch ends
    the turn before the pause, and a length that [time.sleep] refuses ends
    it at the pause. *)
Lemma scan_step_spec total delay idx f t results st :
  let r := scan_step E total delay (idx, (f, t)) results st in
  self (snd r) = self st /\
  requests_made (snd r) = S (requests_made st) /\
  clock_reads (snd r) = clock_reads st /\
  match fetched E (requests_made st) f t with
  | Return o =>
      match pause_error E total delay idx with
      | None =>
          fst r = Return (match o with
                          | Some data => Dict.set results (pair_name f t) data
                          | None => results
                          end) /\
          filter is_io (trace (snd r)) =
          (filter is_io (trace st) ++
           Get (request_for E (self st) f t)
             :: pause_after total delay idx)%list
      | Some e =>
          fst r = Raise e /\
          filter is_io (trace (snd r)) =
          (filter is_io (trace st) ++ [Get (request_for E (self st) f t)])%list
      end
  | Raise e =>
      fst r = Raise e /\
      filter is_io (trace (snd r)) =
      (filter is_io (trace st) ++ [Get (request_for E (self st) f t)])%list
  end.
Proof.
  destruct (get_exchange_rate_run E f t (requests_made st)) as [out Hrun].
  unfold scan_step, bind, print_end, emit. cbv zeta.
  rewrite Hrun by reflexivity. cbv beta iota. simpl self. simpl requests_made.
  simpl clock_reads. simpl trace.
  unfold pause_after, pause_error.
  destruct (fetched E (requests_made st) f t) as [[data|]|e];
    unfold print, emit, ret, time_sleep, raise, emit; simpl;
    destruct (Nat.ltb idx total); simpl;
    try destruct (sleep_error E delay); simpl;
    repeat split;
    rewrite ?filter_app; simpl; rewrite ?filter_app; simpl;
    rewrite ?filter_io_prints, <- ?app_assoc; simpl; rewrite ?app_nil_r;
    reflexivity.
Qed.

Lemma fetches_length n pairs outs :
  fetches E n pairs outs -> List.length outs = List.length pairs.
Proof. induction 1; simpl; congruence. Qed.

Lemma fetches_nth n pairs outs :
  fetches E n pairs outs ->
  forall i f t, nth_error pairs i = Some (f, t) ->
  exists o, nth_error outs i = Some o /\ fetched E (n + i) f t = Return o.
Proof.
  induction 1 as [|n f0 t0 pairs o outs Hhead _ IH]; intros i f t Hi.
  - destruct i; discriminate.
  - destruct i as [|i]; simpl in Hi.
    + injection Hi as -> ->. exists o. rewrite Nat.add_0_r. auto.
    + destruct (IH i f t Hi) as [o' [Ho' Hf]]. exists o'.
      split; [exact Ho'|]. now rewrite Nat.add_succ_r.
Qed.

(** When every fetch returns there is a list of what they return. *)
Lemma fetches_exist pairs : forall n,
  (forall i f t, nth_error pairs i = Some (f, t) ->
                 returns (fetched E (n + i) f t) = true) ->
  exists outs, fetches E n pairs outs.
Proof.
  induction pairs as [|[f t] pairs IH]; intros n Hret.
  - exists []. constructor.
  - destruct (IH (S n)) as [outs Houts].
    { intros i f' t' Hi. specialize (Hret (S i) f' t' Hi).
      now rewrite Nat.add_succ_r in Hret. }
    specialize (Hret 0 f t eq_refl). rewrite Nat.add_0_r in Hret.
    destruct (fetched E n f t) as [o|e] eqn:Hf; [|discriminate].
    exists (o :: outs). now constructor.
Qed.

Lemma nth_error_combine {A B : Type} (l : list A) (l' : list B) i a b :
  nth_error (combine l l') i = Some (a, b) <->
  nth_error l i = Some a /\ nth_error l' i = Some b.
Proof.
  revert l' i. induction l as [|x l IH]; intros [|y l'] [|i]; simpl;
    try (split; [discriminate | intros [? ?]; discriminate]).
  - split; [intros [= -> ->]; auto | intros [[= ->] [= ->]]; auto].
  - apply IH.
Qed.

(** The loop, when it comes to its end. *)
Lemma scan_loop_returns total delay : forall pairs start acc st results st',
  for_loop (combine (seq start (List.length pairs)) pairs)
           (scan_step E total delay) acc st = (Return results, st') ->
  exists outs,
    fetches E (requests_made st) pairs outs /\
    results = collect acc (combine pairs outs) /\
    self st' = self st /\
    requests_made st' = requests_made st + List.length pairs /\
    clock_reads st' = clock_reads st /\
    filter is_io (trace st') =
    (filter is_io (trace st) ++
     scan_events E (self st) total delay
                 (combine (seq start (List.length pairs)) pairs))%list.
Proof.
  induction pairs as [|[f t] pairs IH]; intros start acc st results st' Hrun.
  - simpl in Hrun. injection Hrun as <- <-. exists [].
    repeat split; simpl; auto using app_nil_r; try constructor.
  - cbn [List.length seq combine for_loop] in Hrun. unfold bind in Hrun.
    pose proof (scan_step_spec total delay start f t acc st) as Hstep.
    cbv zeta in Hstep.
    destruct (scan_step E total delay (start, (f, t)) acc st)
      as [[results1|e] st1]; [|discriminate].
    cbn [fst snd] in Hstep. destruct Hstep as (Hself & Hreq & Hclock & Hfetch).
    destruct (fetched E (requests_made st) f t) as [o|e] eqn:Hf;
      [|destruct Hfetch; discriminate].
    destruct (pause_error E total delay start) as [e|];
      [destruct Hfetch; discriminate|].
    destruct Hfetch as [Hres Hio].
    injection Hres as ->.
    apply IH in Hrun as (outs & Houts & -> & Hself' & Hreq' & Hclock' & Hio').
    exists (o :: outs). repeat split.
    + constructor; [exact Hf|]. now rewrite <- Hreq.
    + congruence.
    + rewrite Hreq', Hreq. simpl. lia.
    + congruence.
    + rewrite Hio', Hio, Hself. simpl. now rewrite <- app_assoc.
Qed.

(** A loop that comes to its end has met no refusal of [time.sleep]. *)
Lemma scan_loop_pauses total delay : forall pairs start acc st results st',
  for_loop (combine (seq start (List.length pairs)) pairs)
           (scan_step E total delay) acc st = (Return results, st') ->
  forall i, i < List.length pairs ->
            pause_error E total delay (start + i) = None.
Proof.
  induction pairs as [|[f t] pairs IH]; intros start acc st results st' Hrun i Hi.
  - simpl in Hi. lia.
  - cbn [List.length seq combine for_loop] in Hrun. unfold bind in Hrun.
    pose proof (scan_step_spec total delay start f t acc st) as Hstep.
    cbv zeta in Hstep.
    destruct (scan_step E total delay (start, (f, t)) acc st)
      as [[results1|e] st1]; [|discriminate].
    cbn [fst snd] in Hstep. destruct Hstep as (_ & _ & _ & Hfetch).
    destruct (fetched E (requests_made st) f t) as [o|e];
      [|destruct Hfetch; discriminate].
    destruct (pause_error E total delay start) as [e|] eqn:Hp;
      [destruct Hfetch; discriminate|].
    destruct i as [|i].
    + now rewrite Nat.add_0_r.
    + replace (start + S i) with (S start + i) by lia.
      apply (IH _ _ _ _ _ Hrun). simpl in Hi. lia.
Qed.

(** The loop comes to its end when every fetch returns and [time.sleep]
    takes the pauses. *)
Lemma scan_loop_total total delay : forall pairs outs start acc st,
  fetches E (requests_made st) pairs outs ->
  (forall i, i < List.length pairs ->
             pause_error E total delay (start + i) = None) ->
  exists st',
    for_loop (combine (seq start (List.length pairs)) pairs)
             (scan_step E total delay) acc st =
    (Return (collect acc (combine pairs outs)), st').
Proof.
  induction pairs as [|[f t] pairs IH]; intros outs start acc st Hf Hp.
  - inversion Hf; subst. exists st. reflexivity.
  - inversion Hf as [|? ? ? ? o outs' Hhead Hrest]; subst.
    cbn [List.length seq combine for_loop]. unfold bind.
    pose proof (scan_step_spec total delay start f t acc st) as Hstep.
    cbv zeta in Hstep. rewrite Hhead in Hstep.
    pose proof (Hp 0 (Nat.lt_0_succ _)) as Hp0. rewrite Nat.add_0_r in Hp0.
    rewrite Hp0 in Hstep.
    destruct (scan_step E total delay (start, (f, t)) acc st) as [r1 st1].
    cbn [fst snd] in Hstep. destruct Hstep as (_ & Hreq & _ & -> & _).
    rewrite <- Hreq in Hrest.
    match goal with
    | |- context [for_loop _ _ ?acc1 st1] =>
        destruct (IH outs' (S start) acc1 st1 Hrest) as [st' Hrun]
    end.
    { intros i Hi. replace (S start + i) with (start + S i) by lia.
      apply Hp. simpl. lia. }
    exists st'. rewrite Hrun. reflexivity.
Qed.

(** With the indices from 1 and the total the number of pairs, the pauses
    fall between consecutive requests. *)
Lemma scan_events_schedule scanner delay : forall pairs k,
  scan_events E scanner (k + List.length pairs) delay
              (combine (seq (S k) (List.length pairs)) pairs) =
  schedule delay (map (fun p => request_for E scanner (fst p) (snd p)) pairs).
Proof.
  induction pairs as [|[f t] pairs IH]; intros k; [reflexivity|].
  simpl List.length. simpl seq. simpl combine. simpl map.
  unfold scan_events in *. simpl flat_map.
  replace (k + S (List.length pairs)) with (S k + List.length pairs) by lia.
  rewrite IH. unfold pause_after.
  destruct pairs as [|q pairs]; simpl List.length.
  - replace (Nat.ltb (S k) (S k + 0)) with false
      by (symmetry; apply Nat.ltb_ge; lia).
    reflexivity.
  - replace (Nat.ltb (S k) (S k + S (List.length pairs))) with true
      by (symmetry; apply Nat.ltb_lt; lia).
    reflexivity.
Qed.

Lemma scan_pairs_unfold pairs delay st :
  scan_pairs E pairs delay st =
  for_loop (enumerate pairs 1)
           (scan_step E (List.length pairs) delay) Dict.empty
           (log st [ Print ((PyStr.nl ++ PyStr.rep "=" 70) ++ PyStr.nl);
                     Print (("🔍 FOREX SCANNER - Starting scan of "
                               ++ PyStr.of_nat (List.length pairs)
                               ++ " currency pairs") ++ PyStr.nl);
                     Print ((PyStr.rep "=" 70 ++ PyStr.nl) ++ PyStr.nl) ]).
Proof.
  unfold scan_pairs, bind, print, emit, log. cbv zeta. simpl trace.
  rewrite <- !app_assoc. reflexivity.
Qed.

(** A scan that returns: every fetch returned, the result is what the
    successes leave, and requests and pauses alternate. *)
Lemma scan_pairs_returns pairs delay st results st' :
  scan_pairs E pairs delay st = (Return results, st') ->
  exists outs,
    fetches E (requests_made st) pairs outs /\
    results = collect Dict.empty (combine pairs outs) /\
    self st' = self st /\
    requests_made st' = requests_made st + List.length pairs /\
    clock_reads st' = clock_reads st /\
    filter is_io (trace st') =
    (filter is_io (trace st) ++
     schedule delay
       (map (fun p => request_for E (self st) (fst p) (snd p)) pairs))%list.
Proof.
  rewrite scan_pairs_unfold. unfold enumerate. intros Hrun.
  apply scan_loop_returns in Hrun
    as (outs & Houts & Hres & Hself & Hreq & Hclock & Hio).
  exists outs. repeat split; auto.
  rewrite Hio. simpl self.
  pose proof (scan_events_schedule (self st) delay pairs 0) as Hsched.
  simpl in Hsched. rewrite Hsched.
  unfold log. simpl trace. rewrite filter_app. simpl. now rewrite app_nil_r.
Qed.

(** With the indices from 1, the turns that pause are there when the list
    has two pairs or more. *)
Lemma pause_error_scan (pairs : list (string * string)) delay :
  (2 <= List.length pairs -> sleep_error E delay = None) <->
  (forall i, i < List.length pairs ->
             pause_error E (List.length pairs) delay (1 + i) = None).
Proof.
  unfold pause_error. split.
  - intros Hsleep i Hi.
    destruct (Nat.ltb (1 + i) (List.length pairs)) eqn:Hlt; [|reflexivity].
    apply Nat.ltb_lt in Hlt. apply Hsleep. lia.
  - intros Hp Hlen. specialize (Hp 0).
    replace (Nat.ltb (1 + 0) (List.length pairs)) with true in Hp
      by (symmetry; apply Nat.ltb_lt; lia).
    apply Hp. lia.
Qed.

(** A scan that returns has met no refusal of [time.sleep]. *)
Lemma scan_pairs_pauses pairs delay st results st' :
  scan_pairs E pairs delay st = (Return results, st') ->
  2 <= List.length pairs -> sleep_error E delay = None.
Proof.
  rewrite scan_pairs_unfold. unfold enumerate. intros Hrun.
  apply pause_error_scan. exact (scan_loop_pauses _ _ _ _ _ _ _ _ Hrun).
Qed.

(** A scan returns when every fetch does and [time.sleep] takes the
    pauses. *)
Lemma scan_pairs_total pairs delay st :
  (forall i f t, nth_error pairs i = Some (f, t) ->
                 returns (fetched E (requests_made st + i) f t) = true) ->
  (2 <= List.length pairs -> sleep_error E delay = None) ->
  exists results st', scan_pairs E pairs delay st = (Return results, st').
Proof.
  intros Hret Hsleep. destruct (fetches_exist pairs _ Hret) as [outs Houts].
  rewrite scan_pairs_unfold. unfold enumerate.
  edestruct (scan_loop_total (List.length pairs) delay pairs outs 1 Dict.empty)
    as [st' Hrun]; [| |eauto].
  - exact Houts.
  - apply pause_error_scan. exact Hsleep.
Qed.

End ScanFacts.

(** ** The dictionary a scan returns *)

Section ScanResults.

Variable E : env.

Lemma successes_fetches n0 : forall pairs outs k,
  fetches E (n0 + k) pairs outs ->
  List.length (filter (fun x : nat * (string * string) =>
                         succeeded E n0 (fst x) (snd x))
                      (combine (seq k (List.length pairs)) pairs)) =
  successes (combine pairs outs).
Proof.
  induction pairs as [|[f t] pairs IH]; intros outs k Hf.
  - inversion Hf; subst. reflexivity.
  - inversion Hf as [|? ? ? ? o outs' Hhead Hrest]; subst.
    cbn [List.length seq combine filter]. rewrite successes_cons.
    unfold succeeded at 1. cbn [fst snd]. rewrite Hhead.
    replace (S (n0 + k)) with (n0 + S k) in Hrest by lia.
    specialize (IH outs' (S k) Hrest).
    destruct o; cbn [List.length]; rewrite IH; reflexivity.
Qed.

Lemma successful_fetches_successes n pairs outs :
  fetches E n pairs outs ->
  successful_fetches E n pairs = successes (combine pairs outs).
Proof.
  intros Hf. unfold successful_fetches. apply successes_fetches.
  now rewrite Nat.add_0_r.
Qed.

(** A fetch that gave a record is a success of the log, and back. *)
Lemma fetches_log n pairs outs :
  fetches E n pairs outs ->
  forall i f t data,
    nth_error (combine pairs outs) i = Some ((f, t), Some data) <->
    nth_error pairs i = Some (f, t) /\
    fetched E (n + i) f t = Return (Some data).
Proof.
  intros Hf i f t data. rewrite nth_error_combine. split.
  - intros [Hp Ho]. split; [exact Hp|].
    destruct (fetches_nth E n pairs outs Hf i f t Hp) as [o [Ho' Hfetch]].
    congruence.
  - intros [Hp Hfetch]. split; [exact Hp|].
    destruct (fetches_nth E n pairs outs Hf i f t Hp) as [o [Ho' Hfetch']].
    congruence.
Qed.

(** The keys of the result are the names of the pairs whose fetch gave a
    record. *)
Lemma scan_keys pairs delay st results st' :
  scan_pairs E pairs delay st = (Return results, st') ->
  forall k,
    In k (Dict.keys results) <->
    exists i f t data,
      nth_error pairs i = Some (f, t) /\ pair_name f t = k /\
      fetched E (requests_made st + i) f t = Return (Some data).
Proof.
  intros Hrun k.
  apply scan_pairs_returns in Hrun as (outs & Houts & -> & _).
  rewrite collect_keys. split.
  - intros (i & [f t] & data & Hi & Hk).
    apply (fetches_log _ _ _ Houts) in Hi as [Hp Hf]. exists i, f, t, data. auto.
  - intros (i & f & t & data & Hp & Hk & Hf).
    exists i, (f, t), data. split; [|exact Hk].
    apply (fetches_log _ _ _ Houts). auto.
Qed.

End ScanResults.

(** C3, as the code has it.  In the dictionary a scan returns, every entry
    is the record a fetch of a pair of that name returned; a key is there
    exactly when some fetch under that name gave a record; so the name of a
    pair whose fetch failed is absent unless another fetch under the same
    name succeeded, be it of the same pair or of another pair whose codes
    spell the same name. *)
Theorem scan_keys_are_successes (E : env) (pairs : list (string * string))
        (delay : float) (st : state) (results : Dict.t RateRecord)
        (st' : state) :
  scan_pairs E pairs delay st = (Return results, st') ->
  (forall k data,
      Dict.get results k = Some data ->
      exists i f t,
        nth_error pairs i = Some (f, t) /\ pair_name f t = k /\
        fetched E (requests_made st + i) f t = Return (Some data)) /\
  (forall k,
      In k (Dict.keys results) <->
      exists i f t data,
        nth_error pairs i = Some (f, t) /\ pair_name f t = k /\
        fetched E (requests_made st + i) f t = Return (Some data)) /\
  (forall i f t,
      nth_error pairs i = Some (f, t) ->
      fetched E (requests_made st + i) f t = Return None ->
      (forall j f' t' data,
          j <> i -> nth_error pairs j = Some (f', t') ->
          pair_name f' t' = pair_name f t ->
          fetched E (requests_made st + j) f' t' <> Return (Some data)) ->
      ~ In (pair_name f t) (Dict.keys results)).
Proof.
  intros Hrun. pose proof (scan_keys E _ _ _ _ _ Hrun) as Hkeys.
  split; [|split].
  - intros k data Hget.
    apply scan_pairs_returns in Hrun as (outs & Houts & -> & _).
    rewrite collect_get in Hget. simpl in Hget.
    destruct (last_success k (combine pairs outs)) as [d|] eqn:Hl;
      [|discriminate].
    injection Hget as ->.
    apply last_success_position in Hl as (i & [f t] & Hi & Hk & _).
    apply (fetches_log _ _ _ _ Houts) in Hi as [Hp Hf].
    exists i, f, t. auto.
  - exact Hkeys.
  - intros i f t Hp Hfail Hothers Hin.
    apply Hkeys in Hin as (j & f' & t' & data & Hp' & Hk & Hf).
    destruct (Nat.eq_dec j i) as [->|Hne].
    + rewrite Hp in Hp'. injection Hp' as <- <-. congruence.
    + exact (Hothers j f' t' data Hne Hp' Hk Hf).
Qed.

(** A scan of two pairs, the first fetch giving a record and the second a
    note: the second name is not in the result. *)
Lemma scan_keys_are_successes_witness :
  scan_pairs record_then_note_world [("USD", "EUR"); ("USD", "GBP")] 12
             (initial_state "demo")
  = (Return [("USD/EUR", Sample.record "USD" "EUR" 0.92 0.91 0.93)],
     snd (scan_pairs record_then_note_world [("USD", "EUR"); ("USD", "GBP")]
                     12 (initial_state "demo"))) /\
  ~ In (pair_name "USD" "GBP")
       (Dict.keys [("USD/EUR", Sample.record "USD" "EUR" 0.92 0.91 0.93)]).
Proof.
  assert (Hrun :
    scan_pairs record_then_note_world [("USD", "EUR"); ("USD", "GBP")] 12
               (initial_state "demo")
    = (Return [("USD/EUR", Sample.record "USD" "EUR" 0.92 0.91 0.93)],
       snd (scan_pairs record_then_note_world
                       [("USD", "EUR"); ("USD", "GBP")]
                       12 (initial_state "demo"))))
    by (vm_compute; reflexivity).
  split; [exact Hrun|].
  destruct (scan_keys_are_successes _ _ _ _ _ _ Hrun) as (_ & _ & Habsent).
  apply (Habsent 1 "USD" "GBP").
  - reflexivity.
  - vm_compute. reflexivity.
  - intros [|[|j]] f' t' data Hne Hp Hk; [|congruence|destruct j; discriminate].
    simpl in Hp. injection Hp as <- <-. vm_compute in Hk. discriminate.
Defined.

(** C3 as stated fails: the fetch of the pair (A, B/C) fails and the pair
    is fetched once, yet its name A/B/C is in the result, stored by the
    fetch of the pair (A/B, C). *)
Lemma failed_pair_name_present :
  nth_error colliding_pairs 0 = Some ("A", "B/C") /\
  nth_error colliding_pairs 1 = Some ("A/B", "C") /\
  List.length colliding_pairs = 2 /\
  ("A/B", "C") <> ("A", "B/C") /\
  fetched second_only_world 0 "A" "B/C" = Return None /\
  fst (scan_pairs second_only_world colliding_pairs 12 (initial_state "demo"))
  = Return [("A/B/C", Sample.record "A/B" "C" 1.5 1.4 1.6)] /\
  In (pair_name "A" "B/C")
     (Dict.keys [("A/B/C", Sample.record "A/B" "C" 1.5 1.4 1.6)]).
Proof.
  split; [reflexivity|]. split; [reflexivity|]. split; [reflexivity|].
  split; [discriminate|].
  split; [vm_compute; reflexivity|].
  split; [vm_compute; reflexivity|].
  left. reflexivity.
Qed.

(** A name spells one pair only when the first codes have no slash. *)
Lemma pair_name_inj f t f' t' :
  slash_free f -> slash_free f' ->
  pair_name f t = pair_name f' t' -> f = f' /\ t = t'.
Proof.
  unfold slash_free, pair_name. revert f'.
  induction f as [|c f IH]; intros [|c' f'] Hf Hf' Heq; simpl in *.
  - injection Heq as ->. auto.
  - injection Heq as Hc _. subst c'. simpl in Hf'. discriminate.
  - injection Heq as Hc _. subst c. simpl in Hf. discriminate.
  - injection Heq as Hc Heq. subst c'.
    apply orb_false_iff in Hf as [_ Hf]. apply orb_false_iff in Hf' as [_ Hf'].
    destruct (IH f' Hf Hf' Heq) as [-> ->]. auto.
Qed.

(** After two successes of one pair, the entry under its name is the last
    success under that name, at or after the second one. *)
Lemma scan_entry_is_last_success (E : env) (pairs : list (string * string))
      (outs : list (option RateRecord)) (n j : nat) (f t : string)
      (dj : RateRecord) :
  fetches E n pairs outs ->
  nth_error pairs j = Some (f, t) ->
  fetched E (n + j) f t = Return (Some dj) ->
  exists m f' t' data,
    j <= m /\
    nth_error pairs m = Some (f', t') /\
    pair_name f' t' = pair_name f t /\
    fetched E (n + m) f' t' = Return (Some data) /\
    Dict.get (collect Dict.empty (combine pairs outs)) (pair_name f t)
    = Some data /\
    forall m' f'' t'' data',
      m < m' -> nth_error pairs m' = Some (f'', t'') ->
      pair_name f'' t'' = pair_name f t ->
      fetched E (n + m') f'' t'' <> Return (Some data').
Proof.
  intros Houts Hj Hfj.
  set (l := combine pairs outs).
  set (k := pair_name f t).
  assert (Hlj : nth_error l j = Some ((f, t), Some dj))
    by (apply (fetches_log E _ _ _ Houts); auto).
  destruct (last_success_exists k l j (f, t) dj Hlj eq_refl) as [data Hlast].
  assert (Hget : Dict.get (collect Dict.empty l) k = Some data)
    by (now rewrite collect_get, Hlast).
  apply last_success_position in Hlast as (m & [f' t'] & Hm & Hk & Hafter).
  exists m, f', t', data.
  apply (fetches_log E _ _ _ Houts) in Hm as [Hpm Hfm].
  repeat split; auto.
  - destruct (le_lt_dec j m) as [Hle|Hlt]; [exact Hle|].
    exfalso. exact (Hafter j (f, t) dj Hlt Hlj eq_refl).
  - intros m' f'' t'' data' Hlt Hp Hk' Hf.
    apply (Hafter m' (f'', t'') data' Hlt); [|exact Hk'].
    apply (fetches_log E _ _ _ Houts). auto.
Qed.

(** C10, as the code has it.  When a pair occurs twice in the list and both
    fetches give a record, the result has one entry under the pair's name;
    the entry holds the record of the last fetch that succeeded under that
    name, a fetch at or after the second occurrence; and the result has
    fewer entries than there were successful fetches. *)
Theorem scan_keeps_last_success (E : env) (pairs : list (string * string))
        (delay : float) (st : state) (results : Dict.t RateRecord)
        (st' : state) (i j : nat) (f t : string) (di dj : RateRecord) :
  scan_pairs E pairs delay st = (Return results, st') ->
  i < j ->
  nth_error pairs i = Some (f, t) ->
  nth_error pairs j = Some (f, t) ->
  fetched E (requests_made st + i) f t = Return (Some di) ->
  fetched E (requests_made st + j) f t = Return (Some dj) ->
  count_occ string_dec (Dict.keys results) (pair_name f t) = 1 /\
  (exists m f' t' data,
      j <= m /\
      nth_error pairs m = Some (f', t') /\
      pair_name f' t' = pair_name f t /\
      fetched E (requests_made st + m) f' t' = Return (Some data) /\
      Dict.get results (pair_name f t) = Some data /\
      forall m' f'' t'' data',
        m < m' -> nth_error pairs m' = Some (f'', t'') ->
        pair_name f'' t'' = pair_name f t ->
        fetched E (requests_made st + m') f'' t'' <> Return (Some data')) /\
  List.length results < successful_fetches E (requests_made st) pairs.
Proof.
  intros Hrun Hij Hi Hj Hfi Hfj.
  apply scan_pairs_returns in Hrun as (outs & Houts & -> & _).
  pose proof (scan_entry_is_last_success E pairs outs _ j f t dj Houts Hj Hfj)
    as Hentry.
  split; [|split].
  - destruct Hentry as (m & f' & t' & data & _ & _ & _ & _ & Hget & _).
    apply (dict_wf_one_entry _ _ data); [|exact Hget].
    apply collect_wf. constructor.
  - exact Hentry.
  - rewrite (successful_fetches_successes E _ _ _ Houts).
    apply (collect_length_repeated (combine pairs outs) Dict.empty
             (pair_name f t) i j (f, t) (f, t) di dj Hij);
      try reflexivity; apply (fetches_log E _ _ _ Houts); auto.
Qed.

(** The same pair fetched twice with two records: the second one stays. *)
Lemma scan_keeps_last_success_witness :
  fst (scan_pairs two_quotes_world [("USD", "EUR"); ("USD", "EUR")] 12
                  (initial_state "demo"))
  = Return [("USD/EUR", Sample.record "USD" "EUR" 0.95 0.94 0.96)] /\
  count_occ string_dec
            (Dict.keys [("USD/EUR", Sample.record "USD" "EUR" 0.95 0.94 0.96)])
            (pair_name "USD" "EUR") = 1 /\
  List.length [("USD/EUR", Sample.record "USD" "EUR" 0.95 0.94 0.96)]
  < successful_fetches two_quotes_world 0 [("USD", "EUR"); ("USD", "EUR")].
Proof.
  assert (Hrun :
    scan_pairs two_quotes_world [("USD", "EUR"); ("USD", "EUR")] 12
               (initial_state "demo")
    = (Return [("USD/EUR", Sample.record "USD" "EUR" 0.95 0.94 0.96)],
       snd (scan_pairs two_quotes_world [("USD", "EUR"); ("USD", "EUR")] 12
                       (initial_state "demo"))))
    by (vm_compute; reflexivity).
  split; [now rewrite Hrun|].
  assert (H01 : 0 < 1) by lia.
  destruct (scan_keeps_last_success two_quotes_world _ _ _ _ _ 0 1 "USD" "EUR"
              (Sample.record "USD" "EUR" 0.92 0.91 0.93)
              (Sample.record "USD" "EUR" 0.95 0.94 0.96)
              Hrun H01 eq_refl eq_refl)
    as (Hone & _ & Hfewer).
  - vm_compute. reflexivity.
  - vm_compute. reflexivity.
  - split; [exact Hone | exact Hfewer].
Defined.

(** C10 as stated fails: the pair (A, B/C) is fetched twice with success,
    and the entry under its name holds the record of the pair (A/B, C),
    fetched after it, not the record of the last success of (A, B/C). *)
Lemma last_success_of_another_pair :
  repeated_then_colliding = [("A", "B/C"); ("A", "B/C"); ("A/B", "C")] /\
  fetched three_quotes_world 0 "A" "B/C"
  = Return (Some (Sample.record "A" "B/C" 1 1 1)) /\
  fetched three_quotes_world 1 "A" "B/C"
  = Return (Some (Sample.record "A" "B/C" 2 2 2)) /\
  fst (scan_pairs three_quotes_world repeated_then_colliding 12
                  (initial_state "demo"))
  = Return [("A/B/C", Sample.record "A/B" "C" 3 3 3)] /\
  Dict.get [("A/B/C", Sample.record "A/B" "C" 3 3 3)] (pair_name "A" "B/C")
  <> Some (Sample.record "A" "B/C" 2 2 2).
Proof.
  split; [reflexivity|].
  split; [vm_compute; reflexivity|].
  split; [vm_compute; reflexivity|].
  split; [vm_compute; reflexivity|].
  intros H. vm_compute in H. discriminate.
Qed.

(** Where no first code has a slash, the entry is the record of the last
    success of the pair itself. *)
Lemma scan_keeps_last_success_of_pair (E : env)
      (pairs : list (string * string)) (delay : float) (st : state)
      (results : Dict.t RateRecord) (st' : state) (i j : nat)
      (f t : string) (di dj : RateRecord) :
  (forall p, In p pairs -> slash_free (fst p)) ->
  scan_pairs E pairs delay st = (Return results, st') ->
  i < j ->
  nth_error pairs i = Some (f, t) ->
  nth_error pairs j = Some (f, t) ->
  fetched E (requests_made st + i) f t = Return (Some di) ->
  fetched E (requests_made st + j) f t = Return (Some dj) ->
  exists m data,
    j <= m /\ nth_error pairs m = Some (f, t) /\
    fetched E (requests_made st + m) f t = Return (Some data) /\
    Dict.get results (pair_name f t) = Some data /\
    forall m' data',
      m < m' -> nth_error pairs m' = Some (f, t) ->
      fetched E (requests_made st + m') f t <> Return (Some data').
Proof.
  intros Hfree Hrun Hij Hi Hj Hfi Hfj.
  apply scan_pairs_returns in Hrun as (outs & Houts & -> & _).
  destruct (scan_entry_is_last_success E pairs outs _ j f t dj Houts Hj Hfj)
    as (m & f' & t' & data & Hle & Hm & Hk & Hfm & Hget & Hafter).
  assert (Hsame : f' = f /\ t' = t).
  { apply pair_name_inj; [| |exact Hk].
    - exact (Hfree (f', t') (nth_error_In _ _ Hm)).
    - exact (Hfree (f, t) (nth_error_In _ _ Hi)). }
  destruct Hsame as [-> ->].
  exists m, data. repeat split; auto.
Qed.

(** ** A fetch that raises *)

(** C4 at a response whose exchange rate is [null]: [float(None)] raises
    [TypeError], which no [except] clause of [get_exchange_rate] catches;
    the scan of two pairs ends there, after one request and no pause, and
    returns nothing. *)
Theorem scan_aborts_on_null_rate :
  let run := scan_pairs null_rate_world [("USD", "EUR"); ("USD", "GBP")] 12
                        (initial_state "demo") in
  fst run = Raise TypeError /\
  gets (trace (snd run)) = [Get (request_for null_rate_world (init "demo") "USD" "EUR")] /\
  sleeps (trace (snd run)) = [].
Proof. vm_compute. repeat split. Qed.

(** The requests and the pauses of a schedule. *)
Lemma schedule_counts delay : forall reqs,
  List.length (gets (schedule delay reqs)) = List.length reqs /\
  List.length (sleeps (schedule delay reqs)) = List.length reqs - 1.
Proof.
  induction reqs as [|r [|r' reqs] IH]; [auto|auto|].
  destruct IH as [IHg IHs].
  change (schedule delay (r :: r' :: reqs))
    with (Get r :: Sleep delay :: schedule delay (r' :: reqs)).
  unfold gets, sleeps in *. cbn [filter is_get is_sleep List.length].
  rewrite IHg, IHs. cbn [List.length]. split; lia.
Qed.

Lemma gets_of_io tr : gets (filter is_io tr) = gets tr.
Proof.
  unfold gets. induction tr as [|[r|d|s|] tr IH]; simpl; congruence.
Qed.

Lemma sleeps_of_io tr : sleeps (filter is_io tr) = sleeps tr.
Proof.
  unfold sleeps. induction tr as [|[r|d|s|] tr IH]; simpl; congruence.
Qed.

(** X12.  When the scan returns, requests and pauses alternate: one
    request per pair, in the order of the list, and a pause of [delay]
    between two consecutive requests, none before the first and none after
    the last; that is as many requests as pairs and one pause less. *)
Lemma scan_requests_and_pauses (E : env) pairs delay st results st' :
  scan_pairs E pairs delay st = (Return results, st') ->
  filter is_io (trace st') =
  (filter is_io (trace st) ++
   schedule delay
     (map (fun p => request_for E (self st) (fst p) (snd p)) pairs))%list /\
  List.length (gets (trace st')) =
  List.length (gets (trace st)) + List.length pairs /\
  List.length (sleeps (trace st')) =
  List.length (sleeps (trace st)) + (List.length pairs - 1).
Proof.
  intros Hrun.
  apply scan_pairs_returns in Hrun as (outs & _ & _ & _ & _ & _ & Hio).
  split; [exact Hio|].
  destruct (schedule_counts delay
              (map (fun p => request_for E (self st) (fst p) (snd p)) pairs))
    as [Hg Hs].
  rewrite length_map in Hg, Hs.
  rewrite <- (gets_of_io (trace st')), <- (sleeps_of_io (trace st')), Hio.
  unfold gets, sleeps in *. rewrite !filter_app, !length_app.
  fold (gets (filter is_io (trace st))). fold (sleeps (filter is_io (trace st))).
  rewrite gets_of_io, sleeps_of_io. unfold gets, sleeps. rewrite Hg, Hs.
  split; reflexivity.
Qed.

(** What the handlers let through: the exception as it came, nothing
    printed, and of none of the classes they name. *)
Lemma get_exchange_rate_except_raise e0 s e s1 :
  get_exchange_rate_except e0 s = (Raise e, s1) ->
  e = e0 /\ s1 = s /\
  is_request_exception e = false /\ is_key_or_value_error e = false.
Proof.
  unfold get_exchange_rate_except.
  destruct e0; cbn; intros H;
    first [discriminate H | injection H as <- <-; auto].
Qed.

(** The exceptions that leave [get_exchange_rate] are of none of the
    classes its handlers name. *)
Lemma fetch_raises_uncaught (E : env) f t st e :
  fst (get_exchange_rate E f t st) = Raise e ->
  is_request_exception e = false /\ is_key_or_value_error e = false.
Proof.
  rewrite get_exchange_rate_unfold. unfold try_except.
  match goal with
  | |- context [match ?c with _ => _ end] => destruct c as [[a|e0] st1]
  end; [discriminate|].
  destruct (get_exchange_rate_except e0 st1) as [o s1] eqn:Hh.
  cbn [fst]. intros ->.
  apply get_exchange_rate_except_raise in Hh as (_ & _ & H1 & H2). auto.
Qed.

(** ** The scanner object *)

Section SelfFacts.

Variable E : env.

Lemma keeps_self_ret {A : Type} (a : A) : keeps_self (ret a).
Proof. intros st. reflexivity. Qed.

Lemma keeps_self_raise {A : Type} (e : exn) : keeps_self (@raise A e).
Proof. intros st. reflexivity. Qed.

Lemma keeps_self_lift {A : Type} (o : outcome A) : keeps_self (lift o).
Proof. intros st. reflexivity. Qed.

Lemma keeps_self_emit ev : keeps_self (emit ev).
Proof. intros st. reflexivity. Qed.

Lemma keeps_self_get_self : keeps_self get_self.
Proof. intros st. reflexivity. Qed.

Lemma keeps_self_request u ps tmo : keeps_self (requests_get_json E u ps tmo).
Proof. intros st. reflexivity. Qed.

Lemma keeps_self_now : keeps_self (datetime_now E).
Proof. intros st. reflexivity. Qed.

Lemma keeps_self_bind {A B : Type} (c : M A) (k : A -> M B) :
  keeps_self c -> (forall a, keeps_self (k a)) -> keeps_self (bind c k).
Proof.
  intros Hc Hk st. unfold bind. specialize (Hc st).
  destruct (c st) as [[a|e] st1]; simpl in *; [|exact Hc].
  now rewrite Hk.
Qed.

Lemma keeps_self_try {A : Type} (body : M A) (handler : exn -> M A) :
  keeps_self body -> (forall e, keeps_self (handler e)) ->
  keeps_self (try_except body handler).
Proof.
  intros Hc Hh st. unfold try_except. specialize (Hc st).
  destruct (body st) as [[a|e] st1]; simpl in *; [exact Hc|].
  now rewrite Hh.
Qed.

Lemma keeps_self_for {A S : Type} (l : list A) (body : A -> S -> M S) :
  (forall x acc, keeps_self (body x acc)) ->
  forall acc, keeps_self (for_loop l body acc).
Proof.
  intros Hbody. induction l as [|x l IH]; intros acc; simpl.
  - apply keeps_self_ret.
  - apply keeps_self_bind; auto.
Qed.

End SelfFacts.

Create HintDb keeps.

(** Goes through a statement made of the primitives above and of the
    methods already dealt with. *)
Ltac keeps_self_tac :=
  repeat first
    [ solve [auto with keeps nocore]
    | apply keeps_self_ret | apply keeps_self_raise | apply keeps_self_lift
    | apply keeps_self_emit | apply keeps_self_get_self
    | apply keeps_self_request | apply keeps_self_now
    | apply keeps_self_try; [|intros ?]
    | apply keeps_self_bind; [|intros ?]
    | apply keeps_self_for; intros ? ?
    | match goal with
      | |- keeps_self (if ?b then _ else _) => destruct b
      | |- keeps_self (match ?x with _ => _ end) => destruct x
      | |- keeps_self (let _ := _ in _) => cbv zeta
      end ].

Lemma get_exchange_rate_except_keeps_self e :
  keeps_self (get_exchange_rate_except e).
Proof. unfold get_exchange_rate_except, print. keeps_self_tac. Qed.

#[export] Hint Resolve get_exchange_rate_except_keeps_self : keeps.

Lemma get_exchange_rate_keeps_self (E : env) f t :
  keeps_self (get_exchange_rate E f t).
Proof.
  unfold get_exchange_rate, get_exchange_rate_try, print, print_end.
  keeps_self_tac.
Qed.

#[export] Hint Resolve get_exchange_rate_keeps_self : keeps.

Lemma scan_pairs_keeps_self (E : env) pairs delay :
  keeps_self (scan_pairs E pairs delay).
Proof.
  unfold scan_pairs, print. keeps_self_tac.
  unfold scan_step, print, print_end, time_sleep.
  keeps_self_tac.
Qed.

Lemma display_results_keeps_self (E : env) results :
  keeps_self (display_results E results).
Proof.
  unfold display_results, display_row, print. keeps_self_tac.
Qed.

Lemma calculate_arbitrage_keeps_self results :
  keeps_self (calculate_arbitrage results).
Proof.
  unfold calculate_arbitrage, show_opportunity, print. keeps_self_tac.
Qed.

Lemma run_call_keeps_self (E : env) c : keeps_self (run_call E c).
Proof.
  destruct c; simpl.
  - apply keeps_self_bind; [apply get_exchange_rate_keeps_self|].
    intros; apply keeps_self_ret.
  - apply keeps_self_bind; [apply scan_pairs_keeps_self|].
    intros; apply keeps_self_ret.
  - apply display_results_keeps_self.
  - apply calculate_arbitrage_keeps_self.
Qed.

Lemma run_calls_self (E : env) cs : forall st,
  self (run_calls E cs st) = self st.
Proof.
  induction cs as [|c cs IH]; intros st; [reflexivity|].
  change (run_calls E (c :: cs) st)
    with (run_calls E cs (snd (run_call E c st))).
  rewrite IH. apply run_call_keeps_self.
Qed.

(** C9.  From [ForexScanner(key)] on, after any calls of the four methods,
    with whatever arguments and whether they return or raise, the cache is
    the empty dictionary of [__init__] and the key is the one given; and a
    fetch sends its request and gives the same outcome whatever the cache
    holds. *)
Theorem cache_is_never_used (E : env) (key : string) (cs : list call) :
  cache (self (run_calls E cs (initial_state key))) = Dict.empty /\
  api_key (self (run_calls E cs (initial_state key))) = key /\
  forall st f t c,
    fst (get_exchange_rate E f t (with_cache st c)) =
    fst (get_exchange_rate E f t st) /\
    requests_made (snd (get_exchange_rate E f t (with_cache st c))) =
    S (requests_made st) /\
    cache (self (snd (get_exchange_rate E f t (with_cache st c)))) = c.
Proof.
  rewrite run_calls_self. split; [reflexivity|]. split; [reflexivity|].
  intros st f t c.
  destruct (get_exchange_rate_run E f t (requests_made st)) as [out Hrun].
  rewrite (Hrun st eq_refl), (Hrun (with_cache st c) eq_refl).
  repeat split.
Qed.

(** ** calculate_arbitrage *)

Section ArbitrageFacts.

(** The inner loop adds the flagged pairs that start with [pair1], in the
    order of the entries. *)
Lemma arbitrage_inner_spec pair1 rate1 : forall items opps,
  fold_left (fun (opps : list finding) (item2 : string * float) =>
               let '(pair2, rate2) := item2 in
               if negb (String.eqb pair1 pair2) then
                 let spread := spread_of rate1 rate2 in
                 if exceeds_threshold spread
                 then (opps ++ [(pair1, pair2, spread)])%list
                 else opps
               else opps) items opps =
  (opps ++
   map (fun x : (string * float) * (string * float) =>
          (fst (fst x), fst (snd x), spread_of (snd (fst x)) (snd (snd x))))
       (filter flagged (map (fun y => ((pair1, rate1), y)) items)))%list.
Proof.
  induction items as [|[pair2 rate2] items IH]; intros opps; simpl.
  - now rewrite app_nil_r.
  - rewrite IH. unfold flagged at 2. simpl.
    destruct (negb (String.eqb pair1 pair2)); simpl; [|reflexivity].
    destruct (exceeds_threshold (spread_of rate1 rate2)); simpl;
      [|reflexivity].
    now rewrite <- app_assoc.
Qed.

Lemma arbitrage_outer_spec pairs : forall items opps,
  fold_left (fun (opps : list finding) (item1 : string * float) =>
               arbitrage_inner (fst item1) (snd item1) pairs opps)
            items opps =
  (opps ++
   map (fun x : (string * float) * (string * float) =>
          (fst (fst x), fst (snd x), spread_of (snd (fst x)) (snd (snd x))))
       (filter flagged (list_prod items pairs)))%list.
Proof.
  induction items as [|[pair1 rate1] items IH]; intros opps; simpl.
  - now rewrite app_nil_r.
  - rewrite IH. unfold arbitrage_inner, Dict.items.
    rewrite arbitrage_inner_spec, filter_app, map_app, <- app_assoc.
    reflexivity.
Qed.

(** The loops find the flagged pairs in discovery order. *)
Lemma find_opportunities_discovery results :
  find_opportunities results = discovery_order (pairs_dict results).
Proof.
  unfold find_opportunities, discovery_order, Dict.items. cbv zeta.
  now rewrite arbitrage_outer_spec.
Qed.

(** The comprehension keeps the entries of a dictionary, in order. *)
Lemma pairs_dict_fold (l : Dict.t RateRecord) : forall acc : Dict.t float,
  NoDup (Dict.keys acc ++ Dict.keys l) ->
  fold_left (fun d (item : string * RateRecord) =>
               Dict.set d (fst item) (rate (snd item))) l acc =
  (acc ++ rates l)%list.
Proof.
  induction l as [|[k d] l IH]; intros acc Hnd; simpl.
  - now rewrite app_nil_r.
  - assert (Hset : Dict.set acc k (rate d) = (acc ++ [(k, rate d)])%list).
    { apply NoDup_remove_2 in Hnd.
      assert (Hk : ~ In k (Dict.keys acc))
        by (intros Hin; apply Hnd; apply in_or_app; now left).
      clear - Hk. induction acc as [|[k0 v0] acc IHa]; simpl; [reflexivity|].
      destruct (String.eqb k0 k) eqn:E0.
      - apply String.eqb_eq in E0. subst. exfalso. apply Hk. now left.
      - rewrite IHa; [reflexivity|]. intros Hin. apply Hk. now right. }
    rewrite Hset, IH.
    + now rewrite <- app_assoc.
    + unfold Dict.keys in *. rewrite map_app, <- app_assoc. simpl.
      simpl in Hnd. exact Hnd.
Qed.

Lemma pairs_dict_rates results :
  Dict.wf results -> pairs_dict results = rates results.
Proof.
  intros Hwf. unfold pairs_dict, Dict.items.
  now rewrite pairs_dict_fold.
Qed.

Lemma in_rates results k r :
  In (k, r) (rates results) <-> exists d, In (k, d) results /\ r = rate d.
Proof.
  unfold rates. rewrite in_map_iff. split.
  - intros [[k' d] [[= <- <-] Hin]]. eauto.
  - intros [d [Hin ->]]. exists (k, d). auto.
Qed.

(** What makes a finding. *)
Lemma in_discovery_order pairs p1 p2 s :
  In (p1, p2, s) (discovery_order pairs) <->
  exists r1 r2,
    In (p1, r1) pairs /\ In (p2, r2) pairs /\ p1 <> p2 /\
    s = spread_of r1 r2 /\ exceeds_threshold s = true.
Proof.
  unfold discovery_order. rewrite in_map_iff. split.
  - intros [[[k1 r1] [k2 r2]] [[= <- <- <-] Hin]].
    apply filter_In in Hin as [Hin Hflag].
    apply in_prod_iff in Hin as [H1 H2].
    unfold flagged in Hflag. simpl in Hflag.
    apply andb_true_iff in Hflag as [Hne Hex].
    apply negb_true_iff, String.eqb_neq in Hne.
    exists r1, r2. auto.
  - intros (r1 & r2 & H1 & H2 & Hne & -> & Hex).
    exists ((p1, r1), (p2, r2)). split; [reflexivity|].
    apply filter_In. split; [apply in_prod_iff; auto|].
    unfold flagged. simpl. apply andb_true_iff. split; [|exact Hex].
    apply negb_true_iff, String.eqb_neq. exact Hne.
Qed.

(** What [calculate_arbitrage] prints. *)
Lemma show_opportunities_run : forall (l : list finding) st,
  for_loop l show_opportunity tt st =
  (Return tt, log st (map Print (map opportunity_line l))).
Proof.
  induction l as [|[[p1 p2] s] l IH]; intros st.
  - simpl. unfold ret. now rewrite log_nil.
  - cbn [for_loop]. unfold bind. unfold show_opportunity at 1.
    unfold print, emit. rewrite IH. unfold log. simpl.
    now rewrite <- app_assoc.
Qed.

Lemma calculate_arbitrage_run results st :
  calculate_arbitrage results st =
  (Return tt, log st (map Print (arbitrage_lines results))).
Proof.
  unfold calculate_arbitrage, arbitrage_lines, shown_opportunities.
  unfold bind, print, emit. cbv zeta.
  destruct (find_opportunities results) as [|x l] eqn:Hfound.
  - unfold log. simpl. now rewrite <- !app_assoc.
  - unfold bind. rewrite show_opportunities_run.
    unfold log. simpl. rewrite ?map_app. simpl.
    repeat (rewrite <- app_assoc; simpl). reflexivity.
Qed.

Lemma in_firstn {A : Type} (n : nat) (l : list A) (x : A) :
  In x (firstn n l) -> In x l.
Proof.
  intros Hin. rewrite <- (firstn_skipn n l). apply in_or_app. now left.
Qed.

End ArbitrageFacts.

(** C6.  Over a dictionary, the findings shown are five at most, none
    pairs a key with itself, and they are the first five, or all when there
    are fewer, of the flagged pairs of entries in discovery order: outer
    entry first, then inner entry; and they are what [calculate_arbitrage]
    prints, one line per finding, in that order. *)
Theorem shown_opportunities_spec (results : Dict.t RateRecord) :
  Dict.wf results ->
  List.length (shown_opportunities results) <= 5 /\
  (forall p1 p2 s, In (p1, p2, s) (shown_opportunities results) -> p1 <> p2) /\
  shown_opportunities results = firstn 5 (discovery_order (rates results)) /\
  forall st,
    calculate_arbitrage results st =
    (Return tt, log st (map Print (arbitrage_lines results))).
Proof.
  intros Hwf. split; [|split; [|split]].
  - unfold shown_opportunities. rewrite length_firstn. lia.
  - intros p1 p2 s Hin. unfold shown_opportunities in Hin.
    apply in_firstn in Hin. rewrite find_opportunities_discovery in Hin.
    apply in_discovery_order in Hin as (_ & _ & _ & _ & Hne & _). exact Hne.
  - unfold shown_opportunities.
    now rewrite find_opportunities_discovery, pairs_dict_rates.
  - intros st. apply calculate_arbitrage_run.
Qed.

(** Three entries at one half: six flagged pairs, of which the first five
    are shown. *)
Lemma shown_opportunities_spec_witness :
  Dict.wf three_halves /\
  List.length (find_opportunities three_halves) = 6 /\
  shown_opportunities three_halves
  = [ ("USD/EUR", "EUR/USD", 0.75%float);
      ("USD/EUR", "USD/GBP", 0.75%float);
      ("EUR/USD", "USD/EUR", 0.75%float);
      ("EUR/USD", "USD/GBP", 0.75%float);
      ("USD/GBP", "USD/EUR", 0.75%float) ] /\
  shown_opportunities three_halves
  = firstn 5 (discovery_order (rates three_halves)).
Proof.
  assert (Hwf : Dict.wf three_halves).
  { unfold Dict.wf, three_halves. simpl.
    repeat constructor; simpl; intuition discriminate. }
  split; [exact Hwf|]. split; [vm_compute; reflexivity|].
  split; [vm_compute; reflexivity|].
  apply (shown_opportunities_spec three_halves Hwf).
Defined.

(** C7.  Over a dictionary, a triple is a finding exactly when its two keys
    are different keys of the dictionary, its spread is the binary64 number
    [abs(rate1 * rate2 - 1.0)] for their rates, and [0.01 < spread] holds;
    both orders of two entries are looked at, each flagged exactly when its
    own spread is above 0.01.  With the rates 0.5 and 0.5 under USD/EUR and
    EUR/USD the findings are the two orders, each with spread 0.75. *)
Theorem opportunities_characterised (results : Dict.t RateRecord) :
  Dict.wf results ->
  (forall p1 p2 s,
      In (p1, p2, s) (find_opportunities results) <->
      exists d1 d2,
        In (p1, d1) results /\ In (p2, d2) results /\ p1 <> p2 /\
        s = PrimFloat.abs (PrimFloat.sub (PrimFloat.mul (rate d1) (rate d2)) 1)
        /\ PrimFloat.ltb 0.01 s = true) /\
  (forall p1 p2 d1 d2,
      In (p1, d1) results -> In (p2, d2) results -> p1 <> p2 ->
      (In (p1, p2,
           PrimFloat.abs (PrimFloat.sub (PrimFloat.mul (rate d1) (rate d2)) 1))
          (find_opportunities results)
       <-> PrimFloat.ltb 0.01
             (PrimFloat.abs
                (PrimFloat.sub (PrimFloat.mul (rate d1) (rate d2)) 1)) = true) /\
      (In (p2, p1,
           PrimFloat.abs (PrimFloat.sub (PrimFloat.mul (rate d2) (rate d1)) 1))
          (find_opportunities results)
       <-> PrimFloat.ltb 0.01
             (PrimFloat.abs
                (PrimFloat.sub (PrimFloat.mul (rate d2) (rate d1)) 1)) = true)) /\
  (forall r1 r2,
      rate r1 = 0.5%float -> rate r2 = 0.5%float ->
      find_opportunities [("USD/EUR", r1); ("EUR/USD", r2)]
      = [ ("USD/EUR", "EUR/USD", 0.75%float);
          ("EUR/USD", "USD/EUR", 0.75%float) ] /\
      shown_opportunities [("USD/EUR", r1); ("EUR/USD", r2)]
      = [ ("USD/EUR", "EUR/USD", 0.75%float);
          ("EUR/USD", "USD/EUR", 0.75%float) ]).
Proof.
  intros Hwf.
  assert (Hchar : forall p1 p2 s,
      In (p1, p2, s) (find_opportunities results) <->
      exists d1 d2,
        In (p1, d1) results /\ In (p2, d2) results /\ p1 <> p2 /\
        s = PrimFloat.abs (PrimFloat.sub (PrimFloat.mul (rate d1) (rate d2)) 1)
        /\ PrimFloat.ltb 0.01 s = true).
  { intros p1 p2 s.
    rewrite find_opportunities_discovery, (pairs_dict_rates _ Hwf),
      in_discovery_order.
    split.
    - intros (r1 & r2 & H1 & H2 & Hne & Hs & Hex).
      apply in_rates in H1 as [d1 [H1 ->]]. apply in_rates in H2 as [d2 [H2 ->]].
      exists d1, d2. auto.
    - intros (d1 & d2 & H1 & H2 & Hne & Hs & Hex).
      exists (rate d1), (rate d2). repeat split; auto; apply in_rates; eauto. }
  split; [exact Hchar|]. split.
  - assert (Hone : forall q1 q2 e1 e2,
               In (q1, e1) results -> In (q2, e2) results -> q1 <> q2 ->
               (In (q1, q2,
                    PrimFloat.abs
                      (PrimFloat.sub (PrimFloat.mul (rate e1) (rate e2)) 1))
                   (find_opportunities results)
                <-> PrimFloat.ltb 0.01
                      (PrimFloat.abs
                         (PrimFloat.sub (PrimFloat.mul (rate e1) (rate e2)) 1))
                    = true)).
    { intros q1 q2 e1 e2 H1 H2 Hne. rewrite Hchar. split.
      - intros (d1 & d2 & _ & _ & _ & _ & Hex). exact Hex.
      - intros Hex. exists e1, e2. auto. }
    intros p1 p2 d1 d2 H1 H2 Hne. split; apply Hone; auto.
  - intros r1 r2 H1 H2.
    assert (Hfound : find_opportunities [("USD/EUR", r1); ("EUR/USD", r2)]
                     = [ ("USD/EUR", "EUR/USD", 0.75%float);
                         ("EUR/USD", "USD/EUR", 0.75%float) ]).
    { unfold find_opportunities, pairs_dict, arbitrage_inner, Dict.items.
      simpl. rewrite H1, H2. vm_compute. reflexivity. }
    split; [exact Hfound|].
    unfold shown_opportunities. rewrite Hfound. reflexivity.
Qed.

(** The example of the heuristic: both orders are found.  Next to it, a
    product below 1 (0.9 and 1.0, some 0.1 away) is flagged in both orders,
    and a product 0.005 above 1 is not. *)
Lemma opportunities_characterised_witness :
  Dict.wf halves /\
  find_opportunities halves
  = [ ("USD/EUR", "EUR/USD", 0.75%float);
      ("EUR/USD", "USD/EUR", 0.75%float) ] /\
  (In ("USD/EUR", "EUR/USD", 0.75%float) (find_opportunities halves) <->
   exists d1 d2,
     In ("USD/EUR", d1) halves /\ In ("EUR/USD", d2) halves /\
     "USD/EUR" <> "EUR/USD" /\
     0.75%float
     = PrimFloat.abs (PrimFloat.sub (PrimFloat.mul (rate d1) (rate d2)) 1) /\
     PrimFloat.ltb 0.01 0.75 = true) /\
  find_opportunities below_parity
  = [ ("USD/EUR", "EUR/USD", 0.09999999999999998%float);
      ("EUR/USD", "USD/EUR", 0.09999999999999998%float) ] /\
  find_opportunities above_parity = [].
Proof.
  assert (Hwf : Dict.wf halves).
  { unfold Dict.wf, halves. simpl.
    constructor; [|constructor; [|constructor]]; simpl; intuition discriminate. }
  split; [exact Hwf|].
  destruct (opportunities_characterised halves Hwf) as (Hchar & _ & Hexample).
  split; [|split; [|split]].
  - apply (Hexample (Sample.record "USD" "EUR" 0.5 0.5 0.5)
                    (Sample.record "EUR" "USD" 0.5 0.5 0.5)); reflexivity.
  - apply Hchar.
  - vm_compute. reflexivity.
  - vm_compute. reflexivity.
Defined.

(** The other example of the specification: 0.92 and 1.087 multiply to a
    number within 0.01 of 1, and nothing is found. *)
Example near_parity_finds_nothing :
  find_opportunities
    [ ("USD/EUR", Sample.record "USD" "EUR" 0.92 0.92 0.92);
      ("EUR/USD", Sample.record "EUR" "USD" 1.087 1.087 1.087) ] = [].
Proof. vm_compute. reflexivity. Qed.

(** ** display_results *)

Section DisplayFacts.

Variable E : env.

Lemma display_row_prints item u : prints_only (display_row E item u).
Proof. destruct item as [k d]. unfold display_row. prints_only_tac. Qed.

(** A line, the clock read, a line with the time, then statements that
    only print. *)
Lemma banner_then_run (a : string) (b : datetime -> string) (rest : M unit) :
  prints_only rest ->
  exists o out, forall st,
    (print a ;; now <- datetime_now E ;; print (b now) ;; rest) st =
    (o, {| self := self st;
           requests_made := requests_made st;
           clock_reads := S (clock_reads st);
           trace := (trace st ++
                     Print (a ++ PyStr.nl)
                       :: Now
                       :: Print (b (clock E (clock_reads st)) ++ PyStr.nl)
                       :: map Print out)%list |}).
Proof.
  intros [o [out Hrest]]. exists o, out. intros st.
  unfold bind, print, emit, datetime_now. simpl.
  rewrite Hrest. unfold log. simpl. rewrite <- !app_assoc. reflexivity.
Qed.

(** The table: the text before the time, the time, the text after it. *)
Lemma display_results_run results :
  results <> [] ->
  exists o out, forall st,
    display_results E results st =
    (o, {| self := self st;
           requests_made := requests_made st;
           clock_reads := S (clock_reads st);
           trace := (trace st ++
                     Print ((PyStr.nl ++ PyStr.rep "=" 70) ++ PyStr.nl)
                       :: Now
                       :: Print (("📊 FOREX SCANNER RESULTS - "
                                    ++ strftime (clock E (clock_reads st)))
                                   ++ PyStr.nl)
                       :: map Print out)%list |}).
Proof.
  intros Hne. destruct results as [|x results]; [congruence|].
  unfold display_results. cbn [Dict.is_empty].
  apply (banner_then_run (PyStr.nl ++ PyStr.rep "=" 70)
           (fun now => "📊 FOREX SCANNER RESULTS - " ++ strftime now)).
  prints_only_tac; apply display_row_prints.
Qed.

Lemma display_results_empty st :
  display_results E Dict.empty st =
  (Return tt,
   log st [Print ((PyStr.nl ++ "❌ No results to display") ++ PyStr.nl)]).
Proof. reflexivity. Qed.

Lemma skipn_trace (tr evs : list event) :
  skipn (List.length tr) (tr ++ evs) = evs.
Proof. induction tr; simpl; auto. Qed.

Lemma append_assoc (a b c : string) :
  ((a ++ b) ++ c = a ++ (b ++ c))%string.
Proof. induction a as [|x a IH]; simpl; congruence. Qed.

(** What a call prints: the same text around the time of the call. *)
Lemma display_results_text results :
  results <> [] ->
  exists before after, forall st,
    run_output (display_results E results) st =
    (before ++ strftime (clock E (clock_reads st)) ++ after)%string.
Proof.
  intros Hne. destruct (display_results_run results Hne) as [o [out Hrun]].
  exists (((PyStr.nl ++ PyStr.rep "=" 70) ++ PyStr.nl)
            ++ "📊 FOREX SCANNER RESULTS - ")%string,
         (PyStr.nl ++ stdout (map Print out))%string.
  intros st. unfold run_output. rewrite Hrun. cbn [snd trace].
  rewrite skipn_trace. cbn [stdout].
  now rewrite !append_assoc.
Qed.

Lemma display_results_fst results st1 st2 :
  fst (display_results E results st1) = fst (display_results E results st2).
Proof.
  destruct results as [|x results]; [reflexivity|].
  destruct (display_results_run (x :: results)) as [o [out Hrun]];
    [discriminate|].
  now rewrite !Hrun.
Qed.

End DisplayFacts.

(** C2, as the code has it.  The text [display_results] prints is set by
    the dictionary and by the time [datetime.now()] gives at the call: two
    calls on the same dictionary print the same text and end alike when the
    dictionary is empty or their times format alike; and for a dictionary
    that is not empty the text is the same before and after the time,
    whatever the time is. *)
Theorem display_results_repeatable (E : env) (results : Dict.t RateRecord)
        (st1 st2 : state) :
  results = Dict.empty \/
  strftime (clock E (clock_reads st1)) = strftime (clock E (clock_reads st2)) ->
  run_output (display_results E results) st1 =
  run_output (display_results E results) st2 /\
  fst (display_results E results st1) = fst (display_results E results st2) /\
  (results <> Dict.empty ->
   exists before after, forall st,
     run_output (display_results E results) st =
     (before ++ strftime (clock E (clock_reads st)) ++ after)%string).
Proof.
  intros Hsame.
  split; [|split; [apply display_results_fst | apply display_results_text]].
  destruct results as [|x results].
  - unfold run_output.
    change (@nil (string * RateRecord)) with (@Dict.empty RateRecord).
    rewrite !display_results_empty. unfold log. cbn [snd trace].
    now rewrite !skipn_trace.
  - destruct Hsame as [Hempty|Hstamp]; [discriminate|].
    destruct (display_results_text E (x :: results)) as [before [after Htext]];
      [discriminate|].
    now rewrite !Htext, Hstamp.
Qed.

(** Two calls in a row under a clock that stands still. *)
Lemma display_results_repeatable_witness :
  let st1 := initial_state "demo" in
  let st2 := snd (display_results frozen_world one_result st1) in
  clock_reads st1 = 0 /\ clock_reads st2 = 1 /\
  run_output (display_results frozen_world one_result) st1 =
  run_output (display_results frozen_world one_result) st2 /\
  fst (display_results frozen_world one_result st1) =
  fst (display_results frozen_world one_result st2).
Proof.
  cbv zeta. split; [reflexivity|]. split; [reflexivity|].
  destruct (display_results_repeatable frozen_world one_result
              (initial_state "demo")
              (snd (display_results frozen_world one_result
                      (initial_state "demo"))))
    as (Htext & Hend & _).
  - right. reflexivity.
  - split; [exact Htext | exact Hend].
Defined.

(** C2 as stated fails: two calls in a row on the same dictionary, one
    second apart, print different texts; the first has the time 12:00:00 in
    it and the second 12:00:01. *)
Lemma display_results_twice_differs :
  let st1 := initial_state "demo" in
  let st2 := snd (display_results (Sample.world []) one_result st1) in
  PyStr.contains "2024-01-02 12:00:00"
    (run_output (display_results (Sample.world []) one_result) st1) = true /\
  PyStr.contains "2024-01-02 12:00:01"
    (run_output (display_results (Sample.world []) one_result) st2) = true /\
  run_output (display_results (Sample.world []) one_result) st1 <>
  run_output (display_results (Sample.world []) one_result) st2.
Proof.
  cbv zeta. split; [vm_compute; reflexivity|]. split; [vm_compute; reflexivity|].
  apply String.eqb_neq. vm_compute. reflexivity.
Qed.

(** C8.  On the empty dictionary [display_results] prints the notice, a
    blank line and "No results to display", and nothing else; it does not
    read the clock; the heuristic finds nothing, shows nothing, and
    [calculate_arbitrage] says so. *)
Theorem empty_results (E : env) (st : state) :
  display_results E Dict.empty st =
  (Return tt,
   log st [Print ((PyStr.nl ++ "❌ No results to display") ++ PyStr.nl)]) /\
  find_opportunities Dict.empty = [] /\
  shown_opportunities Dict.empty = [] /\
  calculate_arbitrage Dict.empty st =
  (Return tt,
   log st [ Print ("💡 Arbitrage Analysis:" ++ PyStr.nl);
            Print (PyStr.rep "-" 70 ++ PyStr.nl);
            Print ("✓ No significant arbitrage opportunities detected"
                     ++ PyStr.nl);
            Print ("" ++ PyStr.nl) ]).
Proof.
  split; [reflexivity|]. split; [reflexivity|]. split; [reflexivity|].
  rewrite calculate_arbitrage_run. reflexivity.
Qed.

(* ================================================================== *)
(** * More of the module *)

(** ** get_exchange_rate: how a response is classified *)

(** A [try] block that raises has printed nothing. *)
Lemma get_exchange_rate_try_raise (E : env) f t data st e st' :
  get_exchange_rate_try E f t data st = (Raise e, st') ->
  st' = st /\ (e = TypeError \/ e = OverflowError \/
               (exists k, e = KeyError k) \/ (exists m, e = ValueError m)).
Proof.
  unfold get_exchange_rate_try, bind, lift, print, emit, ret.
  assert (Hfloat : forall v e0, py_float E v = Raise e0 ->
            e0 = TypeError \/ e0 = OverflowError \/
            (exists k, e0 = KeyError k) \/ (exists m, e0 = ValueError m)).
  { intros v e0. destruct v; simpl; try (intros [= <-]; auto).
    - destruct (PyFloat.of_Z z); [discriminate|]. intros [= <-]. auto.
    - destruct (float_of_str E s); [|discriminate]. intros [= <-]. eauto. }
  assert (Hdone : forall e0 : exn,
            e0 = TypeError \/ e0 = OverflowError \/
            (exists k, e0 = KeyError k) \/ (exists m, e0 = ValueError m) ->
            (Raise e0 : outcome (option RateRecord), st) = (Raise e, st') ->
            st' = st /\ (e = TypeError \/ e = OverflowError \/
                         (exists k, e = KeyError k) \/
                         (exists m, e = ValueError m))).
  { intros e0 He0 [= <- <-]. auto. }
  destruct data as [| | | | s | l | d]; simpl;
    try (apply Hdone; auto).
  - destruct (PyStr.contains "Error Message" s); [apply Hdone; auto|].
    destruct (PyStr.contains "Note" s); [apply Hdone; auto|].
    destruct (PyStr.contains "Realtime Currency Exchange Rate" s);
      simpl; [apply Hdone; auto | discriminate].
  - destruct (existsb _ l); [apply Hdone; auto|].
    destruct (existsb _ l); [apply Hdone; auto|].
    destruct (existsb _ l); simpl; [apply Hdone; auto | discriminate].
  - unfold Dict.mem.
    destruct (Dict.get d "Error Message"); [discriminate|].
    destruct (Dict.get d "Note"); [discriminate|].
    destruct (Dict.get d "Realtime Currency Exchange Rate") as [rate_data|];
      simpl; [|discriminate].
    destruct rate_data as [| | | | | |q]; simpl; try (apply Hdone; auto).
    destruct (Dict.get q "1. From_Currency Code"); [|apply Hdone; eauto].
    destruct (Dict.get q "2. From_Currency Name"); [|apply Hdone; eauto].
    destruct (Dict.get q "3. To_Currency Code"); [|apply Hdone; eauto].
    destruct (Dict.get q "4. To_Currency Name"); [|apply Hdone; eauto].
    destruct (Dict.get q "5. Exchange Rate") as [v5|]; [|apply Hdone; eauto].
    destruct (py_float E v5) eqn:F5; [|apply Hdone; eauto].
    destruct (Dict.get q "6. Last Refreshed"); [|apply Hdone; eauto].
    destruct (Dict.get q "7. Time Zone"); [|apply Hdone; eauto].
    destruct (Dict.get q "8. Bid Price") as [v8|]; [|apply Hdone; eauto].
    destruct (py_float E v8) eqn:F8; [|apply Hdone; eauto].
    destruct (Dict.get q "9. Ask Price") as [v9|]; [|apply Hdone; eauto].
    destruct (py_float E v9) eqn:F9; [discriminate|apply Hdone; eauto].
Qed.

(** X1.  A call of [get_exchange_rate] sends one request, whatever comes
    of it (a record, [None] or an exception): to the base URL, with the
    function name, the two codes as [upper] gives them and the key of the
    scanner, and a timeout of 10.  It does not try again, it does not pause, it does
    not read the clock, and it leaves the scanner as it is. *)
Theorem fetch_sends_one_request (E : env) (f t : string) (st : state) :
  let st' := snd (get_exchange_rate E f t st) in
  filter is_io (trace st') =
  (filter is_io (trace st) ++
   [ Get {| url := BASE_URL;
            params := [ ("function", "CURRENCY_EXCHANGE_RATE");
                        ("from_currency", str_upper E f);
                        ("to_currency", str_upper E t);
                        ("apikey", api_key (self st)) ];
            timeout := 10 |} ])%list /\
  requests_made st' = S (requests_made st) /\
  clock_reads st' = clock_reads st /\
  self st' = self st.
Proof.
  destruct (get_exchange_rate_run E f t (requests_made st)) as [out Hrun].
  cbv zeta. rewrite (Hrun st eq_refl). cbn [snd trace requests_made clock_reads self].
  repeat split.
  rewrite filter_app. cbn [filter is_io is_get is_sleep orb].
  now rewrite filter_io_prints.
Qed.

(** X2.  An exception that leaves [get_exchange_rate] is of none of the
    classes its handlers name ([RequestException], [KeyError],
    [ValueError]); it is the exception the request or the decoding of its
    answer ended in, or a [TypeError] or an [OverflowError] met while
    reading the decoded body; the request has been sent by then, and
    nothing has been printed. *)
Theorem uncaught_exceptions_escape (E : env) (f t : string) (st : state)
        (e : exn) :
  fst (get_exchange_rate E f t st) = Raise e ->
  ~ caught_class e /\
  (http E (requests_made st) = HttpRaise e \/
   (exists data, http E (requests_made st) = HttpJson data) /\
   (e = TypeError \/ e = OverflowError)) /\
  trace (snd (get_exchange_rate E f t st)) =
  (trace st ++ [Get (request_for E (self st) f t)])%list.
Proof.
  destruct (get_exchange_rate E f t st) as [o s1] eqn:Hrun.
  cbn [fst snd]. intros ->.
  rewrite get_exchange_rate_unfold in Hrun.
  unfold try_except, bind at 1, requests_get_json in Hrun.
  assert (Hclass : forall e0 : exn,
            is_request_exception e0 = false ->
            is_key_or_value_error e0 = false -> ~ caught_class e0).
  { intros e0 H1 H2 [m [-> | [-> | [-> | ->]]]]; discriminate. }
  destruct (http E (requests_made st)) as [e0|data].
  - apply get_exchange_rate_except_raise in Hrun as (-> & -> & H1 & H2).
    split; [now apply Hclass|]. split; [now left|reflexivity].
  - match type of Hrun with
    | context [get_exchange_rate_try E f t data ?s] =>
        destruct (get_exchange_rate_try E f t data s) as [[o|e0] s'] eqn:Htry
    end; [discriminate|].
    apply get_exchange_rate_try_raise in Htry as [-> Hkind].
    apply get_exchange_rate_except_raise in Hrun as (-> & -> & H1 & H2).
    split; [now apply Hclass|]. split; [|reflexivity].
    right. split; [now exists data|].
    destruct Hkind as [->|[->|[[k ->]|[m ->]]]]; auto; discriminate.
Qed.

Lemma uncaught_exceptions_escape_witness :
  fst (get_exchange_rate null_rate_world "USD" "EUR" (initial_state "demo"))
  = Raise TypeError /\
  ~ caught_class TypeError /\
  trace (snd (get_exchange_rate null_rate_world "USD" "EUR"
                (initial_state "demo")))
  = [Get (request_for null_rate_world (init "demo") "USD" "EUR")].
Proof.
  assert (Hraise : fst (get_exchange_rate null_rate_world "USD" "EUR"
                          (initial_state "demo")) = Raise TypeError)
    by (vm_compute; reflexivity).
  split; [exact Hraise|].
  destruct (uncaught_exceptions_escape null_rate_world "USD" "EUR"
              (initial_state "demo") TypeError Hraise) as (Hclass & _ & Htrace).
  split; [exact Hclass | exact Htrace].
Defined.

(** Runs [get_exchange_rate] on a response that is known. *)
Ltac run_fetch Hresp :=
  rewrite get_exchange_rate_unfold;
  unfold try_except, bind at 1, requests_get_json; rewrite Hresp;
  unfold get_exchange_rate_try, bind, lift, print, emit, ret; simpl;
  unfold Dict.mem.



(** X4.  When the response is a JSON object with none of the keys
    "Error Message", "Note" and "Realtime Currency Exchange Rate",
    [get_exchange_rate] returns [None] and prints "Invalid response for"
    with the two codes as the caller gave them, not in upper case. *)
Theorem missing_quote_means_failure (E : env) (st : state) (f t : string)
        (d : list (string * Json.t)) :
  http E (requests_made st) = HttpJson (JObj d) ->
  Dict.get d "Error Message" = None ->
  Dict.get d "Note" = None ->
  Dict.get d "Realtime Currency Exchange Rate" = None ->
  get_exchange_rate E f t st =
  (Return None,
   {| self := self st;
      requests_made := S (requests_made st);
      clock_reads := clock_reads st;
      trace := (trace st ++
                [ Get (request_for E (self st) f t);
                  Print (("❌ Invalid response for " ++ f ++ "/" ++ t)
                           ++ PyStr.nl) ])%list |}).
Proof.
  intros Hresp Herr Hnote Hquote. run_fetch Hresp.
  rewrite Herr. simpl. rewrite Hnote. simpl. rewrite Hquote. simpl.
  now rewrite <- app_assoc.
Qed.

Lemma missing_quote_means_failure_witness :
  get_exchange_rate empty_object_world "usd" "eur" (initial_state "demo") =
  (Return None,
   {| self := init "demo";
      requests_made := 1;
      clock_reads := 0;
      trace := [ Get (request_for empty_object_world (init "demo") "usd" "eur");
                 Print (("❌ Invalid response for " ++ "usd" ++ "/" ++ "eur")
                          ++ PyStr.nl) ] |}).
Proof.
  apply (missing_quote_means_failure empty_object_world (initial_state "demo")
           "usd" "eur" []); reflexivity.
Defined.



(** X29.  When the request or the decoding of its answer ends in an
    exception of none of the classes the handlers name (a [RecursionError]
    on a body nested too deep, say), the exception leaves
    [get_exchange_rate] as it came: [None] is not returned and nothing is
    printed. *)
Theorem foreign_exception_escapes (E : env) (st : state) (f t : string)
        (e : exn) :
  http E (requests_made st) = HttpRaise e ->
  ~ caught_class e ->
  get_exchange_rate E f t st =
  (Raise e,
   {| self := self st;
      requests_made := S (requests_made st);
      clock_reads := clock_reads st;
      trace := (trace st ++ [Get (request_for E (self st) f t)])%list |}).
Proof.
  intros Hresp Hclass.
  rewrite get_exchange_rate_unfold.
  unfold try_except, bind at 1, requests_get_json. rewrite Hresp.
  destruct e; try reflexivity; exfalso; apply Hclass; eexists; eauto.
Qed.

Lemma foreign_exception_escapes_witness :
  fst (get_exchange_rate deep_body_world "USD" "EUR" (initial_state "demo"))
  = Raise (OtherException "RecursionError"
             "maximum recursion depth exceeded while decoding a JSON array from a unicode string") /\
  trace (snd (get_exchange_rate deep_body_world "USD" "EUR"
                (initial_state "demo")))
  = [Get (request_for deep_body_world (init "demo") "USD" "EUR")].
Proof.
  rewrite (foreign_exception_escapes deep_body_world (initial_state "demo")
             "USD" "EUR"
             (OtherException "RecursionError"
                "maximum recursion depth exceeded while decoding a JSON array from a unicode string")).
  - split; reflexivity.
  - reflexivity.
  - intros [m [H|[H|[H|H]]]]; discriminate H.
Defined.

(** X6.  When the response is a JSON object without error message and
    note whose quote is an object with the nine fields, and [float] gives a
    number for the rate, the bid and the ask, [get_exchange_rate] returns
    the record of those nine values and prints nothing. *)
Theorem complete_quote_means_record (E : env) (st : state) (f t : string)
        (d q : list (string * Json.t))
        (v1 v2 v3 v4 v5 v6 v7 v8 v9 : Json.t) (x5 x8 x9 : float) :
  http E (requests_made st) = HttpJson (JObj d) ->
  Dict.get d "Error Message" = None ->
  Dict.get d "Note" = None ->
  Dict.get d "Realtime Currency Exchange Rate" = Some (JObj q) ->
  Dict.get q "1. From_Currency Code" = Some v1 ->
  Dict.get q "2. From_Currency Name" = Some v2 ->
  Dict.get q "3. To_Currency Code" = Some v3 ->
  Dict.get q "4. To_Currency Name" = Some v4 ->
  Dict.get q "5. Exchange Rate" = Some v5 ->
  Dict.get q "6. Last Refreshed" = Some v6 ->
  Dict.get q "7. Time Zone" = Some v7 ->
  Dict.get q "8. Bid Price" = Some v8 ->
  Dict.get q "9. Ask Price" = Some v9 ->
  py_float E v5 = Return x5 ->
  py_float E v8 = Return x8 ->
  py_float E v9 = Return x9 ->
  get_exchange_rate E f t st =
  (Return (Some {| from := v1; from_name := v2; to := v3; to_name := v4;
                   rate := x5; last_refreshed := v6; timezone := v7;
                   bid := x8; ask := x9 |}),
   {| self := self st;
      requests_made := S (requests_made st);
      clock_reads := clock_reads st;
      trace := (trace st ++ [Get (request_for E (self st) f t)])%list |}).
Proof.
  intros Hresp Herr Hnote Hquote H1 H2 H3 H4 H5 H6 H7 H8 H9 F5 F8 F9.
  run_fetch Hresp.
  rewrite Herr. simpl. rewrite Hnote. simpl. rewrite Hquote. simpl.
  rewrite H1, H2, H3, H4, H5, F5, H6, H7, H8, F8, H9, F9. reflexivity.
Qed.

Lemma complete_quote_means_record_witness :
  get_exchange_rate lowercase_world "usd" "eur" (initial_state "demo") =
  (Return (Some (Sample.record "usd" "eur" 0.92 0.91 0.93)),
   {| self := init "demo";
      requests_made := 1;
      clock_reads := 0;
      trace := [Get (request_for lowercase_world (init "demo") "usd" "eur")] |}).
Proof.
  eapply (complete_quote_means_record lowercase_world (initial_state "demo")
            "usd" "eur");
    try reflexivity; vm_compute; reflexivity.
Defined.

(** X7.  When [float] refuses the exchange rate with a [ValueError] (a
    string that is no number) in a quote whose first four fields are
    there, [get_exchange_rate] returns [None] and prints the message of
    the error as a data parsing error. *)
Theorem unreadable_rate_means_failure (E : env) (st : state) (f t : string)
        (d q : list (string * Json.t)) (v1 v2 v3 v4 v5 : Json.t)
        (msg : string) :
  http E (requests_made st) = HttpJson (JObj d) ->
  Dict.get d "Error Message" = None ->
  Dict.get d "Note" = None ->
  Dict.get d "Realtime Currency Exchange Rate" = Some (JObj q) ->
  Dict.get q "1. From_Currency Code" = Some v1 ->
  Dict.get q "2. From_Currency Name" = Some v2 ->
  Dict.get q "3. To_Currency Code" = Some v3 ->
  Dict.get q "4. To_Currency Name" = Some v4 ->
  Dict.get q "5. Exchange Rate" = Some v5 ->
  py_float E v5 = Raise (ValueError msg) ->
  get_exchange_rate E f t st =
  (Return None,
   {| self := self st;
      requests_made := S (requests_made st);
      clock_reads := clock_reads st;
      trace := (trace st ++
                [ Get (request_for E (self st) f t);
                  Print (("❌ Data parsing error: " ++ msg) ++ PyStr.nl) ])%list |}).
Proof.
  intros Hresp Herr Hnote Hquote H1 H2 H3 H4 H5 F5.
  run_fetch Hresp.
  rewrite Herr. simpl. rewrite Hnote. simpl. rewrite Hquote. simpl.
  rewrite H1, H2, H3, H4, H5, F5. cbn. now rewrite <- app_assoc.
Qed.

Lemma unreadable_rate_means_failure_witness :
  get_exchange_rate bad_rate_world "USD" "EUR" (initial_state "demo") =
  (Return None,
   {| self := init "demo";
      requests_made := 1;
      clock_reads := 0;
      trace := [ Get (request_for bad_rate_world (init "demo") "USD" "EUR");
                 Print (("❌ Data parsing error: "
                           ++ "could not convert string to float: 'n/a'")
                          ++ PyStr.nl) ] |}).
Proof.
  eapply (unreadable_rate_means_failure bad_rate_world (initial_state "demo")
            "USD" "EUR"); reflexivity.
Defined.

(** X8.  A quote object that lacks one of its nine fields gives [None],
    not a record and not an exception, as long as the rate, the bid and the
    ask that are there are values [float] accepts or refuses with a
    [ValueError] (strings, floats, booleans, integers within range). *)
Theorem missing_field_means_failure (E : env) (st : state) (f t : string)
        (d q : list (string * Json.t)) (k : string) :
  http E (requests_made st) = HttpJson (JObj d) ->
  Dict.get d "Error Message" = None ->
  Dict.get d "Note" = None ->
  Dict.get d "Realtime Currency Exchange Rate" = Some (JObj q) ->
  In k quote_keys ->
  Dict.get q k = None ->
  field_number_like E q "5. Exchange Rate" ->
  field_number_like E q "8. Bid Price" ->
  field_number_like E q "9. Ask Price" ->
  fst (get_exchange_rate E f t st) = Return None.
Proof.
  intros Hresp Herr Hnote Hquote Hk Hmissing N5 N8 N9.
  assert (Hnum : forall key v,
            field_number_like E q key -> Dict.get q key = Some v ->
            (exists x, py_float E v = Return x) \/
            (exists m, py_float E v = Raise (ValueError m))).
  { intros key v Hlike Hget. specialize (Hlike v Hget).
    unfold number_like in Hlike.
    destruct (py_float E v) as [x|[]]; try contradiction; eauto. }
  run_fetch Hresp.
  rewrite Herr. simpl. rewrite Hnote. simpl. rewrite Hquote. simpl.
  destruct (Dict.get q "1. From_Currency Code") eqn:H1; [|reflexivity].
  destruct (Dict.get q "2. From_Currency Name") eqn:H2; [|reflexivity].
  destruct (Dict.get q "3. To_Currency Code") eqn:H3; [|reflexivity].
  destruct (Dict.get q "4. To_Currency Name") eqn:H4; [|reflexivity].
  destruct (Dict.get q "5. Exchange Rate") as [v5|] eqn:H5; [|reflexivity].
  destruct (Hnum _ _ N5 H5) as [[x5 F5]|[m F5]]; rewrite F5; [|reflexivity].
  destruct (Dict.get q "6. Last Refreshed") eqn:H6; [|reflexivity].
  destruct (Dict.get q "7. Time Zone") eqn:H7; [|reflexivity].
  destruct (Dict.get q "8. Bid Price") as [v8|] eqn:H8; [|reflexivity].
  destruct (Hnum _ _ N8 H8) as [[x8 F8]|[m F8]]; rewrite F8; [|reflexivity].
  destruct (Dict.get q "9. Ask Price") as [v9|] eqn:H9; [|reflexivity].
  exfalso. unfold quote_keys in Hk. simpl in Hk.
  repeat (destruct Hk as [<-|Hk]; [congruence|]). exact Hk.
Qed.

Lemma missing_field_means_failure_witness :
  fst (get_exchange_rate no_bid_world "USD" "EUR" (initial_state "demo"))
  = Return None /\
  stdout (trace (snd (get_exchange_rate no_bid_world "USD" "EUR"
                        (initial_state "demo"))))
  = ("❌ Data parsing error: '8. Bid Price'" ++ PyStr.nl)%string.
Proof.
  split; [|vm_compute; reflexivity].
  eapply (missing_field_means_failure no_bid_world (initial_state "demo")
            "USD" "EUR" _ _ "8. Bid Price").
  - reflexivity.
  - reflexivity.
  - reflexivity.
  - reflexivity.
  - simpl. tauto.
  - reflexivity.
  - intros v Hv. vm_compute in Hv. injection Hv as <-. vm_compute. exact I.
  - intros v Hv. vm_compute in Hv. discriminate.
  - intros v Hv. vm_compute in Hv. injection Hv as <-. vm_compute. exact I.
Defined.

(** X9.  A body that decodes to [None], a boolean or a number makes the
    first test of the envelope raise a [TypeError], which leaves
    [get_exchange_rate]; a quote that is not an object (in a body without
    error message and note) does the same at the first field. *)
Theorem shapeless_body_raises (E : env) (st : state) (f t : string)
        (data : Json.t) :
  http E (requests_made st) = HttpJson data ->
  (data = JNull \/ (exists b, data = JBool b) \/ (exists z, data = JInt z)
   \/ (exists x, data = JFloat x)
   \/ (exists d v, data = JObj d /\
                   Dict.get d "Error Message" = None /\
                   Dict.get d "Note" = None /\
                   Dict.get d "Realtime Currency Exchange Rate" = Some v /\
                   forall q, v <> JObj q)) ->
  get_exchange_rate E f t st =
  (Raise TypeError,
   {| self := self st;
      requests_made := S (requests_made st);
      clock_reads := clock_reads st;
      trace := (trace st ++ [Get (request_for E (self st) f t)])%list |}).
Proof.
  intros Hresp Hshape.
  destruct Hshape as [->|[[b ->]|[[z ->]|[[x ->]|Hquote]]]];
    try (run_fetch Hresp; reflexivity).
  destruct Hquote as (d & v & -> & Herr & Hnote & Hquote & Hnot).
  run_fetch Hresp.
  rewrite Herr. simpl. rewrite Hnote. simpl. rewrite Hquote. simpl.
  destruct v; try reflexivity. exfalso. exact (Hnot _ eq_refl).
Qed.

Lemma shapeless_body_raises_witness :
  get_exchange_rate null_body_world "USD" "EUR" (initial_state "demo") =
  (Raise TypeError,
   {| self := init "demo";
      requests_made := 1;
      clock_reads := 0;
      trace := [Get (request_for null_body_world (init "demo") "USD" "EUR")] |}).
Proof.
  apply (shapeless_body_raises null_body_world (initial_state "demo")
           "USD" "EUR" JNull).
  - reflexivity.
  - left. reflexivity.
Defined.

(** ** scan_pairs: when it returns, when it stops *)

Section ScanMore.

Variable E : env.

Lemma gets_app a b : gets (a ++ b) = (gets a ++ gets b)%list.
Proof. unfold gets. apply filter_app. Qed.

Lemma sleeps_app a b : sleeps (a ++ b) = (sleeps a ++ sleeps b)%list.
Proof. unfold sleeps. apply filter_app. Qed.

(** The loop, when a turn ends in an exception: the turns before it are
    complete, the last one ends after its request. *)
Lemma scan_loop_stops total delay : forall pairs start acc st k f t e,
  (forall i p, i < k -> nth_error pairs i = Some p ->
               turn_error E (requests_made st) total delay start i p = None) ->
  nth_error pairs k = Some (f, t) ->
  turn_error E (requests_made st) total delay start k (f, t) = Some e ->
  exists st',
    for_loop (combine (seq start (List.length pairs)) pairs)
             (scan_step E total delay) acc st = (Raise e, st') /\
    self st' = self st /\
    requests_made st' = requests_made st + S k /\
    clock_reads st' = clock_reads st /\
    filter is_io (trace st') =
    (filter is_io (trace st) ++
     scan_events E (self st) total delay
                 (firstn k (combine (seq start (List.length pairs)) pairs)) ++
     [Get (request_for E (self st) f t)])%list.
Proof.
  induction pairs as [|[f0 t0] pairs IH];
    intros start acc st k f t e Hbefore Hk Hstop; [destruct k; discriminate|].
  cbn [List.length seq combine for_loop]. unfold bind.
  pose proof (scan_step_spec E total delay start f0 t0 acc st) as Hstep.
  cbv zeta in Hstep.
  destruct (scan_step E total delay (start, (f0, t0)) acc st) as [r1 st1].
  cbn [fst snd] in Hstep. destruct Hstep as (Hself & Hreq & Hclock & Hfetch).
  destruct k as [|k]; cbn [nth_error] in Hk.
  - injection Hk as -> ->. unfold turn_error in Hstop.
    rewrite !Nat.add_0_r in Hstop. cbn [fst snd] in Hstop.
    destruct (fetched E (requests_made st) f t) as [o|e0].
    + rewrite Hstop in Hfetch. destruct Hfetch as [-> Hio].
      exists st1. repeat split; auto; try lia.
    + injection Hstop as ->. destruct Hfetch as [-> Hio].
      exists st1. repeat split; auto; try lia.
  - pose proof (Hbefore 0 (f0, t0) (Nat.lt_0_succ k) eq_refl) as Hhead.
    unfold turn_error in Hhead.
    rewrite !Nat.add_0_r in Hhead. cbn [fst snd] in Hhead.
    destruct (fetched E (requests_made st) f0 t0) as [o|e0]; [|discriminate].
    rewrite Hhead in Hfetch. destruct Hfetch as [-> Hio].
    destruct (IH (S start)
                 (match o with
                  | Some data => Dict.set acc (pair_name f0 t0) data
                  | None => acc
                  end) st1 k f t e) as (st' & Hrun & Hs & Hr & Hc & Hio').
    + intros i p Hlt Hi.
      assert (Hlt' : S i < S k) by lia.
      specialize (Hbefore (S i) p Hlt' Hi).
      unfold turn_error in *. rewrite Hreq.
      replace (S (requests_made st) + i) with (requests_made st + S i) by lia.
      replace (S start + i) with (start + S i) by lia.
      exact Hbefore.
    + exact Hk.
    + unfold turn_error in *. rewrite Hreq.
      replace (S (requests_made st) + k) with (requests_made st + S k) by lia.
      replace (S start + k) with (start + S k) by lia.
      exact Hstop.
    + exists st'. rewrite Hrun. repeat split; try congruence; try lia.
      rewrite Hio', Hio, Hself. cbn [firstn]. unfold scan_events.
      cbn [flat_map fst snd]. rewrite <- !app_assoc. reflexivity.
Qed.

(** The turns before a fetch that raises, when the fetches before it
    return and [time.sleep] takes the pauses. *)
Lemma turns_before_raise total delay start n (pairs : list (string * string))
      k f t e :
  (forall i f' t', i < k -> nth_error pairs i = Some (f', t') ->
                   returns (fetched E (n + i) f' t') = true) ->
  (0 < k -> sleep_error E delay = None) ->
  fetched E (n + k) f t = Raise e ->
  (forall i p, i < k -> nth_error pairs i = Some p ->
               turn_error E n total delay start i p = None) /\
  turn_error E n total delay start k (f, t) = Some e.
Proof.
  intros Hbefore Hsleep Hraise. unfold turn_error, pause_error. split.
  - intros i [f' t'] Hlt Hi. specialize (Hbefore i f' t' Hlt Hi).
    cbn [fst snd].
    destruct (fetched E (n + i) f' t'); [|discriminate].
    destruct (Nat.ltb (start + i) total); [apply Hsleep; lia | reflexivity].
  - cbn [fst snd]. now rewrite Hraise.
Qed.

Lemma gets_scan_events scanner total delay : forall items,
  gets (scan_events E scanner total delay items) =
  map (fun x : nat * (string * string) =>
         Get (request_for E scanner (fst (snd x)) (snd (snd x)))) items.
Proof.
  induction items as [|x items IH]; [reflexivity|].
  unfold scan_events, gets in *. cbn [flat_map map filter is_get].
  rewrite filter_app, IH. unfold pause_after.
  destruct (Nat.ltb (fst x) total); reflexivity.
Qed.

(** Before the last pair every turn ends in a pause. *)
Lemma sleeps_scan_events_before scanner total delay :
  forall (pairs : list (string * string)) start k,
    start + k <= total -> k <= List.length pairs ->
    sleeps (scan_events E scanner total delay
              (firstn k (combine (seq start (List.length pairs)) pairs))) =
    repeat (Sleep delay) k.
Proof.
  induction pairs as [|p pairs IH]; intros start k Hle Hk.
  - simpl in Hk. replace k with 0 by lia. reflexivity.
  - destruct k as [|k]; [reflexivity|].
    cbn [List.length seq combine firstn]. unfold scan_events in *.
    cbn [flat_map fst]. unfold pause_after at 1.
    replace (Nat.ltb start total) with true
      by (symmetry; apply Nat.ltb_lt; lia).
    cbn [app]. unfold sleeps in *. cbn [filter is_sleep].
    rewrite (IH (S start) k); [reflexivity|lia|simpl in Hk; lia].
Qed.

Lemma firstn_combine_seq {A : Type} : forall (l : list A) start k,
  map snd (firstn k (combine (seq start (List.length l)) l)) = firstn k l.
Proof.
  induction l as [|x l IH]; intros start [|k]; simpl; auto.
  now rewrite IH.
Qed.

Lemma firstn_succ_nth {A : Type} : forall (l : list A) k x,
  nth_error l k = Some x -> firstn (S k) l = (firstn k l ++ [x])%list.
Proof.
  induction l as [|y l IH]; intros [|k] x Hk; simpl in *; try discriminate.
  - now injection Hk as ->.
  - now rewrite (IH k x Hk).
Qed.

Lemma nth_error_length {A : Type} (l : list A) k x :
  nth_error l k = Some x -> k < List.length l.
Proof. intros H. apply nth_error_Some. congruence. Qed.

(** Each turn of the loop sends one request and pauses once at most,
    whatever comes of the loop. *)
Lemma scan_loop_bounds total delay : forall pairs start acc st,
  let r := for_loop (combine (seq start (List.length pairs)) pairs)
                    (scan_step E total delay) acc st in
  List.length (gets (trace (snd r))) <=
  List.length (gets (trace st)) + List.length pairs /\
  List.length (sleeps (trace (snd r))) <=
  List.length (sleeps (trace st)) +
  List.length (filter (fun i => Nat.ltb i total) (seq start (List.length pairs))).
Proof.
  induction pairs as [|[f t] pairs IH]; intros start acc st; cbv zeta.
  - simpl. lia.
  - cbn [List.length seq combine for_loop filter]. unfold bind.
    pose proof (scan_step_spec E total delay start f t acc st) as Hstep.
    cbv zeta in Hstep.
    destruct (scan_step E total delay (start, (f, t)) acc st) as [r1 st1].
    cbn [fst snd] in Hstep. destruct Hstep as (_ & _ & _ & Hfetch).
    assert (Hg : List.length (gets (trace st1)) =
                 S (List.length (gets (trace st))) /\
                 List.length (sleeps (trace st1)) <=
                 List.length (sleeps (trace st)) +
                 (if Nat.ltb start total then 1 else 0)).
    { rewrite <- (gets_of_io (trace st1)), <- (sleeps_of_io (trace st1)).
      destruct (fetched E (requests_made st) f t) as [o|e];
        [destruct (pause_error E total delay start)|];
        destruct Hfetch as [_ Hio]; rewrite Hio, gets_app, sleeps_app,
          !length_app, gets_of_io, sleeps_of_io; unfold pause_after;
        destruct (Nat.ltb start total); simpl; lia. }
    destruct Hg as [Hg Hs].
    destruct r1 as [res|e].
    + specialize (IH (S start) res st1). cbv zeta in IH.
      destruct IH as [IHg IHs].
      destruct (Nat.ltb start total); cbn [List.length]; lia.
    + cbn [snd]. destruct (Nat.ltb start total); cbn [List.length]; lia.
Qed.

Lemma pauses_at_most total : forall len start,
  List.length (filter (fun i => Nat.ltb i total) (seq start len))
  <= total - start.
Proof.
  induction len as [|len IH]; intros start; simpl; [lia|].
  specialize (IH (S start)).
  destruct (Nat.ltb start total) eqn:Hlt; simpl.
  - apply Nat.ltb_lt in Hlt. lia.
  - lia.
Qed.

End ScanMore.

(** X10.  [scan_pairs] returns exactly when every fetch of the list
    returns (a record or [None]) and, the list having two pairs or more,
    [time.sleep] takes the delay: an exception leaving a fetch, or the
    delay refused at a pause, is what keeps the scan from its end. *)
Theorem scan_returns_iff (E : env) (pairs : list (string * string))
        (delay : float) (st : state) :
  (exists results st', scan_pairs E pairs delay st = (Return results, st'))
  <->
  (forall i f t, nth_error pairs i = Some (f, t) ->
                 returns (fetched E (requests_made st + i) f t) = true) /\
  (2 <= List.length pairs -> sleep_error E delay = None).
Proof.
  split.
  - intros (results & st' & Hrun). split.
    + intros i f t Hi.
      apply scan_pairs_returns in Hrun as (outs & Houts & _).
      destruct (fetches_nth E _ _ _ Houts i f t Hi) as [o [_ Hf]].
      now rewrite Hf.
    + exact (scan_pairs_pauses E _ _ _ _ _ Hrun).
  - intros [Hret Hsleep]. now apply scan_pairs_total.
Qed.

(** X11.  When the fetch of the pair at position [k] is the first to
    raise, and [time.sleep] takes the delay of the pauses before it,
    [scan_pairs] raises the same exception and returns no results, not even
    those of the pairs before; by then it has sent the requests of the
    first [k + 1] pairs and paused [k] times. *)
Theorem scan_stops_at_first_raise (E : env) (pairs : list (string * string))
        (delay : float) (st : state) (k : nat) (f t : string) (e : exn) :
  (forall i f' t', i < k -> nth_error pairs i = Some (f', t') ->
                   returns (fetched E (requests_made st + i) f' t') = true) ->
  (0 < k -> sleep_error E delay = None) ->
  nth_error pairs k = Some (f, t) ->
  fetched E (requests_made st + k) f t = Raise e ->
  fst (scan_pairs E pairs delay st) = Raise e /\
  gets (trace (snd (scan_pairs E pairs delay st))) =
  (gets (trace st) ++
   map (fun p => Get (request_for E (self st) (fst p) (snd p)))
       (firstn (S k) pairs))%list /\
  sleeps (trace (snd (scan_pairs E pairs delay st))) =
  (sleeps (trace st) ++ repeat (Sleep delay) k)%list.
Proof.
  intros Hbefore Hsleep Hk Hraise.
  rewrite scan_pairs_unfold. unfold enumerate.
  match goal with
  | |- context [for_loop _ _ _ ?s0] =>
      destruct (turns_before_raise E (List.length pairs) delay 1
                  (requests_made s0) pairs k f t e Hbefore Hsleep Hraise)
        as [Hturns Hturn];
      destruct (scan_loop_stops E (List.length pairs) delay pairs 1
                  Dict.empty s0 k f t e Hturns Hk Hturn)
        as (st' & Hrun & _ & _ & _ & Hio)
  end.
  rewrite Hrun. cbn [fst snd]. split; [reflexivity|].
  cbn [self log trace] in Hio.
  rewrite filter_app in Hio. cbn [filter is_io is_get is_sleep orb] in Hio.
  rewrite app_nil_r in Hio.
  pose proof (nth_error_length _ _ _ Hk) as Hlen.
  split.
  - rewrite <- (gets_of_io (trace st')), Hio, !gets_app, gets_of_io,
      gets_scan_events.
    rewrite (firstn_succ_nth _ _ _ Hk), map_app.
    rewrite <- (firstn_combine_seq pairs 1 k), map_map. reflexivity.
  - rewrite <- (sleeps_of_io (trace st')), Hio, !sleeps_app, sleeps_of_io.
    rewrite sleeps_scan_events_before by lia.
    cbn. now rewrite app_nil_r.
Qed.

Lemma scan_stops_at_first_raise_witness :
  fst (scan_pairs second_raises_world three_pairs 12 (initial_state "demo"))
  = Raise TypeError /\
  gets (trace (snd (scan_pairs second_raises_world three_pairs 12
                      (initial_state "demo"))))
  = [ Get (request_for second_raises_world (init "demo") "USD" "EUR");
      Get (request_for second_raises_world (init "demo") "USD" "GBP") ] /\
  sleeps (trace (snd (scan_pairs second_raises_world three_pairs 12
                        (initial_state "demo"))))
  = [Sleep 12].
Proof.
  apply (scan_stops_at_first_raise second_raises_world three_pairs 12
           (initial_state "demo") 1 "USD" "GBP" TypeError).
  - intros [|i] f' t' Hlt Hi; [|lia].
    simpl in Hi. injection Hi as <- <-. vm_compute. reflexivity.
  - intros _. vm_compute. reflexivity.
  - reflexivity.
  - vm_compute. reflexivity.
Defined.

(** X28.  When the list has two pairs or more and [time.sleep] refuses
    the delay (a negative length, NaN, a length beyond the clock), a scan
    whose first fetch returns ends at its first pause: it raises the
    exception of [time.sleep] after one request and no pause, and returns
    no results. *)
Theorem scan_stops_at_refused_delay (E : env) (pairs : list (string * string))
        (delay : float) (st : state) (f t : string) (e : exn) :
  nth_error pairs 0 = Some (f, t) ->
  2 <= List.length pairs ->
  returns (fetched E (requests_made st) f t) = true ->
  sleep_error E delay = Some e ->
  fst (scan_pairs E pairs delay st) = Raise e /\
  gets (trace (snd (scan_pairs E pairs delay st))) =
  (gets (trace st) ++ [Get (request_for E (self st) f t)])%list /\
  sleeps (trace (snd (scan_pairs E pairs delay st))) = sleeps (trace st).
Proof.
  intros Hfirst Hlen Hret Hsleep.
  rewrite scan_pairs_unfold. unfold enumerate.
  match goal with
  | |- context [for_loop _ _ _ ?s0] =>
      destruct (scan_loop_stops E (List.length pairs) delay pairs 1
                  Dict.empty s0 0 f t e)
        as (st' & Hrun & _ & _ & _ & Hio)
  end.
  - intros i p Hlt. lia.
  - exact Hfirst.
  - unfold turn_error, pause_error. cbn [fst snd log requests_made].
    rewrite Nat.add_0_r.
    destruct (fetched E (requests_made st) f t); [|discriminate].
    replace (Nat.ltb (1 + 0) (List.length pairs)) with true
      by (symmetry; apply Nat.ltb_lt; lia).
    exact Hsleep.
  - rewrite Hrun. cbn [fst snd]. split; [reflexivity|].
    cbn [self log trace firstn] in Hio.
    rewrite filter_app in Hio. cbn [filter is_io is_get is_sleep orb] in Hio.
    rewrite app_nil_r in Hio. unfold scan_events in Hio. cbn [flat_map app] in Hio.
    rewrite <- (gets_of_io (trace st')), <- (sleeps_of_io (trace st')), Hio.
    rewrite gets_app, sleeps_app, gets_of_io, sleeps_of_io.
    cbn. now rewrite app_nil_r.
Qed.

(** The same pair twice and a negative delay: the scan ends after the
    first request. *)
Lemma scan_stops_at_refused_delay_witness :
  fst (scan_pairs two_quotes_world [("USD", "EUR"); ("USD", "EUR")] (-1)
                  (initial_state "demo"))
  = Raise (ValueError "sleep length must be non-negative") /\
  gets (trace (snd (scan_pairs two_quotes_world
                      [("USD", "EUR"); ("USD", "EUR")] (-1)
                      (initial_state "demo"))))
  = [Get (request_for two_quotes_world (init "demo") "USD" "EUR")] /\
  sleeps (trace (snd (scan_pairs two_quotes_world
                        [("USD", "EUR"); ("USD", "EUR")] (-1)
                        (initial_state "demo")))) = [].
Proof.
  apply (scan_stops_at_refused_delay two_quotes_world
           [("USD", "EUR"); ("USD", "EUR")] (-1) (initial_state "demo")
           "USD" "EUR" (ValueError "sleep length must be non-negative")).
  - reflexivity.
  - simpl. lia.
  - vm_compute. reflexivity.
  - vm_compute. reflexivity.
Defined.

Lemma scan_requests_and_pauses_witness :
  exists results st',
    scan_pairs mixed_world three_pairs 12 (initial_state "demo")
    = (Return results, st') /\
    filter is_io (trace st') =
    [ Get (request_for mixed_world (init "demo") "USD" "EUR"); Sleep 12;
      Get (request_for mixed_world (init "demo") "USD" "GBP"); Sleep 12;
      Get (request_for mixed_world (init "demo") "USD" "JPY") ] /\
    List.length (gets (trace st')) = 3 /\
    List.length (sleeps (trace st')) = 2.
Proof.
  destruct (scan_pairs mixed_world three_pairs 12 (initial_state "demo"))
    as [o st'] eqn:Hrun.
  assert (Ho : o = fst (scan_pairs mixed_world three_pairs 12
                          (initial_state "demo"))) by now rewrite Hrun.
  vm_compute in Ho. subst o.
  eexists. exists st'. split; [reflexivity|].
  exact (scan_requests_and_pauses mixed_world three_pairs 12
           (initial_state "demo") _ st' Hrun).
Defined.

(** ** scan_pairs: the dictionary it builds *)

Section ScanDictionary.

Variable E : env.

Lemma dict_set_new {V : Type} (d : Dict.t V) k v :
  ~ In k (Dict.keys d) -> Dict.set d k v = (d ++ [(k, v)])%list.
Proof.
  induction d as [|[k0 v0] d IH]; simpl; intros Hk; [reflexivity|].
  destruct (String.eqb k0 k) eqn:E0.
  - apply String.eqb_eq in E0. subst. exfalso. apply Hk. now left.
  - rewrite IH; [reflexivity|]. intros Hin. apply Hk. now right.
Qed.

(** With one name per pair nothing is overwritten. *)
Lemma collect_stored : forall (l : fetch_log) (acc : Dict.t RateRecord),
  NoDup (Dict.keys acc ++ map (fun x => key_of (fst x)) l) ->
  collect acc l = (acc ++ stored l)%list.
Proof.
  induction l as [|[p o] l IH]; intros acc Hnd.
  - simpl. now rewrite app_nil_r.
  - rewrite collect_cons. unfold stored in *. cbn [flat_map fst snd].
    cbn [map fst] in Hnd.
    destruct o as [data|].
    + rewrite dict_set_new.
      * rewrite IH; [now rewrite <- app_assoc|].
        unfold Dict.keys in *. rewrite map_app, <- app_assoc. exact Hnd.
      * apply NoDup_remove_2 in Hnd. intros Hin. apply Hnd.
        apply in_or_app. now left.
    + apply IH. apply NoDup_remove_1 in Hnd. exact Hnd.
Qed.

Lemma stored_fetches n0 : forall pairs outs k,
  fetches E (n0 + k) pairs outs ->
  flat_map (fun x : nat * (string * string) =>
              match fetched E (n0 + fst x) (fst (snd x)) (snd (snd x)) with
              | Return (Some data) => [(key_of (snd x), data)]
              | _ => []
              end)
           (combine (seq k (List.length pairs)) pairs) =
  stored (combine pairs outs).
Proof.
  induction pairs as [|[f t] pairs IH]; intros outs k Hf.
  - inversion Hf; subst. reflexivity.
  - inversion Hf as [|? ? ? ? o outs' Hhead Hrest]; subst.
    cbn [List.length seq combine flat_map fst snd]. rewrite Hhead.
    replace (S (n0 + k)) with (n0 + S k) in Hrest by lia.
    rewrite (IH outs' (S k) Hrest). unfold stored. cbn [flat_map fst snd].
    destruct o; reflexivity.
Qed.

Lemma collect_distinct pairs outs n :
  fetches E n pairs outs ->
  NoDup (map key_of pairs) ->
  collect Dict.empty (combine pairs outs) = stored (combine pairs outs).
Proof.
  intros Houts Hnd. rewrite collect_stored; [reflexivity|]. simpl.
  assert (Hmap : map (fun x : (string * string) * option RateRecord =>
                        key_of (fst x)) (combine pairs outs)
                 = map key_of pairs).
  { pose proof (fetches_length E _ _ _ Houts) as Hlen.
    clear - Hlen. revert outs Hlen.
    induction pairs as [|p pairs IH]; intros [|o outs] Hlen;
      simpl in *; try discriminate; [reflexivity|].
    now rewrite IH by lia. }
  now rewrite Hmap.
Qed.

Lemma stored_length (l : fetch_log) : List.length (stored l) = successes l.
Proof.
  unfold stored, successes.
  induction l as [|[p [d|]] l IH]; simpl; auto.
Qed.

Lemma successful_fetches_le n pairs :
  successful_fetches E n pairs <= List.length pairs.
Proof.
  unfold successful_fetches.
  etransitivity; [apply filter_length_le|].
  rewrite length_combine, length_seq. lia.
Qed.

End ScanDictionary.

(** X13.  When the pairs of the list have different names, the dictionary
    a scan returns is the list of its successes: one entry per fetch that
    gave a record, under the name of its pair, in the order of the list,
    nothing overwritten and nothing else. *)
Theorem scan_of_distinct_pairs (E : env) (pairs : list (string * string))
        (delay : float) (st : state) (results : Dict.t RateRecord)
        (st' : state) :
  NoDup (map key_of pairs) ->
  scan_pairs E pairs delay st = (Return results, st') ->
  results = scan_successes E (requests_made st) pairs /\
  List.length results = successful_fetches E (requests_made st) pairs.
Proof.
  intros Hnd Hrun.
  apply scan_pairs_returns in Hrun as (outs & Houts & -> & _).
  pose proof (collect_distinct E pairs outs _ Houts Hnd) as Hstored.
  rewrite Hstored. split.
  - unfold scan_successes. symmetry. apply (stored_fetches E).
    now rewrite Nat.add_0_r.
  - rewrite (successful_fetches_successes E _ _ _ Houts).
    apply stored_length.
Qed.

Lemma scan_of_distinct_pairs_witness :
  NoDup (map key_of three_pairs) /\
  exists st',
    scan_pairs mixed_world three_pairs 12 (initial_state "demo")
    = (Return [ ("USD/EUR", Sample.record "USD" "EUR" 0.92 0.91 0.93);
                ("USD/JPY", Sample.record "USD" "JPY" 149.5 149.4 149.6) ],
       st') /\
    [ ("USD/EUR", Sample.record "USD" "EUR" 0.92 0.91 0.93);
      ("USD/JPY", Sample.record "USD" "JPY" 149.5 149.4 149.6) ]
    = scan_successes mixed_world 0 three_pairs.
Proof.
  assert (Hnd : NoDup (map key_of three_pairs)).
  { vm_compute. repeat constructor; simpl; intuition discriminate. }
  split; [exact Hnd|].
  destruct (scan_pairs mixed_world three_pairs 12 (initial_state "demo"))
    as [o st'] eqn:Hrun.
  assert (Ho : o = fst (scan_pairs mixed_world three_pairs 12
                          (initial_state "demo"))) by now rewrite Hrun.
  vm_compute in Ho. subst o.
  exists st'. split; [reflexivity|].
  exact (proj1 (scan_of_distinct_pairs mixed_world three_pairs 12
                  (initial_state "demo") _ st' Hnd Hrun)).
Defined.

(** X14.  The dictionary a scan returns has one entry per key, never more
    entries than fetches that gave a record, and so never more than there
    are pairs. *)
Theorem scan_result_is_bounded (E : env) (pairs : list (string * string))
        (delay : float) (st : state) (results : Dict.t RateRecord)
        (st' : state) :
  scan_pairs E pairs delay st = (Return results, st') ->
  Dict.wf results /\
  List.length results <= successful_fetches E (requests_made st) pairs /\
  successful_fetches E (requests_made st) pairs <= List.length pairs.
Proof.
  intros Hrun.
  apply scan_pairs_returns in Hrun as (outs & Houts & -> & _).
  split; [apply collect_wf; constructor|]. split.
  - rewrite (successful_fetches_successes E _ _ _ Houts).
    apply (collect_length (combine pairs outs) Dict.empty).
  - apply successful_fetches_le.
Qed.

Lemma scan_result_is_bounded_witness :
  exists results st',
    scan_pairs two_quotes_world [("USD", "EUR"); ("USD", "EUR")] 12
               (initial_state "demo") = (Return results, st') /\
    List.length results = 1 /\
    successful_fetches two_quotes_world 0 [("USD", "EUR"); ("USD", "EUR")] = 2 /\
    Dict.wf results /\
    List.length results
    <= successful_fetches two_quotes_world 0 [("USD", "EUR"); ("USD", "EUR")].
Proof.
  destruct (scan_pairs two_quotes_world [("USD", "EUR"); ("USD", "EUR")] 12
                       (initial_state "demo")) as [o st'] eqn:Hrun.
  assert (Ho : o = fst (scan_pairs two_quotes_world
                          [("USD", "EUR"); ("USD", "EUR")] 12
                          (initial_state "demo"))) by now rewrite Hrun.
  vm_compute in Ho. subst o.
  eexists. exists st'. split; [reflexivity|].
  split; [reflexivity|]. split; [vm_compute; reflexivity|].
  destruct (scan_result_is_bounded two_quotes_world _ 12
              (initial_state "demo") _ st' Hrun) as (Hwf & Hle & _).
  split; [exact Hwf | exact Hle].
Defined.

(** X15.  Whatever comes of it, a record for every pair or an exception on
    the way, a scan of [n] pairs sends [n] requests at most and pauses
    [n - 1] times at most. *)
Theorem scan_never_exceeds (E : env) (pairs : list (string * string))
        (delay : float) (st : state) :
  List.length (gets (trace (snd (scan_pairs E pairs delay st)))) <=
  List.length (gets (trace st)) + List.length pairs /\
  List.length (sleeps (trace (snd (scan_pairs E pairs delay st)))) <=
  List.length (sleeps (trace st)) + (List.length pairs - 1).
Proof.
  rewrite scan_pairs_unfold. unfold enumerate.
  match goal with
  | |- context [for_loop _ _ _ ?s0] =>
      pose proof (scan_loop_bounds E (List.length pairs) delay pairs 1
                    Dict.empty s0) as Hb;
      assert (Hg0 : gets (trace s0) = gets (trace st))
        by (cbn [log trace]; rewrite gets_app; cbn; now rewrite app_nil_r);
      assert (Hs0 : sleeps (trace s0) = sleeps (trace st))
        by (cbn [log trace]; rewrite sleeps_app; cbn; now rewrite app_nil_r)
  end.
  cbv zeta in Hb. rewrite Hg0, Hs0 in Hb. destruct Hb as [Hg Hs].
  split; [exact Hg|].
  pose proof (pauses_at_most (List.length pairs) (List.length pairs) 1). lia.
Qed.

(** ** display_results: the rows *)

Section DisplayRows.

Variable E : env.






Lemma bind_print_run {A : Type} text (k : unit -> M A) st :
  bind (print text) k st = k tt (log st [Print (text ++ PyStr.nl)]).
Proof. reflexivity. Qed.





End DisplayRows.





(** ** calculate_arbitrage: what the heuristic finds *)

Section ArbitrageMore.

(** The product of two binary64 numbers does not depend on their order. *)
Lemma float_mul_comm (x y : float) : (x * y = y * x)%float.
Proof.
  apply Prim2SF_inj. rewrite !mul_spec. unfold SF64mul, SFmul.
  destruct (Prim2SF x) as [s|s| |s m e], (Prim2SF y) as [s'|s'| |s' m' e'];
    try reflexivity; rewrite (Bool.xorb_comm s s'); try reflexivity.
  now rewrite Pos.mul_comm, Z.add_comm.
Qed.

Lemma spread_of_comm r1 r2 : spread_of r1 r2 = spread_of r2 r1.
Proof. unfold spread_of. now rewrite float_mul_comm. Qed.

(** A spread made with a rate that is not a number is not above the
    threshold. *)
Lemma spread_of_nan r : exceeds_threshold (spread_of nan r) = false.
Proof.
  unfold exceeds_threshold, spread_of.
  rewrite ltb_spec, abs_spec, sub_spec, mul_spec.
  change (Prim2SF nan) with S754_nan.
  unfold SF64sub, SF64mul. cbn [SFmul SFsub SFabs].
  unfold SFltb, SFcompare.
  destruct (Prim2SF 0.01); reflexivity.
Qed.

End ArbitrageMore.

(** X18.  The findings come in mirrored pairs: the keys [p1], [p2] are
    found with a spread exactly when [p2], [p1] are found with the same
    spread, since the product of the two rates is the same in both
    orders. *)
Theorem findings_are_mirrored (results : Dict.t RateRecord)
        (p1 p2 : string) (s : float) :
  In (p1, p2, s) (find_opportunities results) <->
  In (p2, p1, s) (find_opportunities results).
Proof.
  assert (Hhalf : forall a b,
            In (a, b, s) (find_opportunities results) ->
            In (b, a, s) (find_opportunities results)).
  { intros a b. rewrite find_opportunities_discovery, !in_discovery_order.
    intros (r1 & r2 & H1 & H2 & Hne & Hs & Hex).
    exists r2, r1. repeat split; auto.
    now rewrite spread_of_comm. }
  split; apply Hhalf.
Qed.

(** X19.  A dictionary with one entry or none gives no finding, whatever
    the rate: there is no second key to pair the first with. *)
Theorem one_entry_finds_nothing (results : Dict.t RateRecord) :
  List.length results <= 1 ->
  find_opportunities results = [] /\ shown_opportunities results = [].
Proof.
  intros Hlen.
  assert (Hfound : find_opportunities results = []).
  { destruct results as [|[k d] [|x results]]; [reflexivity| |simpl in Hlen; lia].
    unfold find_opportunities, pairs_dict, arbitrage_inner, Dict.items.
    simpl. now rewrite String.eqb_refl. }
  split; [exact Hfound|].
  unfold shown_opportunities. now rewrite Hfound.
Qed.

Lemma one_entry_finds_nothing_witness :
  List.length one_result = 1 /\
  find_opportunities one_result = [] /\ shown_opportunities one_result = [].
Proof.
  split; [reflexivity|].
  apply (one_entry_finds_nothing one_result). simpl. lia.
Defined.

(** X20.  A record whose rate is not a number (NaN) is in no finding, on
    either side: a spread made with it is NaN, which is not above the
    threshold. *)
Theorem nan_rate_is_never_flagged (results : Dict.t RateRecord)
        (p : string) (d : RateRecord) :
  Dict.wf results ->
  In (p, d) results ->
  rate d = nan ->
  forall p' s,
    ~ In (p, p', s) (find_opportunities results) /\
    ~ In (p', p, s) (find_opportunities results).
Proof.
  intros Hwf Hin Hnan p' s.
  assert (Hleft : forall p2 s2, ~ In (p, p2, s2) (find_opportunities results)).
  { intros p2 s2.
    rewrite find_opportunities_discovery, (pairs_dict_rates _ Hwf),
      in_discovery_order.
    intros (r1 & r2 & H1 & _ & _ & -> & Hex).
    apply in_rates in H1 as [d1 [H1 ->]].
    assert (Hsame : d1 = d).
    { pose proof (dict_in_get _ _ _ Hwf H1) as G1.
      pose proof (dict_in_get _ _ _ Hwf Hin) as G2. congruence. }
    subst d1. rewrite Hnan, spread_of_nan in Hex. discriminate. }
  split; [apply Hleft|].
  intros Hmirror.
  apply (Hleft p' s).
  revert Hmirror.
  rewrite find_opportunities_discovery, !in_discovery_order.
  intros (r1 & r2 & H1 & H2 & Hne & Hs & Hex).
  exists r2, r1. repeat split; auto. now rewrite spread_of_comm.
Qed.

Lemma nan_rate_is_never_flagged_witness :
  Dict.wf with_nan /\
  find_opportunities with_nan = [] /\
  forall p' s,
    ~ In ("USD/EUR", p', s) (find_opportunities with_nan) /\
    ~ In (p', "USD/EUR", s) (find_opportunities with_nan).
Proof.
  assert (Hwf : Dict.wf with_nan).
  { unfold Dict.wf, with_nan. simpl.
    repeat constructor; simpl; intuition discriminate. }
  split; [exact Hwf|]. split; [vm_compute; reflexivity|].
  apply (nan_rate_is_never_flagged with_nan "USD/EUR"
           (Sample.record "USD" "EUR" nan nan nan) Hwf).
  - left. reflexivity.
  - reflexivity.
Defined.

(** ** main *)

Section QuietFacts.

Variable E : env.

Lemma quiet_ret {A : Type} (a : A) : quiet (ret a).
Proof. intros st. reflexivity. Qed.

Lemma quiet_lift {A : Type} (o : outcome A) : quiet (lift o).
Proof. intros st. reflexivity. Qed.

Lemma quiet_print text : quiet (print text).
Proof.
  intros st. unfold print, emit. cbn [snd trace].
  rewrite filter_app. cbn. now rewrite app_nil_r.
Qed.

Lemma quiet_now : quiet (datetime_now E).
Proof.
  intros st. unfold datetime_now. cbn [snd trace].
  rewrite filter_app. cbn. now rewrite app_nil_r.
Qed.

Lemma quiet_bind {A B : Type} (c : M A) (k : A -> M B) :
  quiet c -> (forall a, quiet (k a)) -> quiet (bind c k).
Proof.
  intros Hc Hk st. unfold bind. specialize (Hc st).
  destruct (c st) as [[a|e] st1]; cbn [snd] in *; [|exact Hc].
  now rewrite Hk.
Qed.

Lemma quiet_for {A S : Type} (l : list A) (body : A -> S -> M S) :
  (forall x acc, quiet (body x acc)) ->
  forall acc, quiet (for_loop l body acc).
Proof.
  intros Hbody. induction l as [|x l IH]; intros acc; simpl.
  - apply quiet_ret.
  - apply quiet_bind; auto.
Qed.

Lemma quiet_display results : quiet (display_results E results).
Proof.
  unfold display_results, display_row.
  destruct (Dict.is_empty results); [apply quiet_print|].
  repeat first [ apply quiet_print | apply quiet_now | apply quiet_lift
               | apply quiet_bind; [|intros ?]
               | apply quiet_for; intros [? ?] ? ].
Qed.

Lemma quiet_arbitrage results : quiet (calculate_arbitrage results).
Proof.
  intros st. rewrite calculate_arbitrage_run. unfold log. cbn [snd trace].
  now rewrite filter_app, filter_io_prints, app_nil_r.
Qed.

Lemma quiet_report results : quiet (report E results).
Proof.
  unfold report.
  apply quiet_bind; [apply quiet_display|intros _].
  apply quiet_bind; [|intros _; apply quiet_print].
  destruct (Nat.leb 2 (List.length results));
    [apply quiet_arbitrage | apply quiet_ret].
Qed.

(** [main] up to the first prompt. *)
Lemma main_unfold key_line answer_line st :
  main E key_line answer_line st =
  (if String.eqb (str_strip E key_line) "" then
     (print "❌ Error: API key is required!" ;;
      print "   Get your free API key at: https://www.alphavantage.co/support/#api-key")
   else
     (new_scanner (str_strip E key_line) ;;
      print (PyStr.nl ++ "📋 Currency pairs to scan:") ;;
      for_loop currency_pairs
               (fun (p : string * string) (_ : unit) =>
                  print ("   • " ++ fst p ++ "/" ++ snd p)) tt ;;
      print (PyStr.nl ++ "⏳ Note: Free API tier allows 5 calls/minute (12 sec delay between calls)") ;;
      answer <- input (PyStr.nl ++ "Proceed with scan? (y/n): ") answer_line ;;
      if negb (String.eqb (str_lower E (str_strip E answer)) "y") then
        print "❌ Scan cancelled"
      else
        (results <- scan_pairs E currency_pairs 12 ;; report E results)))
    (log st greeting).
Proof.
  unfold main, report, greeting, log, input.
  unfold bind at 1 2 3, print at 1, emit at 1 2, ret at 1.
  cbn [trace self requests_made clock_reads].
  rewrite <- app_assoc. reflexivity.
Qed.

(** [main] from the second prompt on, once a key has been typed. *)
Lemma main_with_key key_line answer_line st :
  str_strip E key_line <> "" ->
  main E key_line answer_line st =
  (if negb (String.eqb (str_lower E (str_strip E answer_line)) "y") then
     print "❌ Scan cancelled"
   else
     (results <- scan_pairs E currency_pairs 12 ;; report E results))
    (ready st (str_strip E key_line)).
Proof.
  intros Hkey. rewrite main_unfold.
  apply String.eqb_neq in Hkey. rewrite Hkey.
  unfold ready, briefing, greeting, log, new_scanner, input, currency_pairs.
  cbn [for_loop fst snd].
  unfold bind at 1 2 3 4 5 6 7 8 9 10 11, print at 1 2 3 4 5 6 7, emit, ret.
  cbn [trace self requests_made clock_reads].
  rewrite <- !app_assoc. reflexivity.
Qed.

End QuietFacts.

(** X21.  When [strip] leaves nothing of the line typed at the first
    prompt, [main] prints that a key is required and where to get
    one, and returns: no scanner is made, the second prompt is not shown,
    no request is sent. *)
Theorem main_needs_a_key (E : env) (key_line answer_line : string)
        (st : state) :
  str_strip E key_line = "" ->
  main E key_line answer_line st =
  (Return tt,
   log st (greeting ++
           [ Print ("❌ Error: API key is required!" ++ PyStr.nl);
             Print ("   Get your free API key at: https://www.alphavantage.co/support/#api-key"
                      ++ PyStr.nl) ])).
Proof.
  intros Hblank. rewrite main_unfold, Hblank. cbn [String.eqb].
  rewrite !bind_print_run. unfold print, emit, log.
  cbn [trace self requests_made clock_reads].
  rewrite <- !app_assoc. reflexivity.
Qed.

Lemma main_needs_a_key_witness :
  main (Sample.world []) "   " "y" (initial_state "") =
  (Return tt,
   log (initial_state "")
       (greeting ++
        [ Print ("❌ Error: API key is required!" ++ PyStr.nl);
          Print ("   Get your free API key at: https://www.alphavantage.co/support/#api-key"
                   ++ PyStr.nl) ])).
Proof.
  apply (main_needs_a_key (Sample.world []) "   " "y" (initial_state "")).
  reflexivity.
Defined.

(** X22.  When a key has been typed and the answer to the second prompt,
    once [strip] and [lower] have gone over it, is anything but y, [main]
    prints "Scan cancelled" and returns without a request or a pause; the
    scanner holds the key as [strip] leaves it. *)
Theorem main_declined (E : env) (key_line answer_line : string)
        (st : state) :
  str_strip E key_line <> "" ->
  str_lower E (str_strip E answer_line) <> "y" ->
  main E key_line answer_line st =
  (Return tt,
   {| self := init (str_strip E key_line);
      requests_made := requests_made st;
      clock_reads := clock_reads st;
      trace := (trace st ++ greeting ++ briefing
                  ++ [Print ("❌ Scan cancelled" ++ PyStr.nl)])%list |}).
Proof.
  intros Hkey Hanswer. rewrite (main_with_key E _ _ _ Hkey).
  apply String.eqb_neq in Hanswer. rewrite Hanswer. cbn [negb].
  unfold print, emit, ready. cbn [trace self requests_made clock_reads].
  rewrite <- !app_assoc. reflexivity.
Qed.

Lemma main_declined_witness :
  main five_quotes_world " demo " "yes" (initial_state "") =
  (Return tt,
   {| self := init "demo";
      requests_made := 0;
      clock_reads := 0;
      trace := (greeting ++ briefing
                  ++ [Print ("❌ Scan cancelled" ++ PyStr.nl)])%list |}).
Proof.
  apply (main_declined five_quotes_world " demo " "yes" (initial_state "")).
  - vm_compute. discriminate.
  - vm_compute. discriminate.
Defined.

(** X23.  When a key has been typed, the answer is y, [time.sleep] takes
    a length of 12 seconds, and every fetch returns, [main] scans the five
    pairs USD/EUR, USD/GBP, USD/JPY, EUR/GBP and GBP/JPY in this order with
    the typed key (as [strip] leaves it) and a pause of 12 seconds between
    two requests: five requests, four pauses, nothing after the last.  What
    follows the scan sends nothing more. *)
Theorem main_scans_the_five_pairs (E : env) (key_line answer_line : string)
        (st : state) :
  str_strip E key_line <> "" ->
  str_lower E (str_strip E answer_line) = "y" ->
  sleep_error E 12 = None ->
  (forall i f t, nth_error currency_pairs i = Some (f, t) ->
                 returns (fetched E (requests_made st + i) f t) = true) ->
  filter is_io (trace (snd (main E key_line answer_line st))) =
  (filter is_io (trace st) ++
   schedule 12
     (map (fun p => request_for E (init (str_strip E key_line)) (fst p) (snd p))
          currency_pairs))%list /\
  List.length (gets (trace (snd (main E key_line answer_line st)))) =
  List.length (gets (trace st)) + 5 /\
  List.length (sleeps (trace (snd (main E key_line answer_line st)))) =
  List.length (sleeps (trace st)) + 4.
Proof.
  intros Hkey Hanswer Hsleep Hret.
  rewrite (main_with_key E _ _ _ Hkey), Hanswer. cbn [String.eqb Ascii.eqb Bool.eqb negb].
  destruct (scan_pairs_total E currency_pairs 12
              (ready st (str_strip E key_line)) Hret (fun _ => Hsleep))
    as (results & st1 & Hscan).
  unfold bind. rewrite Hscan.
  pose proof (quiet_report E results st1) as Hquiet.
  apply scan_pairs_returns in Hscan as (_ & _ & _ & _ & _ & _ & Hio).
  assert (Hready : filter is_io (trace (ready st (str_strip E key_line)))
                   = filter is_io (trace st)).
  { unfold ready. cbn [trace]. rewrite filter_app.
    cbn. now rewrite app_nil_r. }
  rewrite Hready in Hio. cbn [self ready] in Hio.
  assert (Hmain : filter is_io (trace (snd (report E results st1))) =
                  (filter is_io (trace st) ++
                   schedule 12
                     (map (fun p => request_for E (init (str_strip E key_line))
                                                (fst p) (snd p))
                          currency_pairs))%list) by now rewrite Hquiet.
  split; [exact Hmain|].
  rewrite <- (gets_of_io (trace (snd _))), <- (sleeps_of_io (trace (snd _))),
    Hmain.
  rewrite gets_app, sleeps_app, !length_app, gets_of_io, sleeps_of_io.
  split; reflexivity.
Qed.

Lemma main_scans_the_five_pairs_witness :
  filter is_io (trace (snd (main five_quotes_world " demo " " Y "
                              (initial_state "")))) =
  [ Get (request_for five_quotes_world (init "demo") "USD" "EUR"); Sleep 12;
    Get (request_for five_quotes_world (init "demo") "USD" "GBP"); Sleep 12;
    Get (request_for five_quotes_world (init "demo") "USD" "JPY"); Sleep 12;
    Get (request_for five_quotes_world (init "demo") "EUR" "GBP"); Sleep 12;
    Get (request_for five_quotes_world (init "demo") "GBP" "JPY") ].
Proof.
  refine (proj1 (main_scans_the_five_pairs five_quotes_world " demo " " Y "
                   (initial_state "") _ _ _ _)).
  - vm_compute. discriminate.
  - vm_compute. reflexivity.
  - vm_compute. reflexivity.
  - intros [|[|[|[|[|i]]]]] f t Hi; simpl in Hi;
      try (injection Hi as <- <-; vm_compute; reflexivity).
    destruct i; discriminate.
Defined.

Section MainMore.

Variable E : env.



(** [main], when a fetch of its scan raises. *)
Lemma main_stops_at_raise key_line answer_line st k f t e :
  str_strip E key_line <> "" ->
  str_lower E (str_strip E answer_line) = "y" ->
  (0 < k -> sleep_error E 12 = None) ->
  (forall i f' t', i < k -> nth_error currency_pairs i = Some (f', t') ->
                   returns (fetched E (requests_made st + i) f' t') = true) ->
  nth_error currency_pairs k = Some (f, t) ->
  fetched E (requests_made st + k) f t = Raise e ->
  exists st',
    main E key_line answer_line st = (Raise e, st') /\
    requests_made st' = requests_made st + S k /\
    clock_reads st' = clock_reads st.
Proof.
  intros Hkey Hanswer Hsleep Hbefore Hk Hraise.
  rewrite (main_with_key E _ _ _ Hkey), Hanswer.
  cbn [String.eqb Ascii.eqb Bool.eqb negb].
  unfold bind. rewrite scan_pairs_unfold. unfold enumerate.
  match goal with
  | |- context [for_loop _ _ _ ?s0] =>
      destruct (turns_before_raise E (List.length currency_pairs) 12 1
                  (requests_made s0) currency_pairs k f t e
                  Hbefore Hsleep Hraise) as [Hturns Hturn];
      destruct (scan_loop_stops E (List.length currency_pairs) 12
                  currency_pairs 1 Dict.empty s0 k f t e Hturns Hk Hturn)
        as (st' & Hrun & _ & Hreq & Hclock & _)
  end.
  rewrite Hrun. exists st'. repeat split; assumption.
Qed.

(** A scan, then statements that send nothing: the bounds of the scan. *)
Lemma scan_then_quiet_bounds {A : Type} pairs delay
      (k : Dict.t RateRecord -> M A) st :
  (forall results, quiet (k results)) ->
  let st' := snd (bind (scan_pairs E pairs delay) k st) in
  List.length (gets (trace st')) <=
  List.length (gets (trace st)) + List.length pairs /\
  List.length (sleeps (trace st')) <=
  List.length (sleeps (trace st)) + (List.length pairs - 1).
Proof.
  intros Hquiet. cbv zeta. unfold bind.
  assert (Hscan :
    List.length (gets (trace (snd (scan_pairs E pairs delay st)))) <=
    List.length (gets (trace st)) + List.length pairs /\
    List.length (sleeps (trace (snd (scan_pairs E pairs delay st)))) <=
    List.length (sleeps (trace st)) + (List.length pairs - 1)).
  { rewrite scan_pairs_unfold. unfold enumerate.
    match goal with
    | |- context [for_loop _ _ _ ?s0] =>
        pose proof (scan_loop_bounds E (List.length pairs) delay pairs 1
                      Dict.empty s0) as Hb;
        assert (Hg0 : gets (trace s0) = gets (trace st))
          by (cbn [log trace]; rewrite gets_app; cbn; now rewrite app_nil_r);
        assert (Hs0 : sleeps (trace s0) = sleeps (trace st))
          by (cbn [log trace]; rewrite sleeps_app; cbn; now rewrite app_nil_r)
    end.
    cbv zeta in Hb. rewrite Hg0, Hs0 in Hb. destruct Hb as [Hg Hs].
    split; [exact Hg|].
    pose proof (pauses_at_most (List.length pairs) (List.length pairs) 1).
    lia. }
  destruct (scan_pairs E pairs delay st) as [[results|e] st1]; cbn [snd] in *;
    [|exact Hscan].
  specialize (Hquiet results st1).
  rewrite <- (gets_of_io (trace (snd _))), <- (sleeps_of_io (trace (snd _))),
    Hquiet, gets_of_io, sleeps_of_io.
  exact Hscan.
Qed.

End MainMore.



(** X25.  Whatever is typed and whatever the API answers, a run of [main]
    sends five requests at most and pauses four times at most. *)
Theorem main_never_exceeds (E : env) (key_line answer_line : string)
        (st : state) :
  List.length (gets (trace (snd (main E key_line answer_line st)))) <=
  List.length (gets (trace st)) + 5 /\
  List.length (sleeps (trace (snd (main E key_line answer_line st)))) <=
  List.length (sleeps (trace st)) + 4.
Proof.
  assert (Hsame : forall s : state,
            filter is_io (trace s) = filter is_io (trace st) ->
            List.length (gets (trace s)) <= List.length (gets (trace st)) + 5 /\
            List.length (sleeps (trace s)) <=
            List.length (sleeps (trace st)) + 4).
  { intros s Hio.
    rewrite <- (gets_of_io (trace s)), <- (sleeps_of_io (trace s)), Hio,
      gets_of_io, sleeps_of_io. lia. }
  assert (Hgreet : filter is_io (trace (log st greeting))
                   = filter is_io (trace st)).
  { unfold log. cbn [trace]. rewrite filter_app. cbn. now rewrite app_nil_r. }
  assert (Hready : filter is_io (trace (ready st (str_strip E key_line)))
                   = filter is_io (trace st)).
  { unfold ready. cbn [trace]. rewrite filter_app. cbn. now rewrite app_nil_r. }
  destruct (String.eqb (str_strip E key_line) "") eqn:Hkey.
  - rewrite main_unfold, Hkey. apply Hsame.
    rewrite <- Hgreet.
    apply (quiet_bind _ _ (quiet_print _) (fun _ => quiet_print _)).
  - apply String.eqb_neq in Hkey.
    rewrite (main_with_key E _ _ _ Hkey).
    destruct (negb (String.eqb (str_lower E (str_strip E answer_line)) "y")).
    + apply Hsame. rewrite <- Hready. apply quiet_print.
    + pose proof (scan_then_quiet_bounds E currency_pairs 12 (report E)
                    (ready st (str_strip E key_line)) (quiet_report E)) as Hb.
      cbv zeta in Hb.
      rewrite <- (gets_of_io (trace (ready _ _))),
        <- (sleeps_of_io (trace (ready _ _))), Hready,
        gets_of_io, sleeps_of_io in Hb.
      exact Hb.
Qed.

(** X26.  When the scan of [main] meets a fetch that raises, the first
    one at position [k], the exception leaves [main]; when it is an
    instance of [Exception], the guard of the module catches it: the run
    ends normally with one more line, "Unexpected error:" and the
    exception; by then [k + 1] requests have been made, and the clock has
    not been read, as no table is displayed for the pairs fetched
    before. *)
Theorem script_reports_a_raising_fetch (E : env) (describe : exn -> string)
        (key_line answer_line : string) (st : state) (k : nat)
        (f t : string) (e : exn) :
  str_strip E key_line <> "" ->
  str_lower E (str_strip E answer_line) = "y" ->
  (0 < k -> sleep_error E 12 = None) ->
  (forall i f' t', i < k -> nth_error currency_pairs i = Some (f', t') ->
                   returns (fetched E (requests_made st + i) f' t') = true) ->
  nth_error currency_pairs k = Some (f, t) ->
  fetched E (requests_made st + k) f t = Raise e ->
  is_exception e = true ->
  fst (main E key_line answer_line st) = Raise e /\
  fst (script E describe key_line answer_line st) = Return tt /\
  trace (snd (script E describe key_line answer_line st)) =
  (trace (snd (main E key_line answer_line st)) ++
   [Print ((PyStr.nl ++ "❌ Unexpected error: " ++ describe e) ++ PyStr.nl)])%list /\
  requests_made (snd (script E describe key_line answer_line st)) =
  requests_made st + S k /\
  clock_reads (snd (script E describe key_line answer_line st)) =
  clock_reads st.
Proof.
  intros Hkey Hanswer Hsleep Hbefore Hk Hraise Hclass.
  destruct (main_stops_at_raise E key_line answer_line st k f t e
              Hkey Hanswer Hsleep Hbefore Hk Hraise)
    as (st' & Hmain & Hreq & Hclock).
  unfold script, try_except. rewrite Hmain. cbn [fst snd].
  destruct e; try discriminate Hclass;
    cbn [script_except is_exception]; unfold print, emit;
    cbn [fst snd trace requests_made clock_reads];
    repeat split; assumption.
Qed.

Lemma script_reports_a_raising_fetch_witness :
  fst (main null_rate_world "demo" "y" (initial_state "")) = Raise TypeError /\
  fst (script null_rate_world exn_str "demo" "y" (initial_state ""))
  = Return tt /\
  requests_made (snd (script null_rate_world exn_str "demo" "y"
                        (initial_state ""))) = 1 /\
  clock_reads (snd (script null_rate_world exn_str "demo" "y"
                      (initial_state ""))) = 0.
Proof.
  destruct (script_reports_a_raising_fetch null_rate_world exn_str "demo" "y"
              (initial_state "") 0 "USD" "EUR" TypeError)
    as (Hmain & Hscript & _ & Hreq & Hclock).
  - vm_compute. discriminate.
  - vm_compute. reflexivity.
  - intros Hlt. lia.
  - intros i f' t' Hlt. lia.
  - reflexivity.
  - vm_compute. reflexivity.
  - reflexivity.
  - repeat split; assumption.
Defined.

(** X30.  When a request of the scan of [main] is interrupted from the
    keyboard, the first exception of the scan at position [k], the guard of
    the module takes it in its first clause: the run ends normally with the
    line "Scan interrupted by user" after two blank lines, and nothing is
    displayed. *)
Theorem script_reports_an_interrupt (E : env) (describe : exn -> string)
        (key_line answer_line : string) (st : state) (k : nat)
        (f t : string) :
  str_strip E key_line <> "" ->
  str_lower E (str_strip E answer_line) = "y" ->
  (0 < k -> sleep_error E 12 = None) ->
  (forall i f' t', i < k -> nth_error currency_pairs i = Some (f', t') ->
                   returns (fetched E (requests_made st + i) f' t') = true) ->
  nth_error currency_pairs k = Some (f, t) ->
  http E (requests_made st + k) = HttpRaise KeyboardInterrupt ->
  fst (script E describe key_line answer_line st) = Return tt /\
  trace (snd (script E describe key_line answer_line st)) =
  (trace (snd (main E key_line answer_line st)) ++
   [Print ((PyStr.nl ++ PyStr.nl ++ "⚠️  Scan interrupted by user")
             ++ PyStr.nl)])%list /\
  requests_made (snd (script E describe key_line answer_line st)) =
  requests_made st + S k /\
  clock_reads (snd (script E describe key_line answer_line st)) =
  clock_reads st.
Proof.
  intros Hkey Hanswer Hsleep Hbefore Hk Hresp.
  assert (Hraise : fetched E (requests_made st + k) f t
                   = Raise KeyboardInterrupt).
  { unfold fetched. rewrite get_exchange_rate_unfold.
    unfold try_except, bind at 1, requests_get_json.
    cbn [requests_made at_request]. rewrite Hresp. reflexivity. }
  destruct (main_stops_at_raise E key_line answer_line st k f t
              KeyboardInterrupt Hkey Hanswer Hsleep Hbefore Hk Hraise)
    as (st' & Hmain & Hreq & Hclock).
  unfold script, try_except. rewrite Hmain. cbn [fst snd script_except].
  unfold print, emit. cbn [fst snd trace requests_made clock_reads].
  repeat split; assumption.
Qed.

Lemma script_reports_an_interrupt_witness :
  fst (script interrupted_world exn_str "demo" "y" (initial_state ""))
  = Return tt /\
  stdout (skipn (List.length
                   (trace (snd (main interrupted_world "demo" "y"
                                  (initial_state "")))))
                (trace (snd (script interrupted_world exn_str "demo" "y"
                               (initial_state "")))))
  = ((PyStr.nl ++ PyStr.nl ++ "⚠️  Scan interrupted by user") ++ PyStr.nl)%string /\
  requests_made (snd (script interrupted_world exn_str "demo" "y"
                        (initial_state ""))) = 2.
Proof.
  destruct (script_reports_an_interrupt interrupted_world exn_str "demo" "y"
              (initial_state "") 1 "USD" "GBP")
    as (Hscript & Htrace & Hreq & _).
  - vm_compute. discriminate.
  - vm_compute. reflexivity.
  - intros _. vm_compute. reflexivity.
  - intros [|i] f' t' Hlt Hi; [|lia].
    simpl in Hi. injection Hi as <- <-. vm_compute. reflexivity.
  - reflexivity.
  - reflexivity.
  - split; [exact Hscript|]. split; [|exact Hreq].
    rewrite Htrace, skipn_trace. reflexivity.
Defined.

(** X27.  [main] sends a request only after a key has been typed that
    [strip] does not leave empty, and the answer to "Proceed with scan?",
    once [strip] and [lower] have gone over it, was y. *)
Theorem main_asks_before_scanning (E : env) (key_line answer_line : string)
        (st : state) :
  gets (trace (snd (main E key_line answer_line st))) <> gets (trace st) ->
  str_strip E key_line <> "" /\
  str_lower E (str_strip E answer_line) = "y".
Proof.
  intros Hsent.
  assert (Hgreet : filter is_io (trace (log st greeting))
                   = filter is_io (trace st)).
  { unfold log. cbn [trace]. rewrite filter_app. cbn. now rewrite app_nil_r. }
  assert (Hready : filter is_io (trace (ready st (str_strip E key_line)))
                   = filter is_io (trace st)).
  { unfold ready. cbn [trace]. rewrite filter_app. cbn. now rewrite app_nil_r. }
  destruct (String.eqb (str_strip E key_line) "") eqn:Hkey.
  - exfalso. apply Hsent. rewrite main_unfold, Hkey.
    rewrite <- (gets_of_io (trace (snd _))), <- (gets_of_io (trace st)).
    f_equal. rewrite <- Hgreet.
    apply (quiet_bind _ _ (quiet_print _) (fun _ => quiet_print _)).
  - apply String.eqb_neq in Hkey. split; [exact Hkey|].
    destruct (String.eqb (str_lower E (str_strip E answer_line)) "y") eqn:Hanswer.
    + apply String.eqb_eq in Hanswer. exact Hanswer.
    + exfalso. apply Hsent. rewrite (main_with_key E _ _ _ Hkey), Hanswer.
      cbn [negb].
      rewrite <- (gets_of_io (trace (snd _))), <- (gets_of_io (trace st)).
      f_equal. rewrite <- Hready. apply quiet_print.
Qed.

Lemma main_asks_before_scanning_witness :
  gets (trace (snd (main five_quotes_world " demo " " Y " (initial_state ""))))
  <> gets (trace (initial_state "")) /\
  str_strip five_quotes_world " demo " = "demo" /\
  str_lower five_quotes_world (str_strip five_quotes_world " Y ") = "y".
Proof.
  assert (Hsent : gets (trace (snd (main five_quotes_world " demo " " Y "
                                      (initial_state ""))))
                  <> gets (trace (initial_state ""))).
  { intros H. vm_compute in H. discriminate. }
  split; [exact Hsent|].
  split; [reflexivity|].
  exact (proj2 (main_asks_before_scanning five_quotes_world " demo " " Y "
                  (initial_state "") Hsent)).
Defined.
